(** * Minimal NTP server: the protocol core of [main.py]

    A shallow embedding of the time codec, the request decoder, the
    response encoder, the custom-time parser and the serving loop of
    [main.py], followed by the properties of the specification and by
    further properties of the code.

    Python values are represented as follows.
    - [int] is [Z]; shifts and masks are [Z.shiftl], [Z.shiftr], [Z.land],
      [Z.lor] (two's complement on negative numbers, as in Python).
    - [float] is IEEE 754 binary64, given by the Standard Library's
      [SpecFloat] with precision 53 and maximal exponent 1024.
    - [bytes] is [list byte].
    - an exception is a value [Raise e] of the type [result]. *)

From Stdlib Require Import ZArith QArith Qabs Qpower Lia Lqa List Bool String Ascii.
From Stdlib Require Import Strings.Byte.
From Stdlib Require Import Floats.SpecFloat.
Import ListNotations.
Local Open Scope Z_scope.

(** ** Exceptions *)

Inductive exn : Type :=
| ValueError
| OSError
| OverflowError
| TypeError
| ZeroDivisionError
| StructError.

Inductive result (A : Type) : Type :=
| Ok (a : A)
| Raise (e : exn).

Arguments Ok {A} a.
Arguments Raise {A} e.

Definition bind {A B : Type} (r : result A) (k : A -> result B) : result B :=
  match r with
  | Ok a => k a
  | Raise e => Raise e
  end.

Declare Scope py_scope.
Notation "x <- e ;; k" := (bind e (fun x => k))
  (at level 61, e at next level, right associativity) : py_scope.
Local Open Scope py_scope.

Definition raises {A : Type} (r : result A) : Prop :=
  exists e, r = Raise e.

(** ** Python floats *)

Module Float.

Definition prec : Z := 53.
Definition emax : Z := 1024.

(** [float(n)] for an integer [n]: the nearest binary64, ties to even. *)
Definition of_int (n : Z) : spec_float :=
  binary_normalize prec emax n 0 false.

(** [a / b] on two integers.  CPython's true division of integers
    returns the exact quotient rounded once to the nearest binary64
    (ties to even): [SFdiv] applied to the two integers taken as
    mantissas with exponent 0 divides them exactly and rounds once. *)
Definition truediv_int (a b : Z) : result spec_float :=
  match b with
  | Z0 => Raise ZeroDivisionError
  | _ =>
    let sb := Z.ltb b 0 in
    let fb := S754_finite sb (Z.to_pos (Z.abs b)) 0 in
    let q :=
      match a with
      | Z0 => S754_zero sb
      | Zpos p => SFdiv prec emax (S754_finite false p 0) fb
      | Zneg p => SFdiv prec emax (S754_finite true p 0) fb
      end in
    match q with
    | S754_infinity _ => Raise OverflowError
    | _ => Ok q
    end
  end.

Definition mul (x y : spec_float) : spec_float := SFmul prec emax x y.
Definition sub (x y : spec_float) : spec_float := SFsub prec emax x y.

(** [int(x)]: truncation toward zero. *)
Definition to_int (x : spec_float) : result Z :=
  match x with
  | S754_zero _ => Ok 0
  | S754_finite s m e =>
    Ok (cond_Zopp s
          (match e with
           | Zneg p => Z.shiftr (Zpos m) (Zpos p)
           | _ => Z.shiftl (Zpos m) e
           end))
  | S754_infinity _ => Raise OverflowError
  | S754_nan => Raise ValueError
  end.

(** The decimal literal [0.001]: the binary64 nearest to 1/1000. *)
Definition lit_0_001 : spec_float :=
  SFdiv prec emax (S754_finite false 1 0) (S754_finite false 1000 0).

End Float.

(** ** [datetime] and [timedelta]

    A [timedelta] keeps CPython's three normalised fields.  A [datetime]
    is kept as the number of microseconds of its wall-clock reading since
    0001-01-01T00:00:00 (the proleptic Gregorian ordinal of CPython, scaled
    to microseconds), with the UTC offset of its [tzinfo] in microseconds,
    or [None] when it is naive.  Every [tzinfo] this program creates is a
    fixed offset ([datetime.timezone]). *)

Definition US_PER_SECOND : Z := 1000000.
Definition US_PER_DAY : Z := 86400 * US_PER_SECOND.

Record timedelta : Type := mk_timedelta
  { days : Z; seconds : Z; microseconds : Z }.

Definition delta_to_microseconds (d : timedelta) : Z :=
  (days d * 86400 + seconds d) * US_PER_SECOND + microseconds d.

Definition microseconds_to_delta (us : Z) : timedelta :=
  {| days := us / US_PER_DAY;
     seconds := (us mod US_PER_DAY) / US_PER_SECOND;
     microseconds := us mod US_PER_SECOND |}.

Definition MAX_DELTA_DAYS : Z := 999999999.

(** [timedelta(seconds=s, microseconds=us)] on integers. *)
Definition timedelta_new (s us : Z) : result timedelta :=
  let d := microseconds_to_delta (s * US_PER_SECOND + us) in
  if (- MAX_DELTA_DAYS <=? days d) && (days d <=? MAX_DELTA_DAYS)
  then Ok d else Raise OverflowError.

(** [delta.total_seconds()] *)
Definition total_seconds (d : timedelta) : result spec_float :=
  Float.truediv_int (delta_to_microseconds d) US_PER_SECOND.

Record datetime : Type := mk_datetime
  { wall : Z; tzinfo : option Z }.

Definition is_leap (y : Z) : bool :=
  (y mod 4 =? 0) && (negb (y mod 100 =? 0) || (y mod 400 =? 0)).

Definition days_before_year (y : Z) : Z :=
  let y := y - 1 in y * 365 + y / 4 - y / 100 + y / 400.

Definition days_before_month (y m : Z) : Z :=
  nth (Z.to_nat (m - 1)) [0; 31; 59; 90; 120; 151; 181; 212; 243; 273; 304; 334] 0
  + (if (2 <? m) && is_leap y then 1 else 0).

Definition ymd_to_ord (y m d : Z) : Z :=
  days_before_year y + days_before_month y m + d.

(** [datetime.datetime(y, mo, d, h, mi, s, us, tzinfo=tz)] *)
Definition datetime_of (y mo d h mi s us : Z) (tz : option Z) : datetime :=
  {| wall := (ymd_to_ord y mo d - 1) * US_PER_DAY
             + ((h * 60 + mi) * 60 + s) * US_PER_SECOND + us;
     tzinfo := tz |}.

(** [datetime.max] is 9999-12-31T23:59:59.999999, of ordinal 3652059. *)
Definition MAX_ORDINAL : Z := 3652059.

Definition wall_in_range (w : Z) : bool :=
  (0 <=? w) && (w <? MAX_ORDINAL * US_PER_DAY).

Definition utc : option Z := Some 0.

Definition replace_tzinfo (dt : datetime) (tz : option Z) : datetime :=
  {| wall := wall dt; tzinfo := tz |}.

(** [dt.astimezone(datetime.timezone.utc)] on an aware [dt]: [dt - offset],
    an [OverflowError] when that leaves the years 1..9999.  (A naive [dt]
    would be read in the host's local zone; the codec tags naive values
    with UTC before it converts, so that case is not modelled.) *)
Definition astimezone_utc (dt : datetime) : result datetime :=
  match tzinfo dt with
  | Some off =>
    let w := wall dt - off in
    if wall_in_range w then Ok {| wall := w; tzinfo := utc |}
    else Raise OverflowError
  | None => Raise TypeError
  end.

(** [a - b] on two datetimes: both aware, or both naive. *)
Definition datetime_sub (a b : datetime) : result timedelta :=
  match tzinfo a, tzinfo b with
  | Some oa, Some ob =>
    Ok (microseconds_to_delta ((wall a - oa) - (wall b - ob)))
  | None, None => Ok (microseconds_to_delta (wall a - wall b))
  | _, _ => Raise TypeError
  end.

(** [dt + delta] *)
Definition datetime_add (dt : datetime) (d : timedelta) : result datetime :=
  let w := wall dt + delta_to_microseconds d in
  if wall_in_range w then Ok {| wall := w; tzinfo := tzinfo dt |}
  else Raise OverflowError.

(** ** The time codec (lines 14-55) *)

Definition NTP_EPOCH : datetime := datetime_of 1900 1 1 0 0 0 0 utc.

Definition datetime_to_ntp_timestamp (dt : datetime) : result Z :=
  let dt :=
    match tzinfo dt with
    | None => replace_tzinfo dt utc
    | Some _ => dt
    end in
  dt_utc <- astimezone_utc dt ;;
  delta <- datetime_sub dt_utc NTP_EPOCH ;;
  ts <- total_seconds delta ;;
  seconds <- Float.to_int ts ;;
  let microseconds := microseconds delta in
  q <- Float.truediv_int microseconds 1000000 ;;
  fractional <- Float.to_int (Float.mul q (Float.of_int (2 ^ 32))) ;;
  Ok (Z.lor (Z.shiftl seconds 32) fractional).

Definition ntp_timestamp_to_datetime (ntp_timestamp : Z) : result datetime :=
  let seconds := Z.land (Z.shiftr ntp_timestamp 32) 0xFFFFFFFF in
  let fractional := Z.land ntp_timestamp 0xFFFFFFFF in
  q <- Float.truediv_int fractional (2 ^ 32) ;;
  microseconds <- Float.to_int (Float.mul q (Float.of_int 1000000)) ;;
  td <- timedelta_new seconds microseconds ;;
  dt <- datetime_add NTP_EPOCH td ;;
  Ok (replace_tzinfo dt utc).

(** ** [bytes] and [struct] *)

Definition byte_of_Z (z : Z) : byte :=
  match Byte.of_N (Z.to_N (z mod 256)) with
  | Some b => b
  | None => x00
  end.

Definition Z_of_byte (b : byte) : Z := Z.of_N (Byte.to_N b).

(** The [n] low bytes of [v], most significant first. *)
Fixpoint be_bytes (n : nat) (v : Z) : list byte :=
  match n with
  | O => []
  | S n' => byte_of_Z (Z.shiftr v (8 * Z.of_nat n')) :: be_bytes n' v
  end.

(** The unsigned big-endian integer held by [bs]. *)
Definition be_value (bs : list byte) : Z :=
  fold_left (fun acc b => acc * 256 + Z_of_byte b) bs 0.

(** [struct.pack] of one unsigned field of [n] bytes in network order
    (['!B'], ['!I'], ['!Q'] for [n] = 1, 4, 8). *)
Definition pack_unsigned (n : nat) (v : Z) : result (list byte) :=
  if (0 <=? v) && (v <? 2 ^ (8 * Z.of_nat n)) then Ok (be_bytes n v)
  else Raise StructError.

(** [struct.pack('!b', v)] *)
Definition pack_b (v : Z) : result (list byte) :=
  if (-128 <=? v) && (v <=? 127) then Ok [byte_of_Z v]
  else Raise StructError.

(** [struct.pack('!BBB', a, b, c)] *)
Definition pack_BBB (a b c : Z) : result (list byte) :=
  pa <- pack_unsigned 1 a ;;
  pb <- pack_unsigned 1 b ;;
  pc <- pack_unsigned 1 c ;;
  Ok (pa ++ pb ++ pc).

(** [struct.unpack('!Q', bs)[0]] *)
Definition unpack_Q (bs : list byte) : result Z :=
  if Nat.eqb (List.length bs) 8 then Ok (be_value bs) else Raise StructError.

(** [data[a:b]] for [0 <= a <= b] *)
Definition slice (a b : nat) (data : list byte) : list byte :=
  firstn (b - a) (skipn a data).

(** ** The request decoder (lines 120-136) *)

(** The [return] statement that ends a call. *)
Inductive parse_exit : Type :=
| ReturnTooShort      (* line 126 *)
| ReturnOrigin        (* line 133 *)
| ReturnStructError.  (* line 136, the handler *)

Definition parse_ntp_request_traced (data : list byte)
  : result (parse_exit * option Z) :=
  if (List.length data <? 48)%nat then Ok (ReturnTooShort, None)
  else
    match unpack_Q (slice 24 32 data) with
    | Ok origin_timestamp => Ok (ReturnOrigin, Some origin_timestamp)
    | Raise StructError => Ok (ReturnStructError, None)
    | Raise e => Raise e
    end.

Definition parse_ntp_request (data : list byte) : result (option Z) :=
  r <- parse_ntp_request_traced data ;; Ok (snd r).

(** ** The response encoder (lines 139-203) *)

Definition build_ntp_response
    (origin_time : Z) (receive_time transmit_time : datetime)
  : result (list byte) :=
  receive_ntp <- datetime_to_ntp_timestamp receive_time ;;
  transmit_ntp <- datetime_to_ntp_timestamp transmit_time ;;
  let flags := Z.lor (Z.lor (Z.shiftl 0 6) (Z.shiftl 4 3)) 4 in
  let stratum := 2 in
  let poll := 1 in
  let precision := -20 in
  root_delay <-
    Float.to_int (Float.mul Float.lit_0_001 (Float.of_int (Z.shiftl 1 16))) ;;
  root_dispersion <-
    Float.to_int (Float.mul Float.lit_0_001 (Float.of_int (Z.shiftl 1 16))) ;;
  let ref_id := list_byte_of_string "LOCL" in
  let ref_timestamp := transmit_ntp in
  p0 <- pack_BBB flags stratum poll ;;
  p1 <- pack_b precision ;;
  p2 <- pack_unsigned 4 root_delay ;;
  p3 <- pack_unsigned 4 root_dispersion ;;
  p4 <- pack_unsigned 8 ref_timestamp ;;
  p5 <- pack_unsigned 8 origin_time ;;
  p6 <- pack_unsigned 8 receive_ntp ;;
  p7 <- pack_unsigned 8 transmit_ntp ;;
  Ok (p0 ++ p1 ++ p2 ++ p3 ++ ref_id ++ p4 ++ p5 ++ p6 ++ p7).

(** ** The custom-time parser (lines 58-117)

    The parsers of the Python runtime that [parse_custom_time] tries in
    turn are taken as an interface: each returns a value or raises. *)

Record runtime : Type := mk_runtime
  { (** [float(s)] *)
    float_of_string : string -> result spec_float;
    (** [datetime.datetime.fromtimestamp(x, tz=datetime.timezone.utc)] *)
    fromtimestamp_utc : spec_float -> result datetime;
    (** [datetime.datetime.fromisoformat(s)] *)
    fromisoformat : string -> result datetime;
    (** [datetime.datetime.strptime(s, fmt)] *)
    strptime : string -> string -> result datetime }.

(** [time_str.replace('Z', '+00:00')] *)
Fixpoint replace_Z (s : string) : string :=
  match s with
  | EmptyString => EmptyString
  | String c rest =>
    if Ascii.eqb c "Z"%char then ("+00:00" ++ replace_Z rest)%string
    else String c (replace_Z rest)
  end.

Definition is_empty (s : string) : bool :=
  match s with
  | EmptyString => true
  | String _ _ => false
  end.

Definition formats : list string :=
  [ "%Y-%m-%dT%H:%M:%S";
    "%Y-%m-%d %H:%M:%S";
    "%Y-%m-%dT%H:%M:%S.%f";
    "%Y-%m-%d %H:%M:%S.%f" ]%string.

(** The [try] of lines 67-71: [except (ValueError, OSError)]. *)
Definition try_unix_timestamp (rt : runtime) (time_str : string)
  : result datetime :=
  unix_timestamp <- float_of_string rt time_str ;;
  fromtimestamp_utc rt unix_timestamp.

(** The [try] of lines 74-81: [except ValueError]. *)
Definition try_iso (rt : runtime) (time_str : string) : result datetime :=
  dt <- fromisoformat rt (replace_Z time_str) ;;
  let dt :=
    match tzinfo dt with
    | None => replace_tzinfo dt utc
    | Some _ => dt
    end in
  astimezone_utc dt.

(** The loop of lines 91-98, with the final [raise ValueError]. *)
Fixpoint try_formats (rt : runtime) (time_str : string) (fmts : list string)
  : result datetime :=
  match fmts with
  | [] => Raise ValueError
  | fmt :: rest =>
    match strptime rt time_str fmt with
    | Ok dt => Ok (replace_tzinfo dt utc)
    | Raise ValueError => try_formats rt time_str rest
    | Raise e => Raise e
    end
  end.

Definition parse_custom_time (rt : runtime) (time_str : string)
  : result (option datetime) :=
  if is_empty time_str then Ok None
  else
    match try_unix_timestamp rt time_str with
    | Ok dt => Ok (Some dt)
    | Raise ValueError | Raise OSError =>
      match try_iso rt time_str with
      | Ok dt => Ok (Some dt)
      | Raise ValueError =>
        dt <- try_formats rt time_str formats ;; Ok (Some dt)
      | Raise e => Raise e
      end
    | Raise e => Raise e
    end.

(** Truth value of an optional string: [None] and [''] are false. *)
Definition truthy (s : option string) : bool :=
  match s with
  | Some s => negb (is_empty s)
  | None => false
  end.

Definition text_of (s : option string) : string :=
  match s with
  | Some s => s
  | None => EmptyString
  end.

(** [get_custom_time(cli_time)], where [env_time] is the value of
    [os.environ.get('NTP_CUSTOM_TIME')] and [now] the reading of
    [datetime.datetime.now(datetime.timezone.utc)]. *)
Definition get_custom_time
    (rt : runtime) (cli_time env_time : option string) (now : datetime)
  : result (option datetime) :=
  if truthy cli_time then parse_custom_time rt (text_of cli_time)
  else if truthy env_time then parse_custom_time rt (text_of env_time)
  else Ok (Some now).

(** ** [timedelta(seconds=x)] on a float

    CPython splits [x] into its integral and fractional parts, scales the
    fractional part by [1e6] in double precision, splits again, and rounds
    what is left to the nearest integer, a tie going to the even total. *)

(** [modf] followed by the conversion of the integral part to [int]. *)
Definition modf (x : spec_float) : result (Z * spec_float) :=
  match x with
  | S754_zero s => Ok (0, S754_zero s)
  | S754_finite s m e =>
    match e with
    | Zneg p =>
      Ok (cond_Zopp s (Z.shiftr (Zpos m) (Zpos p)),
          match Z.land (Zpos m) (Z.ones (Zpos p)) with
          | Zpos f => S754_finite s f e
          | _ => S754_zero s
          end)
    | _ => Ok (cond_Zopp s (Z.shiftl (Zpos m) e), S754_zero s)
    end
  | S754_infinity _ => Raise OverflowError
  | S754_nan => Raise ValueError
  end.

(** The integer added for a leftover fraction, [x] being the total so far. *)
Definition round_leftover (x : Z) (leftover : spec_float) : Z :=
  match leftover with
  | S754_finite s f (Zneg p) =>
    match 2 * Zpos f ?= 2 ^ Zpos p with
    | Lt => 0
    | Gt => cond_Zopp s 1
    | Eq => if Z.odd x then cond_Zopp s 1 else 0
    end
  | _ => 0
  end.

(** Python's [round(x)] on a float: the nearest integer, a tie going to
    the even one. *)
Definition py_round (x : spec_float) : result Z :=
  ip <- modf x ;; Ok (fst ip + round_leftover (fst ip) (snd ip)).

(** The number of microseconds of [timedelta(seconds=x)]. *)
Definition microseconds_of_seconds (x : spec_float) : result Z :=
  ip <- modf x ;;
  let sum := fst ip * US_PER_SECOND in
  match snd ip with
  | S754_zero _ => Ok sum
  | fracpart =>
    ip2 <- modf (Float.mul (Float.of_int US_PER_SECOND) fracpart) ;;
    let y := sum + fst ip2 in
    Ok (y + round_leftover y (snd ip2))
  end.

Definition timedelta_of_seconds (x : spec_float) : result timedelta :=
  us <- microseconds_of_seconds x ;;
  let d := microseconds_to_delta us in
  if (- MAX_DELTA_DAYS <=? days d) && (days d <=? MAX_DELTA_DAYS)
  then Ok d else Raise OverflowError.

(** ** The server (lines 212-271)

    The state set up before the loop, and one turn of the loop.  The clock
    is read through two calls, [datetime.datetime.now] (line 253) and
    [time.time] (lines 224 and 258); each reading is an argument. *)

Record server_state : Type := mk_server_state
  { base_time : option datetime;
    use_custom_time : bool;
    server_start_time : spec_float }.

(** Lines 220-224. *)
Definition startup
    (rt : runtime) (custom_time env_time : option string)
    (now : datetime) (time_reading : spec_float)
  : result server_state :=
  base_time <- get_custom_time rt custom_time env_time now ;;
  Ok {| base_time := base_time;
        use_custom_time := truthy custom_time || truthy env_time;
        server_start_time := time_reading |}.

(** Lines 256-262: [time_reading] is the value of [time.time()] at
    line 258, read only when a custom time is in use. *)
Definition transmit_time_of
    (st : server_state) (receive_time : datetime) (time_reading : spec_float)
  : result datetime :=
  if use_custom_time st then
    let elapsed_seconds := Float.sub time_reading (server_start_time st) in
    td <- timedelta_of_seconds elapsed_seconds ;;
    match base_time st with
    | Some base => datetime_add base td
    | None => Raise TypeError
    end
  else Ok receive_time.

(** Lines 243-268: the datagram to send back, or [None] when the request
    is ignored.  [now] is the reading of [datetime.datetime.now] at
    line 253. *)
Definition serve_datagram
    (st : server_state) (data : list byte)
    (now : datetime) (time_reading : spec_float)
  : result (option (list byte)) :=
  origin <- parse_ntp_request data ;;
  match origin with
  | None => Ok None
  | Some origin_timestamp =>
    let receive_time := now in
    transmit_time <- transmit_time_of st receive_time time_reading ;;
    response <- build_ntp_response origin_timestamp receive_time transmit_time ;;
    Ok (Some response)
  end.

(** What ends a wait in [recvfrom] (line 243): a datagram, with the two
    readings of the clock that its turn of the loop may take, or the
    interrupt of the user. *)
Inductive event : Type :=
| Datagram (data : list byte) (now : datetime) (time_reading : spec_float)
| KeyboardInterrupt.

(** The loop of lines 241-271 under the handlers of lines 273-282, run on
    the events in turn: the packets passed to [sendto], in order, and the
    value that [main] returns when the loop ends ([None] while the server
    still waits).  Every exception of a turn is an [Exception] and ends
    [main] with 1; [sendto] is taken to succeed. *)
Fixpoint serve_loop (st : server_state) (events : list event)
  : list (list byte) * option Z :=
  match events with
  | [] => ([], None)
  | KeyboardInterrupt :: _ => ([], Some 0)
  | Datagram data now time_reading :: rest =>
    match serve_datagram st data now time_reading with
    | Ok None => serve_loop st rest
    | Ok (Some response) =>
      let r := serve_loop st rest in (response :: fst r, snd r)
    | Raise _ => ([], Some 1)
    end
  end.

(** ** Notions used by the statements *)

(** The UTC reading of a datetime in microseconds since 0001-01-01; a naive
    value is read as UTC, as the codec does. *)
Definition utc_wall (dt : datetime) : Z :=
  wall dt - match tzinfo dt with Some off => off | None => 0 end.

(** Microseconds elapsed since the NTP epoch. *)
Definition ntp_us (dt : datetime) : Z := utc_wall dt - wall NTP_EPOCH.

(** An instant that a datetime can hold once converted to UTC. *)
Definition representable (dt : datetime) : Prop :=
  wall_in_range (utc_wall dt) = true.

(** At or after the NTP epoch, with the seconds fitting 32 bits. *)
Definition in_era (dt : datetime) : Prop :=
  0 <= ntp_us dt < 2 ^ 32 * US_PER_SECOND.

(** A value that fits an unsigned 64-bit field. *)
Definition u64 (v : Z) : bool := (0 <=? v) && (v <? 2 ^ 64).

(** The sixteen bytes of a response that do not depend on the arguments:
    flags, stratum, poll, precision, root delay, root dispersion and the
    reference identifier. *)
Definition header : list byte :=
  [x24; x02; x01; xec; x00; x00; x00; x41; x00; x00; x00; x41;
   x4c; x4f; x43; x4c].

(** The fraction field as the specification words it:
    [round((microseconds / 1,000,000) * 2^32)], masked to 32 bits. *)
Definition fraction_rounded (microseconds : Z) : result Z :=
  q <- Float.truediv_int microseconds 1000000 ;;
  r <- py_round (Float.mul q (Float.of_int (2 ^ 32))) ;;
  Ok (Z.land r 0xFFFFFFFF).

(** The fraction field as line 39 computes it. *)
Definition fraction_truncated (microseconds : Z) : result Z :=
  q <- Float.truediv_int microseconds 1000000 ;;
  Float.to_int (Float.mul q (Float.of_int (2 ^ 32))).

(** What it means for a text to parse in each of the three families that
    [parse_custom_time] tries. *)
Definition parses_as_unix_timestamp (rt : runtime) (s : string) : Prop :=
  exists dt, try_unix_timestamp rt s = Ok dt.

Definition parses_as_iso (rt : runtime) (s : string) : Prop :=
  exists dt, fromisoformat rt (replace_Z s) = Ok dt.

Definition parses_as_naive_format (rt : runtime) (s : string) : Prop :=
  exists fmt dt, In fmt formats /\ strptime rt s fmt = Ok dt.

(** The first attempt failed with an exception that line 70 catches. *)
Definition unix_attempt_caught (rt : runtime) (s : string) : Prop :=
  try_unix_timestamp rt s = Raise ValueError
  \/ try_unix_timestamp rt s = Raise OSError.

(** Every attempt failed with an exception that its handler catches. *)
Definition all_attempts_fail (rt : runtime) (s : string) : Prop :=
  unix_attempt_caught rt s
  /\ try_iso rt s = Raise ValueError
  /\ (forall fmt, In fmt formats -> strptime rt s fmt = Raise ValueError).

(** An attempt was reached and raised [e], which its handler lets through. *)
Definition uncaught_error (rt : runtime) (s : string) (e : exn) : Prop :=
  (try_unix_timestamp rt s = Raise e /\ e <> ValueError /\ e <> OSError)
  \/ (unix_attempt_caught rt s /\ try_iso rt s = Raise e /\ e <> ValueError)
  \/ (unix_attempt_caught rt s /\ try_iso rt s = Raise ValueError
      /\ try_formats rt s formats = Raise e /\ e <> ValueError).

(** The exact value of a finite float. *)
Definition to_Q (x : spec_float) : Q :=
  match x with
  | S754_finite s m e => (inject_Z (cond_Zopp s (Zpos m)) * Qpower (2 # 1) e)%Q
  | _ => 0%Q
  end.

(** The rounding error of [timedelta(seconds=x)] in microseconds is at
    most [1/2 + 2^-34]. *)
Definition us_error_bound : Q := ((1 # 2) + (1 # 17179869184))%Q.

(** Two doubles of one binade: positive, of the same exponent, with
    mantissas of at most 53 bits.  (The readings of [time.time()] from 2004
    to 2038 lie in one binade, of exponent -22.) *)
Definition same_binade (x y : spec_float) : Prop :=
  exists mx my e,
    x = S754_finite false mx e /\ y = S754_finite false my e
    /\ Z.pos mx < 2 ^ Float.prec /\ Z.pos my < 2 ^ Float.prec
    /\ emin Float.prec Float.emax <= e <= Float.emax - Float.prec - 1.

(** Exact lockstep, as the specification words it: the transmit instants
    of two readings differ by the difference of the readings. *)
Definition lockstep (st : server_state) (r1 r2 : spec_float) : Prop :=
  forall now t1 t2,
    transmit_time_of st now r1 = Ok t1 ->
    transmit_time_of st now r2 = Ok t2 ->
    (inject_Z (utc_wall t2 - utc_wall t1)
     == inject_Z US_PER_SECOND * (to_Q r2 - to_Q r1))%Q.

(** [dt.timestamp()] on an aware datetime. *)
Definition UNIX_EPOCH : datetime := datetime_of 1970 1 1 0 0 0 0 utc.

Definition timestamp (dt : datetime) : result spec_float :=
  d <- datetime_sub dt UNIX_EPOCH ;; total_seconds d.

(** The turn of the loop as the specification words it: the Virtual Clock
    is applied to the receive instant itself. *)
Definition serve_datagram_spec
    (st : server_state) (data : list byte) (now : datetime)
  : result (option (list byte)) :=
  real_now <- timestamp now ;; serve_datagram st data now real_now.

(** The instants whose timestamp fits the 64-bit field. *)
Definition packable (dt : datetime) : Prop :=
  - US_PER_SECOND < ntp_us dt < 2 ^ 32 * US_PER_SECOND.

(** An event that is not a datagram shorter than 48 bytes. *)
Definition well_formed (ev : event) : bool :=
  match ev with
  | Datagram data _ _ => (48 <=? List.length data)%nat
  | KeyboardInterrupt => true
  end.

(** A reading of the clock that is a number. *)
Definition is_finite (x : spec_float) : bool :=
  match x with
  | S754_zero _ | S754_finite _ _ _ => true
  | _ => false
  end.

(** Inputs on which the statements are evaluated. *)
Definition sample_request : list byte :=
  repeat x00 24 ++ [x01; x02; x03; x04; x05; x06; x07; x08] ++ repeat xff 16.

Definition t_2024 : datetime := datetime_of 2024 1 15 10 30 0 0 utc.
Definition t_2040 : datetime := datetime_of 2040 1 1 0 0 0 0 utc.
(** A runtime that answers as CPython does on the two texts below (both
    are rejected by [float] and read by [fromisoformat]) and rejects every
    other text. *)
Definition text_year_1 : string := "0001-01-01T00:00:00+01:00".
Definition text_2024 : string := "2024-01-15T10:30:00".

Definition rt_two_texts : runtime :=
  {| float_of_string := fun _ => Raise ValueError;
     fromtimestamp_utc := fun _ => Raise ValueError;
     fromisoformat := fun s =>
       if String.eqb s text_year_1
       then Ok (datetime_of 1 1 1 0 0 0 0 (Some (3600 * US_PER_SECOND)))
       else if String.eqb s text_2024
       then Ok (datetime_of 2024 1 15 10 30 0 0 None)
       else Raise ValueError;
     strptime := fun _ _ => Raise ValueError |}.

(** A server started at 2024-01-15T10:30:00Z (Unix time 1705314600) with
    that same instant as custom base; the double that follows the start
    reading, [2^-22] s later; a reading 7 s after the start. *)
Definition st_custom : server_state :=
  {| base_time := Some t_2024;
     use_custom_time := true;
     server_start_time := Float.of_int 1705314600 |}.

Definition reading_next : spec_float :=
  S754_finite false 7152607848038401 (-22).

Definition reading_7s : spec_float := Float.of_int 1705314607.

Definition t_2024_5s : datetime := datetime_of 2024 1 15 10 30 5 0 utc.
Definition t_2024_7s : datetime := datetime_of 2024 1 15 10 30 7 0 utc.

Definition t_1900_1us : datetime := datetime_of 1900 1 1 0 0 0 1 utc.
Definition t_naive : datetime := datetime_of 2024 1 15 10 30 0 250000 None.
Definition t_plus2 : datetime :=
  datetime_of 2024 1 15 12 30 0 0 (Some (2 * 3600 * US_PER_SECOND)).

(** Further inputs: an instant with an odd microsecond; a datetime whose
    UTC reading lies before year 1; half a second before and after the
    epoch; a naive datetime. *)
Definition t_2024_1us : datetime := datetime_of 2024 1 15 10 30 0 1 utc.
Definition t_year_1_plus1 : datetime :=
  datetime_of 1 1 1 0 0 0 0 (Some (3600 * US_PER_SECOND)).
Definition t_1899_half : datetime := datetime_of 1899 12 31 23 59 59 500000 utc.
Definition t_1900_half : datetime := datetime_of 1900 1 1 0 0 0 500000 utc.
Definition t_2024_naive : datetime := datetime_of 2024 1 15 10 30 0 0 None.

(** A server started without a custom time. *)
Definition st_system : server_state :=
  {| base_time := Some t_2024;
     use_custom_time := false;
     server_start_time := Float.of_int 1705314600 |}.

(** The packet built for the origin of [sample_request], received at
    [t_2024] and sent at [t_2024_7s]. *)
Definition sample_response : list byte :=
  Eval vm_compute in
    match build_ntp_response 0x0102030405060708 t_2024 t_2024_7s with
    | Ok pkt => pkt
    | Raise _ => []
    end.

(** A runtime that answers as CPython does on the text "0" ([float]
    reads it as 0.0, and [fromtimestamp] of 0.0 is the Unix epoch) and
    rejects every other text. *)
Definition text_zero : string := "0".

Definition rt_text_zero : runtime :=
  {| float_of_string := fun s =>
       if String.eqb s text_zero then Ok (S754_zero false) else Raise ValueError;
     fromtimestamp_utc := fun x =>
       match x with
       | S754_zero _ => Ok UNIX_EPOCH
       | _ => Raise OverflowError
       end;
     fromisoformat := fun _ => Raise ValueError;
     strptime := fun _ _ => Raise ValueError |}.

(** Rounding to nearest, ties to even, of the quotient [N / D]: what
    [binary_round_aux] computes on a mantissa and its location. *)
Definition locn (N D : Z) : location :=
  if N mod D =? 0 then loc_Exact else loc_Inexact (2 * (N mod D) ?= D).

Definition rne (N D : Z) : Z :=
  match 2 * (N mod D) ?= D with
  | Lt => N / D
  | Eq => if Z.even (N / D) then N / D else N / D + 1
  | Gt => N / D + 1
  end.

(** The float of mantissa [M] (at most [2^53]) and exponent [E]. *)
Definition rounded (s : bool) (M E : Z) : spec_float :=
  if M <? 2 ^ Float.prec
  then S754_finite s (Z.to_pos M) E
  else S754_finite s (Z.to_pos (2 ^ (Float.prec - 1))) (E + 1).

Definition signed (s : bool) (p : positive) : Z := cond_Zopp s (Z.pos p).

Ltac zcore :=
  change IntDef.Z.max with Z.max in *;
  change IntDef.Z.min with Z.min in *;
  change IntDef.Z.sub with Z.sub in *;
  change IntDef.Z.add with Z.add in *;
  change IntDef.Z.opp with Z.opp in *;
  change IntDef.Z.mul with Z.mul in *.

(** Chooses the disjunct that closed equations decide. *)
Ltac pick_disjunct :=
  solve [ repeat split; (reflexivity || discriminate || (left; reflexivity)
                         || (right; reflexivity))
        | left; pick_disjunct
        | right; pick_disjunct ].

(** * Binary64 rounding *)

Lemma digits2_pos_size p : digits2_pos p = Pos.size p.
Proof. induction p; simpl; congruence. Qed.

Lemma Zdigits2_bounds m :
  0 < m -> 2 ^ (Zdigits2 m - 1) <= m < 2 ^ Zdigits2 m.
Proof.
  destruct m as [|p|p]; try lia. intros _. simpl Zdigits2.
  rewrite digits2_pos_size.
  pose proof (Pos.size_gt p) as Hgt. pose proof (Pos.size_le p) as Hle.
  split.
  - assert (H : 2 * 2 ^ (Z.pos (Pos.size p) - 1) = 2 ^ Z.pos (Pos.size p)).
    { rewrite <- Z.pow_succ_r by lia. f_equal. lia. }
    assert (2 ^ Z.pos (Pos.size p) <= 2 * Z.pos p).
    { change (2 * Z.pos p) with (Z.pos p~0). rewrite <- Pos2Z.inj_pow. apply Pos2Z.pos_le_pos. exact Hle. }
    lia.
  - change 2 with (Z.pos 2). rewrite <- Pos2Z.inj_pow. apply Pos2Z.pos_lt_pos. exact Hgt.
Qed.

Lemma Zdigits2_unique m d :
  0 < d -> 2 ^ (d - 1) <= m < 2 ^ d -> Zdigits2 m = d.
Proof.
  intros Hd [Hlo Hhi].
  assert (Hm : 0 < m) by (pose proof (Z.pow_pos_nonneg 2 (d - 1)); lia).
  pose proof (Zdigits2_bounds m Hm) as [Blo Bhi].
  assert (Hdp : 0 < Zdigits2 m) by (destruct m; simpl; lia).
  destruct (Z.lt_trichotomy (Zdigits2 m) d) as [Hlt | [Heq | Hgt]]; trivial.
  - assert (2 ^ Zdigits2 m <= 2 ^ (d - 1)) by (apply Z.pow_le_mono_r; lia). lia.
  - assert (2 ^ d <= 2 ^ (Zdigits2 m - 1)) by (apply Z.pow_le_mono_r; lia). lia.
Qed.

Lemma new_location_locn D r N :
  0 < D -> r = N mod D -> new_location D r = locn N D.
Proof.
  intros HD ->. unfold new_location, locn, new_location_even, new_location_odd.
  pose proof (Z.mod_pos_bound N D HD).
  destruct (Z.even D) eqn:Hev; trivial.
  destruct (N mod D =? 0); trivial. f_equal.
  assert (Hodd : Z.odd D = true) by (rewrite <- Z.negb_even, Hev; trivial).
  apply Z.odd_spec in Hodd. destruct Hodd as [k Hk].
  destruct (2 * (N mod D) + 1 ?= D) eqn:C1; destruct (2 * (N mod D) ?= D) eqn:C2; trivial;
    rewrite ?Z.compare_eq_iff, ?Z.compare_lt_iff, ?Z.compare_gt_iff in *; lia.
Qed.

Lemma loc_of_shr_record_of_loc m l :
  loc_of_shr_record (shr_record_of_loc m l) = l.
Proof. destruct l as [|[| |]]; reflexivity. Qed.

Lemma shr_1_locn N D :
  0 <= N -> 0 < D ->
  shr_1 (shr_record_of_loc (N / D) (locn N D))
  = shr_record_of_loc (N / (2 * D)) (locn N (2 * D)).
Proof.
  intros HN HD.
  assert (Hq : 0 <= N / D) by (apply Z.div_pos; lia).
  pose proof (Z.mod_pos_bound N D HD) as Hr.
  pose proof (Z.div_mod N D ltac:(lia)) as HND.
  assert (Hdiv : N / (2 * D) = (N / D) / 2).
  { rewrite (Z.mul_comm 2 D). rewrite Z.div_div by lia. reflexivity. }
  assert (Hmod : N mod (2 * D) = D * ((N / D) mod 2) + N mod D).
  { rewrite (Z.mul_comm 2 D). rewrite Z.rem_mul_r by lia. lia. }
  rewrite Hdiv. unfold locn at 2. rewrite Hmod.
  pose proof (Z.div_mod (N / D) 2 ltac:(lia)) as Hq2.
  pose proof (Z.mod_pos_bound (N / D) 2 ltac:(lia)) as Hb.
  assert (Hcase : (N / D) mod 2 = 0 \/ (N / D) mod 2 = 1) by lia.
  assert (Hshr : forall l,
    shr_1 (shr_record_of_loc (N / D) l)
    = {| shr_m := N / D / 2;
         shr_r := negb ((N / D) mod 2 =? 0);
         shr_s := match l with loc_Exact => false | _ => true end |}).
  { intros l. destruct (N / D) as [|[p|p|]|p] eqn:Eq; try lia.
    - destruct l as [|[| |]]; reflexivity.
    - assert (Z.pos p~1 mod 2 = 1) as -> by (rewrite Pos2Z.inj_xI, Z.mul_comm, Z.add_comm, Z.mod_add by lia; reflexivity).
      assert (Z.pos p~1 / 2 = Z.pos p) as -> by lia.
      destruct l as [|[| |]]; reflexivity.
    - assert (Z.pos p~0 mod 2 = 0) as -> by (rewrite Pos2Z.inj_xO, Z.mul_comm, Z.mod_mul by lia; reflexivity).
      assert (Z.pos p~0 / 2 = Z.pos p) as -> by lia.
      destruct l as [|[| |]]; reflexivity.
    - destruct l as [|[| |]]; reflexivity. }
  rewrite Hshr. clear Hshr. unfold locn.
  destruct Hcase as [Hc | Hc]; rewrite Hc; simpl negb.
  - rewrite Z.mul_0_r, Z.add_0_l.
    destruct (N mod D =? 0) eqn:Er; [reflexivity | apply Z.eqb_neq in Er].
    assert ((2 * (N mod D) ?= 2 * D) = Lt) as -> by (apply Z.compare_lt_iff; lia).
    reflexivity.
  - rewrite Z.mul_1_r.
    destruct (D + N mod D =? 0) eqn:E2; [apply Z.eqb_eq in E2; lia|].
    destruct (N mod D =? 0) eqn:Er; [apply Z.eqb_eq in Er | apply Z.eqb_neq in Er].
    + rewrite Er, Z.add_0_r, Z.compare_refl. reflexivity.
    + assert ((2 * (D + N mod D) ?= 2 * D) = Gt) as -> by (apply Z.compare_gt_iff; lia).
      reflexivity.
Qed.

Lemma iter_pos_shr_1_locn p : forall N D,
  0 <= N -> 0 < D ->
  iter_pos shr_1 p (shr_record_of_loc (N / D) (locn N D))
  = shr_record_of_loc (N / (D * 2 ^ Z.pos p)) (locn N (D * 2 ^ Z.pos p)).
Proof.
  induction p as [p IH | p IH |]; intros N D HN HD; simpl iter_pos.
  - assert (0 < 2 ^ Z.pos p) by (apply Z.pow_pos_nonneg; lia).
    rewrite shr_1_locn, IH, IH by nia.
    replace (2 * D * 2 ^ Z.pos p * 2 ^ Z.pos p) with (D * 2 ^ Z.pos p~1); trivial.
    replace (Z.pos p~1) with (Z.pos p + Z.pos p + 1) by lia.
    rewrite !Z.pow_add_r by lia. change (2 ^ 1) with 2. ring.
  - assert (0 < 2 ^ Z.pos p) by (apply Z.pow_pos_nonneg; lia).
    rewrite IH, IH by nia.
    replace (D * 2 ^ Z.pos p * 2 ^ Z.pos p) with (D * 2 ^ Z.pos p~0); trivial.
    replace (Z.pos p~0) with (Z.pos p + Z.pos p) by lia.
    rewrite Z.pow_add_r by lia. ring.
  - rewrite shr_1_locn by lia. change (2 ^ 1) with 2. rewrite (Z.mul_comm D 2). reflexivity.
Qed.

Lemma shr_locn N D e n :
  0 <= N -> 0 < D -> 0 <= n ->
  shr (shr_record_of_loc (N / D) (locn N D)) e n
  = (shr_record_of_loc (N / (D * 2 ^ n)) (locn N (D * 2 ^ n)), e + n).
Proof.
  intros HN HD Hn. destruct n as [|p|p]; try lia; simpl shr.
  - change (2 ^ 0) with 1. rewrite Z.mul_1_r, Z.add_0_r. reflexivity.
  - rewrite iter_pos_shr_1_locn by assumption. reflexivity.
Qed.

Lemma locn_exact m : locn m 1 = loc_Exact.
Proof. unfold locn. rewrite Z.mod_1_r. reflexivity. Qed.

Lemma round_nearest_even_locn N D :
  0 < D -> round_nearest_even (N / D) (locn N D) = rne N D.
Proof.
  intros HD. unfold locn, rne.
  destruct (N mod D =? 0) eqn:E.
  - apply Z.eqb_eq in E. rewrite E, Z.mul_0_r.
    assert ((0 ?= D) = Lt) as -> by (apply Z.compare_lt_iff; lia). reflexivity.
  - unfold round_nearest_even. destruct (2 * (N mod D) ?= D); reflexivity.
Qed.

Lemma shr_m_of_loc m l : shr_m (shr_record_of_loc m l) = m.
Proof. destruct l as [|[| |]]; reflexivity. Qed.

Lemma rne_bounds N D :
  0 < D -> 2 * (rne N D) * D - D <= 2 * N <= 2 * (rne N D) * D + D.
Proof.
  intros HD. unfold rne.
  pose proof (Z.div_mod N D ltac:(lia)). pose proof (Z.mod_pos_bound N D HD).
  destruct (2 * (N mod D) ?= D) eqn:C;
    rewrite ?Z.compare_eq_iff, ?Z.compare_lt_iff, ?Z.compare_gt_iff in C.
  - destruct (Z.even (N / D)); nia.
  - nia.
  - nia.
Qed.

Lemma rne_exact N D : 0 < D -> N mod D = 0 -> rne N D = N / D.
Proof.
  intros HD H. unfold rne. rewrite H, Z.mul_0_r.
  assert ((0 ?= D) = Lt) as -> by (apply Z.compare_lt_iff; lia). reflexivity.
Qed.

Lemma rne_range N D : 0 < D -> N / D <= rne N D <= N / D + 1.
Proof.
  intros HD. unfold rne. destruct (2 * (N mod D) ?= D); try destruct (Z.even (N / D)); lia.
Qed.

(* Rounding of N/D * 2^e in the normal range. *)
Lemma binary_round_aux_normal s N D e n :
  0 <= N -> 0 < D -> 0 <= n ->
  2 ^ (Float.prec - 1 + n) <= N / D < 2 ^ (Float.prec + n) ->
  emin Float.prec Float.emax <= e + n ->
  e + n + 1 <= Float.emax - Float.prec ->
  binary_round_aux Float.prec Float.emax s (N / D) e (locn N D)
  = if rne N (D * 2 ^ n) <? 2 ^ Float.prec
    then S754_finite s (Z.to_pos (rne N (D * 2 ^ n))) (e + n)
    else S754_finite s (Z.to_pos (2 ^ (Float.prec - 1))) (e + n + 1).
Proof.
  intros HN HD Hn Hm Hemin Hemax.
  assert (Hdig : Zdigits2 (N / D) = Float.prec + n).
  { apply Zdigits2_unique. unfold Float.prec; lia.
    replace (Float.prec + n - 1) with (Float.prec - 1 + n) by lia. exact Hm. }
  unfold binary_round_aux, shr_fexp. rewrite Hdig.
  assert (Hfexp : fexp Float.prec Float.emax (Float.prec + n + e) - e = n).
  { unfold fexp. lia. }
  rewrite Hfexp. rewrite shr_locn by assumption.
  rewrite shr_m_of_loc, loc_of_shr_record_of_loc.
  assert (HD' : 0 < D * 2 ^ n) by (pose proof (Z.pow_pos_nonneg 2 n); nia).
  rewrite round_nearest_even_locn by assumption.
  assert (Hq : 2 ^ (Float.prec - 1) <= N / (D * 2 ^ n) < 2 ^ Float.prec).
  { rewrite <- Z.div_div by (pose proof (Z.pow_pos_nonneg 2 n); lia).
    rewrite Z.pow_add_r in Hm by (unfold Float.prec; lia).
    rewrite Z.pow_add_r in Hm by (unfold Float.prec; lia).
    pose proof (Z.pow_pos_nonneg 2 n ltac:(lia) Hn).
    split.
    - apply Z.div_le_lower_bound; lia.
    - apply Z.div_lt_upper_bound; lia. }
  pose proof (rne_range N (D * 2 ^ n) HD') as HR.
  set (M := rne N (D * 2 ^ n)) in *.
  destruct (M <? 2 ^ Float.prec) eqn:HM; [apply Z.ltb_lt in HM | apply Z.ltb_ge in HM].
  - assert (HdM : Zdigits2 M = Float.prec).
    { apply Zdigits2_unique. unfold Float.prec; lia. lia. }
    rewrite HdM.
    assert (fexp Float.prec Float.emax (Float.prec + (e + n)) - (e + n) = 0) as ->.
    { unfold fexp. lia. }
    simpl shr. simpl shr_m.
    assert (0 < M) by (pose proof (Z.pow_pos_nonneg 2 (Float.prec - 1)); unfold Float.prec in *; lia).
    destruct M; try lia.
    assert ((e + n <=? Float.emax - Float.prec) = true) as -> by (apply Z.leb_le; lia).
    reflexivity.
  - assert (HMeq : M = 2 ^ Float.prec) by lia.
    rewrite HMeq.
    change (Zdigits2 (2 ^ Float.prec)) with (Float.prec + 1).
    assert (fexp Float.prec Float.emax (Float.prec + 1 + (e + n)) - (e + n) = 1) as ->.
    { unfold fexp. lia. }
    change (2 ^ Float.prec) with 9007199254740992.
    cbn [shr shr_record_of_loc iter_pos shr_1 shr_m].
    assert ((e + n + 1 <=? Float.emax - Float.prec) = true) as -> by (apply Z.leb_le; lia).
    reflexivity.
Qed.

Lemma rne_scale c N D : 0 < c -> 0 < D -> rne (N * c) (D * c) = rne N D.
Proof.
  intros Hc HD. unfold rne.
  rewrite Z.div_mul_cancel_r by lia.
  rewrite Z.mul_mod_distr_r by lia.
  replace (2 * (N mod D * c)) with ((2 * (N mod D)) * c) by ring.
  rewrite <- Zmult_compare_compat_r by lia. reflexivity.
Qed.

(* floor of a rounded quotient *)
Lemma rne_div_floor a b P :
  0 <= a -> 0 < b -> 0 < P -> b < 2 * P ->
  rne (a * P) b / P = a / b.
Proof.
  intros Ha Hb HP HbP.
  pose proof (rne_bounds (a * P) b Hb) as [Hlo Hhi].
  pose proof (Z.div_mod a b ltac:(lia)) as Hab.
  pose proof (Z.mod_pos_bound a b Hb) as Hu.
  set (M := rne (a * P) b) in *. set (S := a / b) in *. set (u := a mod b) in *.
  symmetry. apply Z.div_unique with (r := M - S * P).
  - left. split.
    + assert (0 <= b * (2 * M + 1 - 2 * S * P)) by nia. nia.
    + assert (0 < b * (2 * (S + 1) * P - 2 * M)) by nia. nia.
  - ring.
Qed.

Lemma to_int_finite s m e :
  Float.to_int (S754_finite s m e) = Ok (cond_Zopp s (Z.shiftl (Z.pos m) e)).
Proof. destruct e; reflexivity. Qed.

Lemma rounded_finite s M E :
  2 ^ (Float.prec - 1) <= M <= 2 ^ Float.prec ->
  exists m j, rounded s M E = S754_finite s m (E + j)
              /\ 0 <= j <= 1 /\ Z.pos m * 2 ^ j = M
              /\ 2 ^ (Float.prec - 1) <= Z.pos m < 2 ^ Float.prec.
Proof.
  intros HM. unfold rounded.
  destruct (M <? 2 ^ Float.prec) eqn:C; [apply Z.ltb_lt in C | apply Z.ltb_ge in C].
  - exists (Z.to_pos M), 0. rewrite Z.add_0_r.
    assert (0 < M) by (change (2 ^ (Float.prec - 1)) with 4503599627370496 in HM; lia).
    rewrite Z2Pos.id by lia. repeat split; try lia.
  - exists (Z.to_pos (2 ^ (Float.prec - 1))), 1.
    assert (M = 2 ^ Float.prec) by lia. subst M.
    repeat split; try lia; vm_compute; congruence.
Qed.

Lemma to_int_rounded s M E :
  2 ^ (Float.prec - 1) <= M <= 2 ^ Float.prec ->
  Float.to_int (rounded s M E) = Ok (cond_Zopp s (Z.shiftl M E)).
Proof.
  intros HM. destruct (rounded_finite s M E HM) as (m & j & -> & Hj & Hm & _).
  rewrite to_int_finite. do 2 f_equal.
  rewrite <- Hm, <- Z.shiftl_mul_pow2 by lia.
  rewrite Z.shiftl_shiftl by lia. f_equal. lia.
Qed.

Lemma div_eucl_pair a b : Z.div_eucl a b = (a / b, a mod b).
Proof. unfold Z.div, Z.modulo. destruct (Z.div_eucl a b). reflexivity. Qed.

Lemma shift_mantissa m s :
  0 <= s ->
  match s with Z.pos _ => Z.shiftl m s | 0 => m | Z.neg _ => 0 end = m * 2 ^ s.
Proof.
  intros Hs. destruct s as [|p|p]; [ | apply Z.shiftl_mul_pow2 | ]; lia.
Qed.

Lemma SFdiv_int (sa sb : bool) (a b : positive) :
  Z.pos (digits2_pos a) <= Z.pos (digits2_pos b) + Float.prec - 1 ->
  Z.pos (digits2_pos b) <= 1000 ->
  exists k, 0 <= k
    /\ 2 ^ (Float.prec - 1) <= Z.pos a * 2 ^ k / Z.pos b < 2 ^ Float.prec
    /\ SFdiv Float.prec Float.emax (S754_finite sa a 0) (S754_finite sb b 0)
       = rounded (xorb sa sb) (rne (Z.pos a * 2 ^ k) (Z.pos b)) (- k).
Proof.
  intros Hd Hb.
  pose proof (Zdigits2_bounds (Z.pos a) ltac:(lia)) as Ba.
  pose proof (Zdigits2_bounds (Z.pos b) ltac:(lia)) as Bb.
  simpl Zdigits2 in Ba, Bb.
  set (d1 := Z.pos (digits2_pos a)) in *. set (d2 := Z.pos (digits2_pos b)) in *.
  assert (Hd1 : 0 < d1) by (unfold d1; lia).
  assert (Hd2 : 0 < d2) by (unfold d2; lia).
  set (s := Float.prec + d2 - d1).
  assert (Hs : 1 <= s) by (unfold s; lia).
  (* the quotient with s extra bits has 53 or 54 digits *)
  assert (Hq : 2 ^ (Float.prec - 1) <= Z.pos a * 2 ^ s / Z.pos b < 2 ^ (Float.prec + 1)).
  { assert (E1 : 2 ^ (d1 - 1) * 2 ^ s = 2 ^ (Float.prec - 1) * 2 ^ d2).
    { rewrite <- !Z.pow_add_r by (unfold Float.prec, s in *; lia). f_equal. unfold s. lia. }
    assert (E2 : 2 ^ d1 * 2 ^ s = 2 ^ (Float.prec + 1) * 2 ^ (d2 - 1)).
    { rewrite <- !Z.pow_add_r by (unfold Float.prec, s in *; lia). f_equal. unfold s. lia. }
    assert (0 < 2 ^ s) by (apply Z.pow_pos_nonneg; lia).
    assert (0 < 2 ^ (Float.prec - 1)) by (apply Z.pow_pos_nonneg; unfold Float.prec; lia).
    assert (0 < 2 ^ (Float.prec + 1)) by (apply Z.pow_pos_nonneg; unfold Float.prec; lia).
    split.
    - apply Z.div_le_lower_bound; [lia|]. nia.
    - apply Z.div_lt_upper_bound; [lia|]. nia. }
  assert (Hcore : SFdiv Float.prec Float.emax (S754_finite sa a 0) (S754_finite sb b 0)
                  = binary_round_aux Float.prec Float.emax (xorb sa sb)
                      (Z.pos a * 2 ^ s / Z.pos b) (- s) (locn (Z.pos a * 2 ^ s) (Z.pos b))).
  { unfold SFdiv, SFdiv_core_binary. simpl Zdigits2. fold d1 d2.
    assert (He : Z.min (fexp Float.prec Float.emax (d1 + 0 - (d2 + 0))) (0 - 0) = - s).
    { unfold s. unfold fexp, emin, Float.prec, Float.emax in *. zcore. lia. }
    rewrite He. replace (0 - 0 - - s) with s by lia.
    assert (Hm : match s with Z.pos _ => Z.shiftl (Z.pos a) s | 0 => Z.pos a | Z.neg _ => 0 end
                 = Z.pos a * 2 ^ s).
    { apply shift_mantissa. lia. }
    rewrite Hm, div_eucl_pair.
    rewrite (new_location_locn (Z.pos b) _ (Z.pos a * 2 ^ s)) by (trivial; lia).
    reflexivity. }
  assert (HP : 0 < 2 ^ s) by (apply Z.pow_pos_nonneg; lia).
  destruct (Z.pos a * 2 ^ s / Z.pos b <? 2 ^ Float.prec) eqn:C;
    [apply Z.ltb_lt in C | apply Z.ltb_ge in C].
  - exists s. split; [lia|]. split; [lia|].
    rewrite Hcore.
    rewrite (binary_round_aux_normal _ _ _ (- s) 0);
      try lia; try (unfold s in *; unfold emin, Float.prec, Float.emax in *; zcore; lia).
    change (2 ^ 0) with 1. rewrite Z.mul_1_r, Z.add_0_r. reflexivity.
  - exists (s - 1).
    assert (Hs1 : 2 ^ s = 2 ^ (s - 1) * 2).
    { replace s with (s - 1 + 1) at 1 by lia. rewrite Z.pow_add_r by lia. reflexivity. }
    assert (HP1 : 0 < 2 ^ (s - 1)) by (apply Z.pow_pos_nonneg; lia).
    split; [lia|]. split.
    + rewrite Hs1 in Hq, C.
      pose proof (Z.div_mod (Z.pos a * 2 ^ (s - 1)) (Z.pos b) ltac:(lia)) as E1.
      pose proof (Z.mod_pos_bound (Z.pos a * 2 ^ (s - 1)) (Z.pos b) ltac:(lia)) as B1.
      pose proof (Z.div_mod (Z.pos a * (2 ^ (s - 1) * 2)) (Z.pos b) ltac:(lia)) as E2.
      pose proof (Z.mod_pos_bound (Z.pos a * (2 ^ (s - 1) * 2)) (Z.pos b) ltac:(lia)) as B2.
      change (2 ^ (Float.prec + 1)) with (2 * 2 ^ Float.prec) in Hq.
      change (2 ^ Float.prec) with (2 * 2 ^ (Float.prec - 1)) in *.
      set (X := 2 ^ (Float.prec - 1)) in *.
      set (q1 := Z.pos a * 2 ^ (s - 1) / Z.pos b) in *.
      set (q2 := Z.pos a * (2 ^ (s - 1) * 2) / Z.pos b) in *.
      nia.
    + rewrite Hcore.
      rewrite (binary_round_aux_normal _ _ _ (- s) 1);
        try lia; try (unfold s in *; unfold emin, Float.prec, Float.emax in *; zcore; lia).
      replace (- s + 1) with (- (s - 1)) by lia.
      rewrite Hs1. change (2 ^ 1) with 2. rewrite Z.mul_assoc, rne_scale by lia.
      reflexivity.
Qed.

Lemma pow2_lt_inv x y : 0 <= y -> 2 ^ x < 2 ^ y -> x < y.
Proof. intros Hy H. apply (Z.pow_lt_mono_r_iff 2); lia. Qed.

Lemma SFmul_normal sx sy mx my ex ey n :
  0 <= n ->
  2 ^ (Float.prec - 1 + n) <= Z.pos mx * Z.pos my < 2 ^ (Float.prec + n) ->
  emin Float.prec Float.emax <= ex + ey + n ->
  ex + ey + n + 1 <= Float.emax - Float.prec ->
  Float.mul (S754_finite sx mx ex) (S754_finite sy my ey)
  = rounded (xorb sx sy) (rne (Z.pos mx * Z.pos my) (2 ^ n)) (ex + ey + n).
Proof.
  intros Hn HN Hlo Hhi. unfold Float.mul, SFmul.
  rewrite Pos2Z.inj_mul.
  set (N := Z.pos mx * Z.pos my) in *.
  rewrite <- (Z.div_1_r N) at 1. rewrite <- (locn_exact N).
  rewrite (binary_round_aux_normal _ N 1 _ n); try lia.
  - rewrite Z.mul_1_l. reflexivity.
  - rewrite Z.div_1_r. exact HN.
Qed.

Lemma mul_to_int_exact sx sy mx my ex ey n :
  0 <= n ->
  2 ^ (Float.prec - 1 + n) <= Z.pos mx * Z.pos my < 2 ^ (Float.prec + n) ->
  (Z.pos mx * Z.pos my) mod 2 ^ n = 0 ->
  emin Float.prec Float.emax <= ex + ey + n ->
  ex + ey + n + 1 <= Float.emax - Float.prec ->
  Float.to_int (Float.mul (S754_finite sx mx ex) (S754_finite sy my ey))
  = Ok (cond_Zopp (xorb sx sy) (Z.shiftl (Z.pos mx * Z.pos my) (ex + ey))).
Proof.
  intros Hn HN Hex Hlo Hhi.
  rewrite (SFmul_normal sx sy mx my ex ey n) by assumption.
  set (N := Z.pos mx * Z.pos my) in *.
  assert (HP : 0 < 2 ^ n) by (apply Z.pow_pos_nonneg; lia).
  rewrite rne_exact by assumption.
  assert (HNd : N = N / 2 ^ n * 2 ^ n).
  { pose proof (Z.div_mod N (2 ^ n) ltac:(lia)). lia. }
  assert (Hq : 2 ^ (Float.prec - 1) <= N / 2 ^ n < 2 ^ Float.prec).
  { rewrite !(Z.pow_add_r 2 _ n) in HN by (unfold Float.prec; lia).
    split; [apply Z.div_le_lower_bound | apply Z.div_lt_upper_bound]; lia. }
  rewrite to_int_rounded by lia.
  do 2 f_equal. rewrite HNd at 2.
  rewrite <- Z.shiftl_mul_pow2 by lia.
  rewrite Z.shiftl_shiftl by lia. f_equal. lia.
Qed.

Lemma of_int_2_32 : Float.of_int (2 ^ 32) = S754_finite false 4503599627370496 (-20).
Proof. reflexivity. Qed.

Lemma of_int_1000000 : Float.of_int 1000000 = S754_finite false 8589934592000000 (-33).
Proof. reflexivity. Qed.

Lemma truediv_int_signed_eq s (a b : positive) :
  Float.truediv_int (signed s a) (Z.pos b)
  = let q := SFdiv Float.prec Float.emax (S754_finite s a 0) (S754_finite false b 0) in
    match q with
    | S754_infinity _ => Raise OverflowError
    | _ => Ok q
    end.
Proof. destruct s; reflexivity. Qed.

Lemma truediv_int_signed s (a b : positive) :
  Z.pos (digits2_pos a) <= Z.pos (digits2_pos b) + Float.prec - 1 ->
  Z.pos (digits2_pos b) <= 1000 ->
  exists k m j,
    0 <= k /\ 0 <= j <= 1
    /\ 2 ^ (Float.prec - 1) <= Z.pos a * 2 ^ k / Z.pos b < 2 ^ Float.prec
    /\ 2 ^ (Float.prec - 1) <= Z.pos m < 2 ^ Float.prec
    /\ Z.pos m * 2 ^ j = rne (Z.pos a * 2 ^ k) (Z.pos b)
    /\ Float.truediv_int (signed s a) (Z.pos b) = Ok (S754_finite s m (- k + j)).
Proof.
  intros Ha Hb.
  destruct (SFdiv_int s false a b Ha Hb) as (k & Hk & Hq & Hdiv).
  pose proof (rne_range (Z.pos a * 2 ^ k) (Z.pos b) ltac:(lia)) as HR.
  destruct (rounded_finite s (rne (Z.pos a * 2 ^ k) (Z.pos b)) (- k) ltac:(lia))
    as (m & j & Hr & Hj & Hm & Hmr).
  exists k, m, j. repeat split; try lia.
  rewrite truediv_int_signed_eq, Hdiv, xorb_false_r, Hr. reflexivity.
Qed.

Lemma truediv_int_pos (a b : positive) :
  Z.pos (digits2_pos a) <= Z.pos (digits2_pos b) + Float.prec - 1 ->
  Z.pos (digits2_pos b) <= 1000 ->
  exists k m j,
    0 <= k /\ 0 <= j <= 1
    /\ 2 ^ (Float.prec - 1) <= Z.pos a * 2 ^ k / Z.pos b < 2 ^ Float.prec
    /\ 2 ^ (Float.prec - 1) <= Z.pos m < 2 ^ Float.prec
    /\ Z.pos m * 2 ^ j = rne (Z.pos a * 2 ^ k) (Z.pos b)
    /\ Float.truediv_int (Z.pos a) (Z.pos b) = Ok (S754_finite false m (- k + j)).
Proof. exact (truediv_int_signed false a b). Qed.

Lemma digits_le (a : positive) d :
  0 <= d -> Z.pos a < 2 ^ d -> Z.pos (digits2_pos a) <= d.
Proof.
  intros Hd H. pose proof (Zdigits2_bounds (Z.pos a) ltac:(lia)) as B. simpl Zdigits2 in B.
  assert (Z.pos (digits2_pos a) - 1 < d) by (apply pow2_lt_inv; lia). lia.
Qed.

Lemma shiftl_mantissa m j M t :
  0 <= j -> m * 2 ^ j = M -> Z.shiftl m (j + t) = Z.shiftl M t.
Proof.
  intros Hj <-. rewrite <- Z.shiftl_shiftl by lia.
  rewrite (Z.shiftl_mul_pow2 m j) by lia. reflexivity.
Qed.

Lemma shiftl_neg M t : 0 <= t -> Z.shiftl M (- t) = M / 2 ^ t.
Proof. intros Ht. rewrite Z.shiftl_opp_r. apply Z.shiftr_div_pow2. exact Ht. Qed.

(** int(a / 1000000) for 0 <= a < 2^32 * 10^6 *)
Lemma seconds_of_total a :
  0 <= a < 2 ^ 32 * 1000000 ->
  (ts <- Float.truediv_int a 1000000 ;; Float.to_int ts) = Ok (a / 1000000).
Proof.
  intros [Ha0 Ha1]. destruct a as [|a|a]; try lia; [reflexivity|].
  destruct (truediv_int_pos a 1000000) as (k & m & j & Hk & Hj & Hq & Hm & Hmr & ->).
  { change (Z.pos (digits2_pos 1000000)) with 20.
    apply digits_le; [unfold Float.prec; lia|].
    change (2 ^ (20 + Float.prec - 1)) with (2 ^ 32 * 1048576 * 1048576). lia. }
  { vm_compute. congruence. }
  cbn [bind]. rewrite to_int_finite. cbn [cond_Zopp]. f_equal.
  assert (HP : 0 < 2 ^ k) by (apply Z.pow_pos_nonneg; lia).
  assert (Hk20 : 20 < k).
  { destruct Hq as [Hq _].
    assert (2 ^ (Float.prec - 1) * 1000000 <= Z.pos a * 2 ^ k).
    { pose proof (Z.mul_div_le (Z.pos a * 2 ^ k) 1000000 ltac:(lia)). nia. }
    assert (2 ^ 20 < 2 ^ k).
    { change (2 ^ (Float.prec - 1)) with (2 ^ 32 * 2 ^ 20) in H. nia. }
    apply pow2_lt_inv in H0; lia. }
  assert (Hb : 1000000 < 2 * 2 ^ k).
  { assert (2 ^ 20 <= 2 ^ k) by (apply Z.pow_le_mono_r; lia).
    change (2 ^ 20) with 1048576 in H. lia. }
  rewrite <- (rne_div_floor (Z.pos a) 1000000 (2 ^ k)) by lia.
  rewrite <- Hmr.
  rewrite <- Z.shiftl_mul_pow2 by lia.
  rewrite <- Z.shiftr_div_pow2 by lia.
  rewrite <- Z.shiftl_opp_r.
  rewrite Z.shiftl_shiftl by lia. f_equal. lia.
Qed.

(** int((u / 1000000) * 2**32) for 0 <= u < 10^6 *)
Lemma fraction_of_microseconds u :
  0 <= u < 1000000 ->
  (q <- Float.truediv_int u 1000000 ;;
   Float.to_int (Float.mul q (Float.of_int (2 ^ 32))))
  = Ok (u * 2 ^ 32 / 1000000).
Proof.
  intros [Hu0 Hu1]. destruct u as [|a|a]; try lia; [reflexivity|].
  destruct (truediv_int_pos a 1000000) as (k & m & j & Hk & Hj & Hq & Hm & Hmr & ->).
  { change (Z.pos (digits2_pos 1000000)) with 20.
    apply digits_le; [unfold Float.prec; lia|].
    change (2 ^ (20 + Float.prec - 1)) with 4722366482869645213696. lia. }
  { vm_compute. congruence. }
  cbn [bind]. rewrite of_int_2_32.
  assert (HP : 0 < 2 ^ k) by (apply Z.pow_pos_nonneg; lia).
  assert (Hk52 : 52 < k).
  { destruct Hq as [Hq _].
    assert (2 ^ (Float.prec - 1) * 1000000 <= Z.pos a * 2 ^ k).
    { pose proof (Z.mul_div_le (Z.pos a * 2 ^ k) 1000000 ltac:(lia)). nia. }
    assert (2 ^ 52 < 2 ^ k) by (change (2 ^ (Float.prec - 1)) with (2 ^ 52) in H; nia).
    apply pow2_lt_inv in H0; lia. }
  assert (Hk73 : k < 73).
  { destruct Hq as [_ Hq].
    assert (Z.pos a * 2 ^ k < 2 ^ Float.prec * 1000000).
    { pose proof (Z.div_mod (Z.pos a * 2 ^ k) 1000000 ltac:(lia)).
      pose proof (Z.mod_pos_bound (Z.pos a * 2 ^ k) 1000000 ltac:(lia)). nia. }
    assert (2 ^ k < 2 ^ 73).
    { change (2 ^ 73) with (2 ^ Float.prec * 1048576). nia. }
    apply pow2_lt_inv in H0; lia. }
  change (Z.pos 4503599627370496) with (2 ^ 52) in *.
  rewrite (mul_to_int_exact _ _ _ _ _ _ 52);
    try lia; try (unfold emin, Float.prec, Float.emax; zcore; lia).
  - cbn [xorb cond_Zopp]. f_equal.
    change (Z.pos 4503599627370496) with (2 ^ 52).
    rewrite <- Z.shiftl_mul_pow2 by lia.
    rewrite Z.shiftl_shiftl by lia.
    replace (52 + (- k + j + -20)) with (j + - (k - 32)) by lia.
    rewrite (shiftl_mantissa _ j _ _ ltac:(lia) Hmr).
    rewrite shiftl_neg by lia.
    replace (Z.pos a * 2 ^ k) with (Z.pos a * 2 ^ 32 * 2 ^ (k - 32)).
    + assert (2 ^ 21 <= 2 ^ (k - 32)) by (apply Z.pow_le_mono_r; lia).
      change (2 ^ 21) with 2097152 in H.
      apply rne_div_floor; lia.
    + rewrite <- Z.mul_assoc, <- Z.pow_add_r by lia. do 2 f_equal. lia.
  - change (Z.pos 4503599627370496) with (2 ^ 52).
    change (Float.prec - 1 + 52) with (52 + 52). change (Float.prec + 52) with (53 + 52).
    rewrite !(Z.pow_add_r 2 _ 52) by lia.
    change (2 ^ (Float.prec - 1)) with (2 ^ 52) in Hm.
    change (2 ^ Float.prec) with (2 ^ 53) in Hm. nia.
  - change (Z.pos 4503599627370496) with (2 ^ 52). apply Z.mod_mul. lia.
Qed.

(** int((f / 2**32) * 1000000) for 0 <= f < 2^32 *)
Lemma microseconds_of_fraction f :
  0 <= f < 2 ^ 32 ->
  (q <- Float.truediv_int f (2 ^ 32) ;;
   Float.to_int (Float.mul q (Float.of_int 1000000)))
  = Ok (f * 1000000 / 2 ^ 32).
Proof.
  intros [Hf0 Hf1]. destruct f as [|a|a]; try lia; [reflexivity|].
  change (2 ^ 32) with (Z.pos 4294967296) at 1.
  destruct (truediv_int_pos a 4294967296) as (k & m & j & Hk & Hj & Hq & Hm & Hmr & ->).
  { change (Z.pos (digits2_pos 4294967296)) with 33.
    apply digits_le; [unfold Float.prec; lia|].
    change (2 ^ (33 + Float.prec - 1)) with (2 ^ 32 * 2 ^ 53). lia. }
  { vm_compute. congruence. }
  cbn [bind]. rewrite of_int_1000000.
  change (Z.pos 4294967296) with (2 ^ 32) in *.
  change (2 ^ (Float.prec - 1)) with (2 ^ 52) in *.
  change (2 ^ Float.prec) with (2 ^ 53) in *.
  assert (HP : 0 < 2 ^ k) by (apply Z.pow_pos_nonneg; lia).
  assert (Hk52 : 52 < k).
  { destruct Hq as [Hq _].
    assert (2 ^ 52 * 2 ^ 32 <= Z.pos a * 2 ^ k).
    { pose proof (Z.mul_div_le (Z.pos a * 2 ^ k) (2 ^ 32) ltac:(lia)). nia. }
    assert (2 ^ 52 < 2 ^ k) by nia.
    apply pow2_lt_inv in H0; lia. }
  assert (Hk85 : k < 85).
  { destruct Hq as [_ Hq].
    assert (Z.pos a * 2 ^ k < 2 ^ 53 * 2 ^ 32).
    { pose proof (Z.div_mod (Z.pos a * 2 ^ k) (2 ^ 32) ltac:(lia)).
      pose proof (Z.mod_pos_bound (Z.pos a * 2 ^ k) (2 ^ 32) ltac:(lia)). nia. }
    assert (2 ^ k < 2 ^ 85).
    { change (2 ^ 85) with (2 ^ 53 * 2 ^ 32). nia. }
    apply pow2_lt_inv in H0; lia. }
  (* the quotient by 2^32 is exact *)
  assert (Hk32 : 2 ^ k = 2 ^ (k - 32) * 2 ^ 32).
  { rewrite <- Z.pow_add_r by lia. f_equal. lia. }
  assert (HP32 : 0 < 2 ^ (k - 32)) by (apply Z.pow_pos_nonneg; lia).
  assert (HM : Z.pos m * 2 ^ j = Z.pos a * 2 ^ (k - 32)).
  { rewrite Hmr, rne_exact.
    - rewrite Hk32, Z.mul_assoc. apply Z.div_mul. lia.
    - lia.
    - rewrite Hk32, Z.mul_assoc. apply Z.mod_mul. lia. }
  set (c := 8589934592000000%positive).
  assert (Hc : Z.pos c = 1000000 * 2 ^ 33) by reflexivity.
  (* the product is a multiple of 2^53 *)
  assert (Hj' : 2 ^ (k - 32) = 2 ^ (k - 32 - j) * 2 ^ j).
  { rewrite <- Z.pow_add_r by lia. f_equal. lia. }
  assert (HPj : 0 < 2 ^ j) by (apply Z.pow_pos_nonneg; lia).
  assert (Hm' : Z.pos m = Z.pos a * 2 ^ (k - 32 - j)).
  { rewrite Hj' in HM. nia. }
  assert (Hprod : Z.pos m * Z.pos c = Z.pos a * 1000000 * 2 ^ (k + 1 - j)).
  { rewrite Hm', Hc. replace (k + 1 - j) with (k - 32 - j + 33) by lia.
    rewrite Z.pow_add_r by lia. ring. }
  assert (Hfin : Z.shiftl (Z.pos m * Z.pos c) (- k + j + -33) = Z.pos a * 1000000 / 2 ^ 32).
  { rewrite Hprod. rewrite <- Z.shiftl_mul_pow2 by lia.
    rewrite Z.shiftl_shiftl by lia.
    replace (k + 1 - j + (- k + j + -33)) with (- (32)) by lia.
    apply shiftl_neg. lia. }
  assert (Hcr : 2 ^ 52 <= Z.pos c < 2 ^ 53) by (vm_compute; split; congruence).
  assert (Hmul : forall n, 0 <= n <= 53 -> (Z.pos m * Z.pos c) mod 2 ^ n = 0).
  { intros n Hn. rewrite Hprod.
    replace (k + 1 - j) with (k + 1 - j - n + n) by lia.
    rewrite Z.pow_add_r by lia. rewrite Z.mul_assoc. apply Z.mod_mul.
    pose proof (Z.pow_pos_nonneg 2 n). lia. }
  destruct (Z.pos m * Z.pos c <? 2 ^ 105) eqn:C;
    [apply Z.ltb_lt in C | apply Z.ltb_ge in C].
  - assert (R : 2 ^ (Float.prec - 1 + 52) <= Z.pos m * Z.pos c < 2 ^ (Float.prec + 52)).
    { change (2 ^ (Float.prec - 1 + 52)) with (2 ^ 52 * 2 ^ 52).
      change (2 ^ (Float.prec + 52)) with (2 ^ 105).
      split; [apply Z.mul_le_mono_nonneg; lia | exact C]. }
    rewrite (mul_to_int_exact _ _ _ _ _ _ 52 ltac:(lia) R (Hmul 52 ltac:(lia)))
      by (unfold emin, Float.prec, Float.emax; zcore; lia).
    cbn [xorb cond_Zopp]. f_equal. exact Hfin.
  - assert (R : 2 ^ (Float.prec - 1 + 53) <= Z.pos m * Z.pos c < 2 ^ (Float.prec + 53)).
    { change (2 ^ (Float.prec - 1 + 53)) with (2 ^ 105).
      change (2 ^ (Float.prec + 53)) with (2 ^ 53 * 2 ^ 53).
      split; [exact C | apply Z.mul_lt_mono_nonneg; lia]. }
    rewrite (mul_to_int_exact _ _ _ _ _ _ 53 ltac:(lia) R (Hmul 53 ltac:(lia)))
      by (unfold emin, Float.prec, Float.emax; zcore; lia).
    cbn [xorb cond_Zopp]. f_equal. exact Hfin.
Qed.

(** ** Rounding of an exact mantissa, in any range *)

Lemma shr_nonpos mrs e n : shr mrs e n = shr mrs e (Z.max 0 n).
Proof. destruct n; reflexivity. Qed.

Lemma Zdigits2_le m d : 0 <= d -> 0 <= m < 2 ^ d -> Zdigits2 m <= d.
Proof.
  intros Hd [H0 H1]. destruct (Z.eq_dec m 0) as [-> | Hm]; [exact Hd|].
  pose proof (Zdigits2_bounds m ltac:(lia)) as B.
  assert (Zdigits2 m - 1 < d) by (apply pow2_lt_inv; lia). lia.
Qed.

Lemma binary_round_aux_exact s N e :
  0 < N ->
  e + Z.max 0 (fexp Float.prec Float.emax (Zdigits2 N + e) - e) + 1
    <= Float.emax - Float.prec ->
  binary_round_aux Float.prec Float.emax s N e loc_Exact
  = let n := Z.max 0 (fexp Float.prec Float.emax (Zdigits2 N + e) - e) in
    let M := rne N (2 ^ n) in
    if M =? 0 then S754_zero s else rounded s M (e + n).
Proof.
  intros HN Hmax. cbv zeta.
  set (n := Z.max 0 (fexp Float.prec Float.emax (Zdigits2 N + e) - e)) in *.
  assert (Hn0 : 0 <= n) by (unfold n; lia).
  assert (Hn1 : Zdigits2 N - Float.prec <= n).
  { unfold n, fexp. zcore. lia. }
  assert (Hn2 : emin Float.prec Float.emax - e <= n).
  { unfold n, fexp. zcore. lia. }
  assert (HP : 0 < 2 ^ n) by (apply Z.pow_pos_nonneg; lia).
  unfold binary_round_aux, shr_fexp.
  rewrite shr_nonpos. fold n.
  rewrite <- (Z.div_1_r N) at 1. rewrite <- (locn_exact N) at 1.
  rewrite shr_locn by lia. rewrite Z.mul_1_l.
  rewrite shr_m_of_loc, loc_of_shr_record_of_loc.
  rewrite round_nearest_even_locn by exact HP.
  pose proof (rne_range N (2 ^ n) HP) as HR.
  assert (Hq : 0 <= N / 2 ^ n < 2 ^ Float.prec).
  { split; [apply Z.div_pos; lia|].
    apply Z.div_lt_upper_bound; [exact HP|].
    pose proof (Zdigits2_bounds N HN) as [_ B].
    apply Z.lt_le_trans with (2 ^ Zdigits2 N); [exact B|].
    rewrite <- Z.pow_add_r by (unfold Float.prec; lia).
    apply Z.pow_le_mono_r; lia. }
  set (M := rne N (2 ^ n)) in *.
  rewrite shr_nonpos.
  destruct (M =? 0) eqn:E0; [apply Z.eqb_eq in E0 | apply Z.eqb_neq in E0].
  - rewrite E0. cbn [Zdigits2].
    assert (Z.max 0 (fexp Float.prec Float.emax (0 + (e + n)) - (e + n)) = 0) as ->.
    { unfold fexp. zcore. unfold Float.prec in *. lia. }
    reflexivity.
  - unfold rounded.
    destruct (M <? 2 ^ Float.prec) eqn:C; [apply Z.ltb_lt in C | apply Z.ltb_ge in C].
    + assert (Hd : Zdigits2 M <= Float.prec)
        by (apply Zdigits2_le; [unfold Float.prec; lia | lia]).
      assert (Z.max 0 (fexp Float.prec Float.emax (Zdigits2 M + (e + n)) - (e + n)) = 0) as ->.
      { unfold fexp. zcore. lia. }
      cbn [shr shr_record_of_loc shr_m].
      destruct M as [|pM|pM]; try lia.
      assert ((e + n <=? Float.emax - Float.prec) = true) as -> by (apply Z.leb_le; lia).
      reflexivity.
    + assert (HM : M = 2 ^ Float.prec) by lia. rewrite HM.
      change (Zdigits2 (2 ^ Float.prec)) with (Float.prec + 1).
      assert (Z.max 0 (fexp Float.prec Float.emax (Float.prec + 1 + (e + n)) - (e + n)) = 1) as ->.
      { unfold fexp. zcore. lia. }
      change (2 ^ Float.prec) with 9007199254740992.
      cbn [shr shr_record_of_loc iter_pos shr_1 shr_m].
      assert ((e + n + 1 <=? Float.emax - Float.prec) = true) as -> by (apply Z.leb_le; lia).
      reflexivity.
Qed.

Lemma iter_xO_pow2 (d k : positive) :
  Z.pos (Pos.iter xO d k) = (Z.pos d * 2 ^ Z.pos k).
Proof.
  induction k as [|k IH] using Pos.peano_ind.
  - cbn [Pos.iter]. lia.
  - rewrite Pos.iter_succ, Pos2Z.inj_xO, IH, Pos2Z.inj_succ, Z.pow_succ_r by lia. ring.
Qed.

(** Rounding an integer of at most 53 bits, at an exponent in range, is exact. *)
Lemma binary_round_exact s (d : positive) e :
  (Z.pos d < 2 ^ Float.prec) ->
  (emin Float.prec Float.emax <= e <= Float.emax - Float.prec - 1) ->
  exists mz ez,
    binary_round Float.prec Float.emax s d e = S754_finite s mz ez
    /\ (ez <= e) /\ (Z.pos mz = Z.pos d * 2 ^ (e - ez)).
Proof.
  intros Hd He.
  pose proof (Zdigits2_bounds (Z.pos d) ltac:(lia)) as Bd. cbn [Zdigits2] in Bd.
  assert (Hdg : (Z.pos (digits2_pos d) <= Float.prec)).
  { apply digits_le; [unfold Float.prec; lia | exact Hd]. }
  unfold binary_round, shl_align.
  set (dg := Z.pos (digits2_pos d)) in *.
  set (fe := fexp Float.prec Float.emax (dg + e)).
  assert (Hfe : (fe <= e /\ dg + e - Float.prec <= fe /\ emin Float.prec Float.emax <= fe)).
  { unfold fe, fexp. zcore. lia. }
  assert (Hmain : forall mz ez,
            (ez = fe) -> (Z.pos mz = Z.pos d * 2 ^ (e - ez)) ->
            binary_round_aux Float.prec Float.emax s (Z.pos mz) ez loc_Exact
            = S754_finite s mz ez).
  { intros mz ez Hez Hmz.
    assert (Hk : (0 <= e - ez)) by lia.
    assert (HP : (0 < 2 ^ (e - ez))) by (apply Z.pow_pos_nonneg; lia).
    assert (Hdz : Zdigits2 (Z.pos mz) = (dg + (e - ez))).
    { apply Zdigits2_unique; [unfold dg; lia|]. rewrite Hmz.
      replace (dg + (e - ez) - 1) with (dg - 1 + (e - ez)) by lia.
      rewrite !Z.pow_add_r by (unfold dg; lia). nia. }
    assert (Hn : Z.max 0 (fexp Float.prec Float.emax (Zdigits2 (Z.pos mz) + ez) - ez) = 0).
    { rewrite Hdz. replace (dg + (e - ez) + ez) with (dg + e) by lia. fold fe. lia. }
    rewrite binary_round_aux_exact; [| lia | rewrite Hn; lia].
    cbv zeta. rewrite Hn. change (2 ^ 0) with 1.
    rewrite rne_exact by (try lia; apply Z.mod_1_r). rewrite Z.div_1_r.
    assert ((Z.pos mz =? 0) = false) as -> by (apply Z.eqb_neq; lia).
    unfold rounded.
    assert (Hlt : (Z.pos mz < 2 ^ Float.prec)).
    { pose proof (Zdigits2_bounds (Z.pos mz) ltac:(lia)) as [_ B]. rewrite Hdz in B.
      apply Z.lt_le_trans with (2 ^ (dg + (e - ez))); [exact B|].
      apply Z.pow_le_mono_r; lia. }
    apply Z.ltb_lt in Hlt. rewrite Hlt, Z.add_0_r. reflexivity. }
  destruct (fe - e) as [|k|k] eqn:Ek.
  - exists d, e. split; [apply Hmain; [lia | rewrite Z.sub_diag; lia]|].
    split; [lia | rewrite Z.sub_diag; lia].
  - lia.
  - exists (Pos.iter xO d k), fe.
    assert (Hm : (Z.pos (Pos.iter xO d k) = Z.pos d * 2 ^ (e - fe))).
    { rewrite iter_xO_pow2. do 2 f_equal. lia. }
    split; [apply Hmain; [reflexivity | exact Hm]|]. split; [lia | exact Hm].
Qed.

(** * [timedelta(seconds=x)]: the rounding to microseconds *)

Lemma cond_Zopp_add s a b : cond_Zopp s a + cond_Zopp s b = cond_Zopp s (a + b).
Proof. destruct s; cbn [cond_Zopp]; lia. Qed.

Lemma cond_Zopp_mul s a b : cond_Zopp s a * b = cond_Zopp s (a * b).
Proof. destruct s; cbn [cond_Zopp]; lia. Qed.

Lemma odd_cond_Zopp s a : Z.odd (cond_Zopp s a) = Z.odd a.
Proof. destruct s; cbn [cond_Zopp]; [apply Z.odd_opp | reflexivity]. Qed.

(** Splitting a float of negative exponent and rounding what is left:
    the nearest integer, a tie going to the even one. *)
Lemma modf_round_leftover s (mm q : positive) S0 :
  Z.even S0 = true ->
  (ip2 <- modf (S754_finite s mm (Z.neg q)) ;;
   Ok (cond_Zopp s S0 + fst ip2
       + round_leftover (cond_Zopp s S0 + fst ip2) (snd ip2)))
  = Ok (cond_Zopp s (S0 + rne (Z.pos mm) (2 ^ Z.pos q))).
Proof.
  intros Hev. cbn [modf bind fst snd].
  rewrite Z.shiftr_div_pow2, Z.land_ones by lia.
  assert (HP : 0 < 2 ^ Z.pos q) by (apply Z.pow_pos_nonneg; lia).
  pose proof (Z.mod_pos_bound (Z.pos mm) (2 ^ Z.pos q) HP) as Hr.
  unfold rne. f_equal.
  rewrite cond_Zopp_add.
  set (ip := Z.pos mm / 2 ^ Z.pos q).
  destruct (Z.pos mm mod 2 ^ Z.pos q) as [|f|f] eqn:Er; try lia.
  - cbn [round_leftover]. rewrite Z.add_0_r.
    assert ((2 * 0 ?= 2 ^ Z.pos q) = Lt) as -> by (apply Z.compare_lt_iff; lia).
    reflexivity.
  - cbn [round_leftover].
    destruct (2 * Z.pos f ?= 2 ^ Z.pos q).
    + rewrite odd_cond_Zopp, Z.odd_add.
      assert (Z.odd S0 = false) as -> by (rewrite <- Z.negb_even, Hev; reflexivity).
      cbn [xorb]. rewrite <- Z.negb_even.
      destruct (Z.even ip); cbn [negb].
      * rewrite Z.add_0_r. reflexivity.
      * rewrite cond_Zopp_add. f_equal. lia.
    + rewrite Z.add_0_r. reflexivity.
    + rewrite cond_Zopp_add. f_equal. lia.
Qed.

Lemma rounded_split s M E :
  0 < M <= 2 ^ Float.prec -> E <= -2 ->
  exists mm q,
    rounded s M E = S754_finite s mm (Z.neg q)
    /\ rne (Z.pos mm) (2 ^ Z.pos q) = rne M (2 ^ (- E)).
Proof.
  intros HM HE. unfold rounded.
  destruct (M <? 2 ^ Float.prec) eqn:C; [apply Z.ltb_lt in C | apply Z.ltb_ge in C].
  - exists (Z.to_pos M), (Z.to_pos (- E)).
    assert (Z.neg (Z.to_pos (- E)) = E) as -> by lia.
    rewrite !Z2Pos.id by lia. auto.
  - assert (M = 2 ^ Float.prec) as -> by lia.
    exists (Z.to_pos (2 ^ (Float.prec - 1))), (Z.to_pos (- (E + 1))).
    assert (Z.neg (Z.to_pos (- (E + 1))) = E + 1) as -> by lia.
    split; [reflexivity|].
    change (Z.pos (Z.to_pos (2 ^ (Float.prec - 1)))) with (2 ^ (Float.prec - 1)).
    rewrite Z2Pos.id by lia.
    change (2 ^ Float.prec) with (2 ^ (Float.prec - 1) * 2).
    replace (2 ^ (- E)) with (2 ^ (- (E + 1)) * 2).
    + symmetry. apply rne_scale; [lia | apply Z.pow_pos_nonneg; lia].
    + replace (- E) with (- (E + 1) + 1) by lia.
      rewrite Z.pow_add_r by lia. reflexivity.
Qed.

(** The microseconds of a float of negative exponent: the value scaled by
    [10^6], off by at most [1/2 + 2^-34]. *)
Lemma microseconds_of_seconds_neg s (m p : positive) :
  exists U,
    microseconds_of_seconds (S754_finite s m (Z.neg p)) = Ok (cond_Zopp s U)
    /\ 2 ^ 34 * Z.abs (U * 2 ^ Z.pos p - 1000000 * Z.pos m)
       <= 2 ^ Z.pos p * (2 ^ 33 + 1).
Proof.
  assert (HP : 0 < 2 ^ Z.pos p) by (apply Z.pow_pos_nonneg; lia).
  pose proof (Z.div_mod (Z.pos m) (2 ^ Z.pos p) ltac:(lia)) as Hdm.
  pose proof (Z.mod_pos_bound (Z.pos m) (2 ^ Z.pos p) HP) as Hfm.
  assert (HI : 0 <= Z.pos m / 2 ^ Z.pos p) by (apply Z.div_pos; lia).
  unfold microseconds_of_seconds. cbn [modf bind fst snd].
  rewrite Z.shiftr_div_pow2, Z.land_ones by lia.
  set (P := 2 ^ Z.pos p) in *. set (I := Z.pos m / P) in *.
  rewrite cond_Zopp_mul. change US_PER_SECOND with 1000000.
  destruct (Z.pos m mod P) as [|f|f] eqn:Ef; try lia.
  - exists (I * 1000000). split; [reflexivity|].
    replace (I * 1000000 * P - 1000000 * Z.pos m) with 0 by lia.
    cbn [Z.abs]. lia.
  - change (Float.of_int 1000000) with (S754_finite false 8589934592000000 (-33)).
    unfold Float.mul, SFmul. cbn [xorb].
    rewrite Pos2Z.inj_mul.
    set (c := Z.pos 8589934592000000).
    assert (Hc : c = 1000000 * 2 ^ 33) by reflexivity.
    set (N := c * Z.pos f).
    assert (HN : 0 < N) by (unfold N; lia).
    assert (Hd : Zdigits2 N <= Float.prec + Z.pos p).
    { apply Zdigits2_le; [unfold Float.prec; lia|].
      split; [lia|]. rewrite Z.pow_add_r by (unfold Float.prec; lia). fold P.
      assert (c < 2 ^ Float.prec) by (vm_compute; reflexivity).
      unfold N. nia. }
    set (e0 := -33 + Z.neg p).
    assert (Hn : 0 <= Z.max 0 (fexp Float.prec Float.emax (Zdigits2 N + e0) - e0) <= Z.pos p).
    { unfold fexp, emin, e0, Float.prec, Float.emax in *. zcore. lia. }
    rewrite binary_round_aux_exact;
      [| exact HN | unfold e0, Float.emax, Float.prec in *; lia].
    cbv zeta.
    set (n := Z.max 0 (fexp Float.prec Float.emax (Zdigits2 N + e0) - e0)) in *.
    assert (HA : 0 < 2 ^ n) by (apply Z.pow_pos_nonneg; lia).
    pose proof (rne_bounds N (2 ^ n) HA) as HM.
    pose proof (rne_range N (2 ^ n) HA) as HMr.
    assert (HMlt : N / 2 ^ n < 2 ^ Float.prec).
    { apply Z.div_lt_upper_bound; [exact HA|].
      pose proof (Zdigits2_bounds N HN) as [_ B].
      apply Z.lt_le_trans with (2 ^ Zdigits2 N); [exact B|].
      rewrite <- Z.pow_add_r by (unfold Float.prec; lia).
      apply Z.pow_le_mono_r; [lia|].
      unfold n, fexp. zcore. lia. }
    assert (HM0 : 0 <= N / 2 ^ n) by (apply Z.div_pos; lia).
    set (M := rne N (2 ^ n)) in *.
    set (Q := - (e0 + n)).
    assert (HQ : 33 <= Q) by (unfold Q, e0; lia).
    assert (HAB : 2 ^ n * 2 ^ Q = 2 ^ 33 * P).
    { unfold P. rewrite <- !Z.pow_add_r by lia. f_equal. unfold Q, e0. lia. }
    assert (HB : 0 < 2 ^ Q) by (apply Z.pow_pos_nonneg; lia).
    assert (HnP : 2 ^ n <= P) by (apply Z.pow_le_mono_r; lia).
    pose proof (rne_bounds M (2 ^ Q) HB) as HR.
    assert (Hfinal : forall R,
              2 * R * 2 ^ Q - 2 ^ Q <= 2 * M <= 2 * R * 2 ^ Q + 2 ^ Q ->
              2 ^ 34 * Z.abs ((I * 1000000 + R) * P - 1000000 * Z.pos m)
              <= P * (2 ^ 33 + 1)).
    { intros R HRb.
      assert (E1 : 2 ^ 33 * ((I * 1000000 + R) * P - 1000000 * Z.pos m)
                   = R * (2 ^ n * 2 ^ Q) - N).
      { rewrite HAB. unfold N. rewrite Hc. lia. }
      change (2 ^ 34) with (2 * 2 ^ 33).
      rewrite <- Z.mul_assoc, <- (Z.abs_mul (2 ^ 33)).
      rewrite E1.
      assert (- (2 ^ n * 2 ^ Q + 2 ^ n) <= 2 * (R * (2 ^ n * 2 ^ Q) - N)
              <= 2 ^ n * 2 ^ Q + 2 ^ n) by nia.
      rewrite HAB in H at 1 4. lia. }
    destruct (M =? 0) eqn:E0; [apply Z.eqb_eq in E0 | apply Z.eqb_neq in E0].
    + cbn [modf bind fst snd round_leftover]. rewrite !Z.add_0_r.
      exists (I * 1000000 + 0). rewrite Z.add_0_r. split; [reflexivity|].
      rewrite <- (Z.add_0_r (I * 1000000)). apply Hfinal. lia.
    + destruct (rounded_split s M (e0 + n) ltac:(lia) ltac:(unfold e0; lia))
        as (mm & q & -> & Hrne).
      rewrite modf_round_leftover.
      * eexists. split; [reflexivity|]. apply Hfinal.
        rewrite Hrne. fold Q. exact HR.
      * rewrite Z.even_mul. apply orb_true_r.
Qed.

Local Open Scope Q_scope.



Lemma to_Q_neg_exp s m p :
  to_Q (S754_finite s m (Z.neg p))
  == inject_Z (cond_Zopp s (Z.pos m)) * (1 # 2 ^ p).
Proof.
  unfold to_Q. rewrite Qpower_decomp_neg_pos.
  rewrite Z.pow_1_l by lia. reflexivity.
Qed.

Lemma to_Q_nonneg_exp s m e :
  (0 <= e)%Z ->
  to_Q (S754_finite s m e) == inject_Z (cond_Zopp s (Z.pos m) * 2 ^ e).
Proof.
  intros He. unfold to_Q. rewrite inject_Z_mult, (Zpower_Qpower 2 e He). reflexivity.
Qed.

Lemma Ok_inj {A : Type} (a b : A) : Ok a = Ok b -> a = b.
Proof. intros H. congruence. Qed.

Lemma microseconds_of_seconds_nonneg_exp s m e :
  (0 <= e)%Z ->
  microseconds_of_seconds (S754_finite s m e)
  = Ok (cond_Zopp s (Z.pos m * 2 ^ e) * US_PER_SECOND)%Z.
Proof.
  intros He.
  assert (H : microseconds_of_seconds (S754_finite s m e)
              = Ok (cond_Zopp s (Z.shiftl (Z.pos m) e) * US_PER_SECOND)%Z)
    by (destruct e; [reflexivity | reflexivity | lia]).
  rewrite H, Z.shiftl_mul_pow2 by exact He. reflexivity.
Qed.

Lemma microseconds_of_seconds_bound x us :
  microseconds_of_seconds x = Ok us ->
  Qabs (inject_Z us - inject_Z US_PER_SECOND * to_Q x) <= us_error_bound.
Proof.
  destruct x as [s0| | |s m e]; try discriminate.
  - intros H. apply Ok_inj in H. subst us. discriminate.
  - destruct (Z.neg_nonneg_cases e) as [Hneg | Hpos].
    + destruct e as [|pe|p]; try lia.
      destruct (microseconds_of_seconds_neg s m p) as (U & -> & HU).
      intros H. apply Ok_inj in H. subst us.
      rewrite to_Q_neg_exp.
      unfold us_error_bound, Qle, Qabs, Qminus, Qplus, Qmult, Qopp, inject_Z.
      cbn [Qnum Qden]. rewrite !Pos.mul_1_l.
      rewrite Pos2Z.inj_pow. change (Z.pos 2) with 2%Z.
      set (P := (2 ^ Z.pos p)%Z) in *.
      change US_PER_SECOND with 1000000%Z.
      change (2 ^ 34)%Z with 17179869184%Z in HU.
      change (2 ^ 33 + 1)%Z with 8589934593%Z in HU.
      assert (HP : (0 < P)%Z) by (apply Z.pow_pos_nonneg; lia).
      assert (Hs : Z.abs (cond_Zopp s U * P + - (1000000 * (cond_Zopp s (Z.pos m) * 1)) * 1)
                   = Z.abs (U * P - 1000000 * Z.pos m)).
      { destruct s; cbn [cond_Zopp]; lia. }
      rewrite Hs.
      change (Z.pos (2 * 17179869184)) with 34359738368%Z.
      change (1 * 17179869184 + 1 * 2)%Z with 17179869186%Z.
      lia.
    + rewrite microseconds_of_seconds_nonneg_exp by exact Hpos.
      intros H. apply Ok_inj in H. subst us.
      rewrite to_Q_nonneg_exp by exact Hpos.
      rewrite <- inject_Z_mult. unfold Qminus. rewrite <- inject_Z_opp, <- inject_Z_plus.
      match goal with
      | |- Qabs (inject_Z ?z) <= _ =>
        replace z with 0%Z by (destruct s; cbn [cond_Zopp]; lia)
      end.
      discriminate.
Qed.

Local Close Scope Q_scope.

(** * The time codec *)

Lemma delta_to_microseconds_to_delta us :
  delta_to_microseconds (microseconds_to_delta us) = us.
Proof.
  unfold delta_to_microseconds, microseconds_to_delta, US_PER_DAY, US_PER_SECOND.
  cbn [days seconds microseconds].
  pose proof (Z.div_mod us (86400 * 1000000) ltac:(lia)) as H1.
  pose proof (Z.div_mod (us mod (86400 * 1000000)) 1000000 ltac:(lia)) as H2.
  pose proof (Z.mod_pos_bound (us mod (86400 * 1000000)) 1000000 ltac:(lia)) as B2.
  assert (H3 : us mod 1000000 = (us mod (86400 * 1000000)) mod 1000000).
  { symmetry.
    apply Z.mod_unique with
      (q := 86400 * (us / (86400 * 1000000)) + us mod (86400 * 1000000) / 1000000); lia. }
  lia.
Qed.

Lemma NTP_EPOCH_wall : wall NTP_EPOCH = 59926608000000000.
Proof. reflexivity. Qed.

Lemma lor_shiftl_add S F n :
  0 <= n -> 0 <= F < 2 ^ n -> Z.lor (Z.shiftl S n) F = S * 2 ^ n + F.
Proof.
  intros Hn HF. rewrite Z.shiftl_mul_pow2 by lia.
  assert (Hland : Z.land (S * 2 ^ n) F = 0); [|rewrite Z.add_nocarry_lxor, Z.lxor_lor; auto].
  apply Z.bits_inj'. intros i Hi. rewrite Z.land_spec, Z.bits_0.
  destruct (Z.lt_ge_cases i n) as [Hlt | Hge].
  - rewrite Z.mul_pow2_bits_low by lia. reflexivity.
  - assert (HF0 : F = 0 \/ 0 < F) by lia.
    destruct HF0 as [-> | HFpos]; [rewrite Z.bits_0; apply andb_false_r|].
    rewrite (Z.bits_above_log2 F i); [apply andb_false_r | lia |].
    apply Z.log2_lt_pow2; [lia|].
    apply Z.lt_le_trans with (2 ^ n); [lia|]. apply Z.pow_le_mono_r; lia.
Qed.

Lemma timestamp_low_bits S F :
  0 <= F < 2 ^ 32 -> Z.land (Z.lor (Z.shiftl S 32) F) 0xFFFFFFFF = F.
Proof.
  intros HF. rewrite lor_shiftl_add by lia.
  change 0xFFFFFFFF with (Z.ones 32). rewrite Z.land_ones by lia.
  rewrite Z.add_comm, Z.mod_add by lia. apply Z.mod_small. exact HF.
Qed.

Lemma timestamp_high_bits S F :
  0 <= S < 2 ^ 32 -> 0 <= F < 2 ^ 32 ->
  Z.land (Z.shiftr (Z.lor (Z.shiftl S 32) F) 32) 0xFFFFFFFF = S.
Proof.
  intros HS HF. rewrite lor_shiftl_add by lia.
  rewrite Z.shiftr_div_pow2 by lia.
  rewrite Z.div_add_l by lia. rewrite (Z.div_small F) by lia. rewrite Z.add_0_r.
  change 0xFFFFFFFF with (Z.ones 32). rewrite Z.land_ones by lia.
  apply Z.mod_small. exact HS.
Qed.

Lemma fraction_range u : 0 <= u < 1000000 -> 0 <= u * 2 ^ 32 / 1000000 < 2 ^ 32.
Proof.
  intros Hu. split.
  - apply Z.div_pos; lia.
  - apply Z.div_lt_upper_bound; lia.
Qed.

(** The encoder, once the instant is converted to UTC. *)
Lemma datetime_to_ntp_timestamp_eq dt :
  datetime_to_ntp_timestamp dt
  = if wall_in_range (utc_wall dt)
    then
      seconds <- (ts <- Float.truediv_int (ntp_us dt) 1000000 ;; Float.to_int ts) ;;
      Ok (Z.lor (Z.shiftl seconds 32) (ntp_us dt mod 1000000 * 2 ^ 32 / 1000000))
    else Raise OverflowError.
Proof.
  unfold datetime_to_ntp_timestamp, ntp_us, utc_wall.
  assert (Haware : forall w off,
    (dt_utc <- astimezone_utc {| wall := w; tzinfo := Some off |} ;;
     delta <- datetime_sub dt_utc NTP_EPOCH ;;
     ts <- total_seconds delta ;;
     seconds <- Float.to_int ts ;;
     q <- Float.truediv_int (microseconds delta) 1000000 ;;
     fractional <- Float.to_int (Float.mul q (Float.of_int (2 ^ 32))) ;;
     Ok (Z.lor (Z.shiftl seconds 32) fractional))
    = if wall_in_range (w - off)
      then
        seconds <- (ts <- Float.truediv_int (w - off - wall NTP_EPOCH) 1000000 ;;
                    Float.to_int ts) ;;
        Ok (Z.lor (Z.shiftl seconds 32)
              ((w - off - wall NTP_EPOCH) mod 1000000 * 2 ^ 32 / 1000000))
      else Raise OverflowError).
  { intros w off. unfold astimezone_utc. cbn [wall tzinfo].
    destruct (wall_in_range (w - off)); [|reflexivity].
    cbn [bind]. unfold datetime_sub. cbn [tzinfo wall].
    change (tzinfo NTP_EPOCH) with (Some 0). unfold utc. cbn [bind].
    replace (w - off - 0 - (wall NTP_EPOCH - 0)) with (w - off - wall NTP_EPOCH) by lia.
    set (x := w - off - wall NTP_EPOCH).
    unfold total_seconds. rewrite delta_to_microseconds_to_delta.
    change US_PER_SECOND with 1000000.
    destruct (Float.truediv_int x 1000000) as [ts|e]; [|reflexivity].
    cbn [bind]. destruct (Float.to_int ts) as [sec|e]; [|reflexivity].
    cbn [bind].
    change (microseconds (microseconds_to_delta x)) with (x mod 1000000).
    pose proof (fraction_of_microseconds (x mod 1000000)
                  (Z.mod_pos_bound x 1000000 ltac:(lia))) as Hf.
    destruct (Float.truediv_int (x mod 1000000) 1000000) as [q|e]; [|discriminate].
    cbn [bind] in Hf |- *. rewrite Hf. reflexivity. }
  destruct dt as [w [off|]]; cbn [tzinfo wall replace_tzinfo].
  - apply Haware.
  - unfold replace_tzinfo, utc. cbn [wall tzinfo]. rewrite Haware. reflexivity.
Qed.

(** Within the first NTP era the encoder returns the two fields exactly. *)
Lemma datetime_to_ntp_timestamp_in_era dt :
  in_era dt ->
  datetime_to_ntp_timestamp dt
  = Ok (Z.lor (Z.shiftl (ntp_us dt / 1000000) 32)
          (ntp_us dt mod 1000000 * 2 ^ 32 / 1000000)).
Proof.
  intros Hera. rewrite datetime_to_ntp_timestamp_eq.
  unfold in_era, US_PER_SECOND in Hera.
  assert (Hr : wall_in_range (utc_wall dt) = true).
  { unfold ntp_us in Hera. rewrite NTP_EPOCH_wall in Hera.
    unfold wall_in_range, MAX_ORDINAL, US_PER_DAY, US_PER_SECOND.
    apply andb_true_iff. split; [apply Z.leb_le | apply Z.ltb_lt]; lia. }
  rewrite Hr, seconds_of_total by exact Hera. reflexivity.
Qed.

(** The decoder on a timestamp whose two fields are known. *)
Lemma ntp_timestamp_to_datetime_fields S F :
  0 <= S < 2 ^ 32 -> 0 <= F < 2 ^ 32 ->
  ntp_timestamp_to_datetime (Z.lor (Z.shiftl S 32) F)
  = Ok {| wall := wall NTP_EPOCH + (S * 1000000 + F * 1000000 / 2 ^ 32);
          tzinfo := utc |}.
Proof.
  intros HS HF. unfold ntp_timestamp_to_datetime.
  rewrite timestamp_high_bits, timestamp_low_bits by assumption.
  pose proof (microseconds_of_fraction F HF) as Hm.
  destruct (Float.truediv_int F (2 ^ 32)) as [q|e]; [|discriminate].
  cbn [bind] in Hm |- *. rewrite Hm. cbn [bind].
  assert (Hu : 0 <= F * 1000000 / 2 ^ 32 < 1000000).
  { split; [apply Z.div_pos; lia | apply Z.div_lt_upper_bound; lia]. }
  set (u := F * 1000000 / 2 ^ 32) in *.
  unfold timedelta_new.
  assert (Hd : 0 <= days (microseconds_to_delta (S * US_PER_SECOND + u)) <= 49711).
  { cbn [days microseconds_to_delta]. unfold US_PER_DAY, US_PER_SECOND. split.
    - apply Z.div_pos; lia.
    - apply Z.lt_succ_r. apply Z.div_lt_upper_bound; lia. }
  assert (Hb : (- MAX_DELTA_DAYS <=? days (microseconds_to_delta (S * US_PER_SECOND + u)))
               && (days (microseconds_to_delta (S * US_PER_SECOND + u)) <=? MAX_DELTA_DAYS)
               = true).
  { unfold MAX_DELTA_DAYS. apply andb_true_iff. split; apply Z.leb_le; lia. }
  rewrite Hb. cbn [bind]. unfold datetime_add.
  rewrite delta_to_microseconds_to_delta.
  assert (Hr : wall_in_range (wall NTP_EPOCH + (S * US_PER_SECOND + u)) = true).
  { rewrite NTP_EPOCH_wall. unfold wall_in_range, MAX_ORDINAL, US_PER_DAY, US_PER_SECOND.
    apply andb_true_iff. split; [apply Z.leb_le | apply Z.ltb_lt]; lia. }
  rewrite Hr. cbn [bind]. reflexivity.
Qed.

(** C1. For every instant at or after the NTP epoch whose seconds fit 32
    bits, [datetime_to_ntp_timestamp] followed by
    [ntp_timestamp_to_datetime] returns a UTC instant that is the same
    instant or the one a microsecond earlier. *)
Theorem codec_round_trip (dt : datetime) :
  in_era dt ->
  exists ts dt',
    datetime_to_ntp_timestamp dt = Ok ts
    /\ ntp_timestamp_to_datetime ts = Ok dt'
    /\ tzinfo dt' = utc
    /\ ntp_us dt - 1 <= ntp_us dt' <= ntp_us dt
    /\ Z.abs (utc_wall dt' - utc_wall dt) <= 1.
Proof.
  intros Hera. pose proof Hera as Hx. unfold in_era, US_PER_SECOND in Hx.
  set (x := ntp_us dt) in *.
  pose proof (Z.div_mod x 1000000 ltac:(lia)) as Hdm.
  pose proof (Z.mod_pos_bound x 1000000 ltac:(lia)) as Hu.
  assert (HS : 0 <= x / 1000000 < 2 ^ 32).
  { split; [apply Z.div_pos; lia | apply Z.div_lt_upper_bound; lia]. }
  pose proof (fraction_range (x mod 1000000) Hu) as HF.
  eexists. eexists.
  split; [apply datetime_to_ntp_timestamp_in_era; exact Hera|].
  fold x. split; [apply ntp_timestamp_to_datetime_fields; assumption|].
  split; [reflexivity|].
  set (u := x mod 1000000) in *. set (F := u * 2 ^ 32 / 1000000) in *.
  assert (Hu' : u - 1 <= F * 1000000 / 2 ^ 32 <= u).
  { pose proof (Z.div_mod (u * 2 ^ 32) 1000000 ltac:(lia)) as E1.
    pose proof (Z.mod_pos_bound (u * 2 ^ 32) 1000000 ltac:(lia)) as B1.
    fold F in E1. split.
    - apply Z.div_le_lower_bound; lia.
    - apply Z.lt_succ_r. apply Z.div_lt_upper_bound; lia. }
  assert (Hn : ntp_us {| wall := wall NTP_EPOCH + (x / 1000000 * 1000000 + F * 1000000 / 2 ^ 32);
                         tzinfo := utc |}
               = x / 1000000 * 1000000 + F * 1000000 / 2 ^ 32).
  { unfold ntp_us, utc_wall. cbn [wall tzinfo utc]. lia. }
  split; [rewrite Hn; lia|].
  assert (Hw : forall d, utc_wall d = ntp_us d + wall NTP_EPOCH) by (intros; unfold ntp_us; lia).
  rewrite !Hw, Hn. fold x. lia.
Qed.

Lemma codec_round_trip_witness :
  in_era (datetime_of 2024 1 15 10 30 0 1 utc)
  /\ exists ts dt',
      datetime_to_ntp_timestamp (datetime_of 2024 1 15 10 30 0 1 utc) = Ok ts
      /\ ntp_timestamp_to_datetime ts = Ok dt'
      /\ tzinfo dt' = utc
      /\ ntp_us (datetime_of 2024 1 15 10 30 0 1 utc) - 1 <= ntp_us dt'
         <= ntp_us (datetime_of 2024 1 15 10 30 0 1 utc)
      /\ Z.abs (utc_wall dt' - utc_wall (datetime_of 2024 1 15 10 30 0 1 utc)) <= 1.
Proof.
  assert (H : in_era (datetime_of 2024 1 15 10 30 0 1 utc))
    by (vm_compute; split; congruence).
  split; [exact H | apply (codec_round_trip _ H)].
Defined.

(** The two anchors of the epoch. *)
Example epoch_anchor : datetime_to_ntp_timestamp NTP_EPOCH = Ok 0.
Proof. vm_compute. reflexivity. Qed.

Example unix_epoch_anchor :
  datetime_to_ntp_timestamp UNIX_EPOCH = Ok (Z.shiftl 2208988800 32).
Proof. vm_compute. reflexivity. Qed.

(** * The fraction field and the time zones *)

Lemma seconds_defined x :
  - 2 ^ 62 < x < 2 ^ 62 ->
  exists s, (ts <- Float.truediv_int x 1000000 ;; Float.to_int ts) = Ok s.
Proof.
  intros Hx.
  assert (Hsig : forall sg (a : positive), Z.pos a < 2 ^ 62 ->
            exists s, (ts <- Float.truediv_int (signed sg a) 1000000 ;; Float.to_int ts) = Ok s).
  { intros sg a Ha.
    destruct (truediv_int_signed sg a 1000000) as (k & m & j & _ & _ & _ & _ & _ & ->).
    - change (Z.pos (digits2_pos 1000000)) with 20.
      apply digits_le; [unfold Float.prec; lia|].
      apply Z.lt_le_trans with (2 ^ 62); [exact Ha|].
      apply Z.pow_le_mono_r; unfold Float.prec; lia.
    - vm_compute. congruence.
    - cbn [bind]. rewrite to_int_finite. eexists. reflexivity. }
  destruct x as [|a|a].
  - exists 0. reflexivity.
  - apply (Hsig false a). lia.
  - apply (Hsig true a). lia.
Qed.

Lemma representable_range dt :
  representable dt -> - 2 ^ 62 < ntp_us dt < 2 ^ 62.
Proof.
  unfold representable, wall_in_range, ntp_us, MAX_ORDINAL, US_PER_DAY, US_PER_SECOND.
  rewrite NTP_EPOCH_wall. intros H. apply andb_true_iff in H. destruct H as [H1 H2].
  apply Z.leb_le in H1. apply Z.ltb_lt in H2. lia.
Qed.

(** On every representable instant the encoder returns, and the low 32
    bits of its result are the truncated scaled remainder. *)
Lemma datetime_to_ntp_timestamp_representable dt :
  representable dt ->
  exists s,
    datetime_to_ntp_timestamp dt
    = Ok (Z.lor (Z.shiftl s 32) (ntp_us dt mod 1000000 * 2 ^ 32 / 1000000)).
Proof.
  intros Hr. rewrite datetime_to_ntp_timestamp_eq.
  unfold representable in Hr. rewrite Hr.
  destruct (seconds_defined (ntp_us dt) (representable_range dt Hr)) as (s & ->).
  exists s. reflexivity.
Qed.

(** C7, as stated, fails: one microsecond after the epoch the scaled
    remainder is 4294.967296; the code stores 4294, rounding gives 4295. *)
Lemma fraction_encoding_counterexample :
  datetime_to_ntp_timestamp t_1900_1us = Ok 4294
  /\ fraction_rounded (ntp_us t_1900_1us mod 1000000) = Ok 4295
  /\ ~ (forall dt ts,
          datetime_to_ntp_timestamp dt = Ok ts ->
          fraction_rounded (ntp_us dt mod 1000000) = Ok (Z.land ts 0xFFFFFFFF)).
Proof.
  assert (H1 : datetime_to_ntp_timestamp t_1900_1us = Ok 4294) by (vm_compute; reflexivity).
  assert (H2 : fraction_rounded (ntp_us t_1900_1us mod 1000000) = Ok 4295)
    by (vm_compute; reflexivity).
  split; [exact H1|]. split; [exact H2|].
  intros H. specialize (H t_1900_1us 4294 H1). rewrite H2 in H. discriminate.
Qed.

(** C7, amended. For every representable instant the low 32 bits of
    [datetime_to_ntp_timestamp] are [int((microseconds / 1,000,000) * 2^32)],
    the scaled microsecond remainder truncated toward zero, which equals
    the exact quotient [microseconds * 2^32 / 1,000,000] rounded down and
    is below [2^32], so that no mask is needed. *)
Theorem fraction_encoding (dt : datetime) :
  representable dt ->
  exists ts,
    datetime_to_ntp_timestamp dt = Ok ts
    /\ fraction_truncated (ntp_us dt mod 1000000) = Ok (Z.land ts 0xFFFFFFFF)
    /\ Z.land ts 0xFFFFFFFF = ntp_us dt mod 1000000 * 2 ^ 32 / 1000000
    /\ 0 <= ntp_us dt mod 1000000 * 2 ^ 32 / 1000000 < 2 ^ 32.
Proof.
  intros Hr.
  destruct (datetime_to_ntp_timestamp_representable dt Hr) as (s & Hs).
  pose proof (Z.mod_pos_bound (ntp_us dt) 1000000 ltac:(lia)) as Hu.
  pose proof (fraction_range _ Hu) as HF.
  eexists. split; [exact Hs|].
  rewrite timestamp_low_bits by exact HF.
  split; [|split; [reflexivity | exact HF]].
  unfold fraction_truncated. apply fraction_of_microseconds. exact Hu.
Qed.

Lemma fraction_encoding_witness :
  representable t_1900_1us
  /\ exists ts,
      datetime_to_ntp_timestamp t_1900_1us = Ok ts
      /\ fraction_truncated (ntp_us t_1900_1us mod 1000000) = Ok (Z.land ts 0xFFFFFFFF)
      /\ Z.land ts 0xFFFFFFFF = ntp_us t_1900_1us mod 1000000 * 2 ^ 32 / 1000000
      /\ 0 <= ntp_us t_1900_1us mod 1000000 * 2 ^ 32 / 1000000 < 2 ^ 32.
Proof.
  assert (H : representable t_1900_1us) by (vm_compute; reflexivity).
  split; [exact H | apply (fraction_encoding t_1900_1us H)].
Defined.

(** C10. A naive datetime is encoded as the same datetime tagged UTC, and
    is encoded whenever it is representable; two aware datetimes that
    denote the same UTC instant are encoded alike. *)
Theorem codec_timezone_invariance (d d1 d2 : datetime) (o1 o2 : Z) :
  tzinfo d = None ->
  tzinfo d1 = Some o1 -> tzinfo d2 = Some o2 -> wall d1 - o1 = wall d2 - o2 ->
  datetime_to_ntp_timestamp d = datetime_to_ntp_timestamp (replace_tzinfo d utc)
  /\ (representable d -> exists ts, datetime_to_ntp_timestamp d = Ok ts)
  /\ datetime_to_ntp_timestamp d1 = datetime_to_ntp_timestamp d2.
Proof.
  intros Hn H1 H2 Heq. split; [|split].
  - unfold datetime_to_ntp_timestamp. rewrite Hn. reflexivity.
  - intros Hr. destruct (datetime_to_ntp_timestamp_representable d Hr) as (s & Hs).
    eexists. exact Hs.
  - rewrite !datetime_to_ntp_timestamp_eq. unfold ntp_us, utc_wall.
    rewrite H1, H2, Heq. reflexivity.
Qed.

Lemma codec_timezone_invariance_witness :
  tzinfo t_naive = None
  /\ tzinfo t_2024 = Some 0 /\ tzinfo t_plus2 = Some 7200000000
  /\ wall t_2024 - 0 = wall t_plus2 - 7200000000
  /\ datetime_to_ntp_timestamp t_naive
     = datetime_to_ntp_timestamp (replace_tzinfo t_naive utc)
  /\ datetime_to_ntp_timestamp t_2024 = datetime_to_ntp_timestamp t_plus2.
Proof.
  assert (Hn : tzinfo t_naive = None) by reflexivity.
  assert (H1 : tzinfo t_2024 = Some 0) by reflexivity.
  assert (H2 : tzinfo t_plus2 = Some 7200000000) by reflexivity.
  assert (He : wall t_2024 - 0 = wall t_plus2 - 7200000000) by reflexivity.
  destruct (codec_timezone_invariance t_naive t_2024 t_plus2 0 7200000000 Hn H1 H2 He)
    as (Ha & _ & Hb).
  repeat split; assumption.
Defined.

(** * Bytes *)

Lemma Z_of_byte_range b : 0 <= Z_of_byte b < 256.
Proof.
  unfold Z_of_byte. pose proof (Byte.to_N_bounded b). lia.
Qed.

Lemma byte_of_Z_low x b : byte_of_Z (x * 256 + Z_of_byte b) = b.
Proof.
  unfold byte_of_Z. pose proof (Z_of_byte_range b) as Hb.
  rewrite Z.add_comm, Z.mod_add by lia. rewrite Z.mod_small by exact Hb.
  unfold Z_of_byte. rewrite N2Z.id, Byte.of_to_N. reflexivity.
Qed.

Lemma be_bytes_length n v : List.length (be_bytes n v) = n.
Proof. induction n; cbn [be_bytes List.length]; congruence. Qed.

Lemma be_value_snoc bs b : be_value (bs ++ [b]) = be_value bs * 256 + Z_of_byte b.
Proof. unfold be_value. rewrite fold_left_app. reflexivity. Qed.

Lemma be_bytes_snoc n v :
  be_bytes (S n) v = be_bytes n (Z.shiftr v 8) ++ [byte_of_Z v].
Proof.
  induction n as [|n IH].
  - cbn [be_bytes app]. rewrite Z.mul_0_r, Z.shiftr_0_r. reflexivity.
  - change (be_bytes (S (S n)) v)
      with (byte_of_Z (Z.shiftr v (8 * Z.of_nat (S n))) :: be_bytes (S n) v).
    rewrite IH. cbn [be_bytes app]. f_equal. f_equal.
    rewrite Z.shiftr_shiftr by lia. f_equal. lia.
Qed.

Lemma be_value_range bs : 0 <= be_value bs < 2 ^ (8 * Z.of_nat (List.length bs)).
Proof.
  induction bs as [|b bs IH] using rev_ind.
  - cbn. lia.
  - rewrite be_value_snoc, length_app. cbn [List.length].
    replace (8 * Z.of_nat (List.length bs + 1)) with (8 * Z.of_nat (List.length bs) + 8) by lia.
    rewrite Z.pow_add_r by lia. change (2 ^ 8) with 256.
    pose proof (Z_of_byte_range b). nia.
Qed.

(** Packing the integer read from a byte string gives the bytes back. *)
Lemma be_bytes_be_value bs : be_bytes (List.length bs) (be_value bs) = bs.
Proof.
  induction bs as [|b bs IH] using rev_ind.
  - reflexivity.
  - rewrite length_app. cbn [List.length]. rewrite Nat.add_1_r.
    rewrite be_bytes_snoc, be_value_snoc, byte_of_Z_low. f_equal.
    rewrite Z.shiftr_div_pow2 by lia. change (2 ^ 8) with 256.
    pose proof (Z_of_byte_range b).
    rewrite Z.div_add_l by lia. rewrite Z.div_small by lia. rewrite Z.add_0_r.
    exact IH.
Qed.

Lemma slice_length a b (data : list byte) :
  (b <= List.length data)%nat -> List.length (slice a b data) = (b - a)%nat.
Proof.
  intros H. unfold slice. rewrite length_firstn, length_skipn. lia.
Qed.

(** * The request decoder *)

Lemma parse_ntp_request_traced_short data :
  (List.length data < 48)%nat ->
  parse_ntp_request_traced data = Ok (ReturnTooShort, None).
Proof.
  intros H. unfold parse_ntp_request_traced.
  apply Nat.ltb_lt in H. rewrite H. reflexivity.
Qed.

Lemma parse_ntp_request_traced_long data :
  (48 <= List.length data)%nat ->
  parse_ntp_request_traced data
  = Ok (ReturnOrigin, Some (be_value (slice 24 32 data))).
Proof.
  intros H. unfold parse_ntp_request_traced.
  assert (Hlt : (List.length data <? 48)%nat = false) by (apply Nat.ltb_ge; exact H).
  rewrite Hlt. unfold unpack_Q. rewrite slice_length by lia. reflexivity.
Qed.

(** C4. A buffer of 47 bytes or fewer is rejected; a buffer of exactly 48
    bytes is accepted whatever it holds, and the value returned is the
    big-endian integer at offsets 24 to 31. *)
Theorem rejection_boundary (data : list byte) :
  ((List.length data <= 47)%nat -> parse_ntp_request data = Ok None)
  /\ (List.length data = 48%nat ->
      parse_ntp_request data = Ok (Some (be_value (slice 24 32 data)))).
Proof.
  unfold parse_ntp_request. split; intros H.
  - rewrite parse_ntp_request_traced_short by lia. reflexivity.
  - rewrite parse_ntp_request_traced_long by lia. reflexivity.
Qed.

Lemma rejection_boundary_witness :
  ((List.length (repeat xff 47) <= 47)%nat
   /\ parse_ntp_request (repeat xff 47) = Ok None)
  /\ (List.length sample_request = 48%nat
      /\ parse_ntp_request sample_request
         = Ok (Some (be_value (slice 24 32 sample_request)))).
Proof.
  assert (H47 : (List.length (repeat xff 47) <= 47)%nat) by (vm_compute; lia).
  assert (H48 : List.length sample_request = 48%nat) by reflexivity.
  split; split.
  - exact H47.
  - exact (proj1 (rejection_boundary (repeat xff 47)) H47).
  - exact H48.
  - exact (proj2 (rejection_boundary sample_request) H48).
Defined.

(** C9. [parse_ntp_request] returns on every input and never raises: a
    call ends at line 126 with [None] when the input is shorter than 48
    bytes, and otherwise the slice has 8 bytes and the call ends at line
    133 with the value unpacked; the handler of line 136 is never reached.
    So [None] is returned exactly for the inputs shorter than 48 bytes. *)
Theorem decoder_total (data : list byte) :
  (((List.length data < 48)%nat
    /\ parse_ntp_request_traced data = Ok (ReturnTooShort, None))
   \/ ((48 <= List.length data)%nat
       /\ List.length (slice 24 32 data) = 8%nat
       /\ parse_ntp_request_traced data
          = Ok (ReturnOrigin, Some (be_value (slice 24 32 data)))))
  /\ (exists r, parse_ntp_request data = Ok r)
  /\ (forall r, parse_ntp_request_traced data <> Ok (ReturnStructError, r))
  /\ (parse_ntp_request data = Ok None <-> (List.length data < 48)%nat).
Proof.
  unfold parse_ntp_request.
  destruct (Nat.lt_ge_cases (List.length data) 48) as [Hs | Hl].
  - rewrite (parse_ntp_request_traced_short data Hs). cbn [bind snd].
    split; [left; split; [exact Hs | reflexivity]|].
    split; [exists None; reflexivity|].
    split; [discriminate|].
    split; intros _; [exact Hs | reflexivity].
  - rewrite (parse_ntp_request_traced_long data Hl). cbn [bind snd].
    split; [right; split; [exact Hl | split; [apply slice_length; lia | reflexivity]]|].
    split; [eexists; reflexivity|].
    split; [discriminate|].
    split; [discriminate | lia].
Qed.

Lemma decoder_total_witness :
  parse_ntp_request sample_request = Ok None
  <-> (List.length sample_request < 48)%nat.
Proof. exact (proj2 (proj2 (proj2 (decoder_total sample_request)))). Defined.

(** * The response encoder *)

Lemma root_delay_value :
  Float.to_int (Float.mul Float.lit_0_001 (Float.of_int (Z.shiftl 1 16))) = Ok 65.
Proof. vm_compute. reflexivity. Qed.

Lemma pack_unsigned_8 v :
  pack_unsigned 8 v = if u64 v then Ok (be_bytes 8 v) else Raise StructError.
Proof. reflexivity. Qed.

Lemma build_ntp_response_eq origin_time receive_time transmit_time :
  build_ntp_response origin_time receive_time transmit_time
  = receive_ntp <- datetime_to_ntp_timestamp receive_time ;;
    transmit_ntp <- datetime_to_ntp_timestamp transmit_time ;;
    if u64 transmit_ntp && u64 origin_time && u64 receive_ntp
    then Ok (header ++ be_bytes 8 transmit_ntp ++ be_bytes 8 origin_time
               ++ be_bytes 8 receive_ntp ++ be_bytes 8 transmit_ntp)
    else Raise StructError.
Proof.
  unfold build_ntp_response.
  destruct (datetime_to_ntp_timestamp receive_time) as [rn|e]; [|reflexivity].
  destruct (datetime_to_ntp_timestamp transmit_time) as [tn|e]; [|reflexivity].
  cbn [bind]. rewrite root_delay_value. cbn [bind].
  change (pack_BBB (Z.lor (Z.lor (Z.shiftl 0 6) (Z.shiftl 4 3)) 4) 2 1)
    with (Ok [x24; x02; x01]).
  change (pack_b (-20)) with (Ok [xec]).
  change (pack_unsigned 4 65) with (Ok [x00; x00; x00; x41]).
  change (list_byte_of_string "LOCL") with [x4c; x4f; x43; x4c].
  cbn [bind]. rewrite !pack_unsigned_8.
  destruct (u64 tn); [|reflexivity].
  destruct (u64 origin_time); [|reflexivity].
  destruct (u64 rn); reflexivity.
Qed.

(** Where the four timestamps sit in a response. *)
Lemma response_layout tn o rn :
  let pkt := header ++ be_bytes 8 tn ++ be_bytes 8 o ++ be_bytes 8 rn ++ be_bytes 8 tn in
  List.length pkt = 48%nat
  /\ nth_error pkt 0 = Some (byte_of_Z 0x24)
  /\ nth_error pkt 1 = Some (byte_of_Z 2)
  /\ slice 12 16 pkt = list_byte_of_string "LOCL"
  /\ slice 24 32 pkt = be_bytes 8 o
  /\ slice 32 40 pkt = be_bytes 8 rn
  /\ slice 40 48 pkt = be_bytes 8 tn.
Proof.
  cbv zeta. repeat split.
Qed.

(** Whenever the encoder returns, it returns this packet. *)
Lemma build_ntp_response_ok origin_time receive_time transmit_time pkt :
  build_ntp_response origin_time receive_time transmit_time = Ok pkt ->
  exists rn tn,
    datetime_to_ntp_timestamp receive_time = Ok rn
    /\ datetime_to_ntp_timestamp transmit_time = Ok tn
    /\ pkt = header ++ be_bytes 8 tn ++ be_bytes 8 origin_time
               ++ be_bytes 8 rn ++ be_bytes 8 tn.
Proof.
  rewrite build_ntp_response_eq.
  destruct (datetime_to_ntp_timestamp receive_time) as [rn|e]; [|discriminate].
  destruct (datetime_to_ntp_timestamp transmit_time) as [tn|e]; [|discriminate].
  cbn [bind].
  destruct (u64 tn && u64 origin_time && u64 rn); [|discriminate].
  intros H. injection H as <-. exists rn, tn. auto.
Qed.

Lemma in_era_timestamp dt :
  in_era dt ->
  exists v, datetime_to_ntp_timestamp dt = Ok v /\ u64 v = true.
Proof.
  intros Hera. rewrite datetime_to_ntp_timestamp_in_era by exact Hera.
  eexists. split; [reflexivity|].
  unfold in_era, US_PER_SECOND in Hera.
  pose proof (Z.mod_pos_bound (ntp_us dt) 1000000 ltac:(lia)) as Hu.
  pose proof (fraction_range _ Hu) as HF.
  assert (HS : 0 <= ntp_us dt / 1000000 < 2 ^ 32).
  { split; [apply Z.div_pos; lia | apply Z.div_lt_upper_bound; lia]. }
  rewrite lor_shiftl_add by lia.
  unfold u64. apply andb_true_iff. split; [apply Z.leb_le | apply Z.ltb_lt].
  - nia.
  - change (2 ^ 64) with (2 ^ 32 * 2 ^ 32). nia.
Qed.

(** The encoder returns on three arguments in range. *)
Lemma build_ntp_response_in_era origin_time receive_time transmit_time :
  u64 origin_time = true -> in_era receive_time -> in_era transmit_time ->
  exists rn tn,
    build_ntp_response origin_time receive_time transmit_time
    = Ok (header ++ be_bytes 8 tn ++ be_bytes 8 origin_time
            ++ be_bytes 8 rn ++ be_bytes 8 tn).
Proof.
  intros Ho Hr Ht.
  destruct (in_era_timestamp _ Hr) as (rn & Ern & Urn).
  destruct (in_era_timestamp _ Ht) as (tn & Etn & Utn).
  exists rn, tn. rewrite build_ntp_response_eq, Ern, Etn. cbn [bind].
  rewrite Utn, Ho, Urn. reflexivity.
Qed.

Lemma be_value_u64 bs : List.length bs = 8%nat -> u64 (be_value bs) = true.
Proof.
  intros H. pose proof (be_value_range bs) as R. rewrite H in R.
  change (2 ^ (8 * Z.of_nat 8)) with (2 ^ 64) in R.
  unfold u64. apply andb_true_iff. split; [apply Z.leb_le | apply Z.ltb_lt]; lia.
Qed.

(** C2. A request of at least 48 bytes with the bytes [B] at offsets 24 to
    31 decodes to [B] read as a big-endian unsigned integer; every response
    built from that value holds [B] at its offsets 24 to 31, and a response
    is built whenever the two instants lie in the first NTP era. *)
Theorem origin_echo (data : list byte) :
  (48 <= List.length data)%nat ->
  let B := slice 24 32 data in
  parse_ntp_request data = Ok (Some (be_value B))
  /\ (forall receive_time transmit_time pkt,
        build_ntp_response (be_value B) receive_time transmit_time = Ok pkt ->
        slice 24 32 pkt = B)
  /\ (forall receive_time transmit_time,
        in_era receive_time -> in_era transmit_time ->
        exists pkt,
          build_ntp_response (be_value B) receive_time transmit_time = Ok pkt
          /\ slice 24 32 pkt = B).
Proof.
  intros Hlen B.
  assert (HB : List.length B = 8%nat) by (apply slice_length; lia).
  assert (Hecho : be_bytes 8 (be_value B) = B).
  { rewrite <- HB at 1. apply be_bytes_be_value. }
  split; [|split].
  - unfold parse_ntp_request. rewrite parse_ntp_request_traced_long by exact Hlen.
    reflexivity.
  - intros rt tt pkt Hb.
    destruct (build_ntp_response_ok _ _ _ _ Hb) as (rn & tn & _ & _ & ->).
    destruct (response_layout tn (be_value B) rn) as (_ & _ & _ & _ & Ho & _).
    rewrite Ho. exact Hecho.
  - intros rt tt Hr Ht.
    destruct (build_ntp_response_in_era (be_value B) rt tt (be_value_u64 B HB) Hr Ht)
      as (rn & tn & Hb).
    eexists. split; [exact Hb|].
    destruct (response_layout tn (be_value B) rn) as (_ & _ & _ & _ & Ho & _).
    rewrite Ho. exact Hecho.
Qed.

Lemma origin_echo_witness :
  (48 <= List.length sample_request)%nat
  /\ parse_ntp_request sample_request = Ok (Some 0x0102030405060708)
  /\ (forall receive_time transmit_time pkt,
        build_ntp_response (be_value (slice 24 32 sample_request))
          receive_time transmit_time = Ok pkt ->
        slice 24 32 pkt = [x01; x02; x03; x04; x05; x06; x07; x08]).
Proof.
  assert (H : (48 <= List.length sample_request)%nat) by (vm_compute; lia).
  split; [exact H|].
  destruct (origin_echo sample_request H) as (Hp & He & _).
  split; [exact Hp | exact He].
Defined.

(** * The custom-time parser *)

(** C8, as stated, fails: the text "0001-01-01T00:00:00+01:00" is read by
    [fromisoformat], but its UTC value lies before year 1, [astimezone]
    raises [OverflowError], which line 80 does not catch: an error is
    raised for a text that parses as ISO 8601. *)
Lemma custom_time_counterexample :
  is_empty text_year_1 = false
  /\ parse_custom_time rt_two_texts text_year_1 = Raise OverflowError
  /\ parses_as_iso rt_two_texts text_year_1
  /\ ~ (raises (parse_custom_time rt_two_texts text_year_1)
        <-> ~ parses_as_unix_timestamp rt_two_texts text_year_1
            /\ ~ parses_as_iso rt_two_texts text_year_1
            /\ ~ parses_as_naive_format rt_two_texts text_year_1).
Proof.
  assert (Hp : parse_custom_time rt_two_texts text_year_1 = Raise OverflowError)
    by (vm_compute; reflexivity).
  assert (Hi : parses_as_iso rt_two_texts text_year_1)
    by (eexists; vm_compute; reflexivity).
  split; [reflexivity|]. split; [exact Hp|]. split; [exact Hi|].
  intros [H _].
  assert (Hr : raises (parse_custom_time rt_two_texts text_year_1))
    by (exists OverflowError; exact Hp).
  destruct (H Hr) as (_ & Hn & _). exact (Hn Hi).
Qed.

Section CustomTime.

(** The parsers of the runtime, whatever they answer. *)
Variable rt : runtime.


Lemma try_formats_ValueError s fmts :
  try_formats rt s fmts = Raise ValueError
  <-> (forall fmt, In fmt fmts -> strptime rt s fmt = Raise ValueError).
Proof.
  induction fmts as [|fmt rest IH]; cbn [try_formats].
  - split; [intros _ f []| reflexivity].
  - destruct (strptime rt s fmt) as [dt|e] eqn:E.
    + split; [discriminate|]. intros H.
      specialize (H fmt (or_introl eq_refl)). congruence.
    + destruct e; try (split; [discriminate | intros H;
        specialize (H fmt (or_introl eq_refl)); congruence]).
      rewrite IH. split.
      * intros H f [<- | Hin]; [exact E | apply H; exact Hin].
      * intros H f Hin. apply H. right. exact Hin.
Qed.

Lemma parse_custom_time_raises s e :
  is_empty s = false ->
  parse_custom_time rt s = Raise e
  <-> (e = ValueError /\ all_attempts_fail rt s) \/ uncaught_error rt s e.
Proof.
  intros Hne. unfold parse_custom_time, all_attempts_fail, uncaught_error,
    unix_attempt_caught.
  rewrite Hne, <- try_formats_ValueError.
  destruct (try_unix_timestamp rt s) as [dt1|e1]; [|destruct e1];
    (destruct (try_iso rt s) as [dt2|e2]; [|destruct e2]);
    (destruct (try_formats rt s formats) as [dt3|e3]; [|destruct e3]);
    cbn [bind];
    (split;
     [ intros H; try discriminate H; injection H as <-; pick_disjunct
     | intros H; intuition (try discriminate; try congruence) ]).
Qed.

Lemma parse_custom_time_returns s r :
  is_empty s = false -> parse_custom_time rt s = Ok r -> exists dt, r = Some dt.
Proof.
  intros Hne. unfold parse_custom_time. rewrite Hne.
  destruct (try_unix_timestamp rt s) as [dt1|e1]; [|destruct e1];
    (destruct (try_iso rt s) as [dt2|e2]; [|destruct e2]);
    (destruct (try_formats rt s formats) as [dt3|e3]);
    cbn [bind]; intros H; try discriminate H; injection H as <-; eauto.
Qed.

Lemma startup_raises cli env now tr e :
  parse_custom_time rt (if truthy cli then text_of cli else text_of env) = Raise e ->
  truthy cli || truthy env = true ->
  startup rt cli env now tr = Raise e.
Proof.
  intros Hp Ht. unfold startup, get_custom_time.
  destruct (truthy cli); [rewrite Hp; reflexivity|].
  cbn [orb] in Ht. rewrite Ht, Hp. reflexivity.
Qed.

(** C8, amended. On a non-empty text [parse_custom_time] returns a
    datetime or raises.  It raises [ValueError] exactly when every attempt
    fails with an exception that its handler catches: the Unix-timestamp
    attempt with [ValueError] or [OSError], the ISO 8601 attempt with
    [ValueError], each of the four formats with [ValueError].  Any other
    exception raised by an attempt that is reached goes through at once.
    When a custom time text is supplied at startup (argument first, then
    environment), every exception of [parse_custom_time] ends the startup:
    the system time is not used instead. *)
Theorem custom_time_fatal
    (s : string) (e : exn)
    (cli env : option string) (now : datetime) (tr : spec_float) :
  is_empty s = false ->
  (parse_custom_time rt s = Raise e
   <-> (e = ValueError /\ all_attempts_fail rt s) \/ uncaught_error rt s e)
  /\ (forall r, parse_custom_time rt s = Ok r -> exists dt, r = Some dt)
  /\ (truthy cli || truthy env = true ->
      parse_custom_time rt (if truthy cli then text_of cli else text_of env)
      = Raise e ->
      startup rt cli env now tr = Raise e).
Proof.
  intros Hne. split; [|split].
  - apply parse_custom_time_raises. exact Hne.
  - intros r. apply parse_custom_time_returns. exact Hne.
  - intros Ht Hp. apply startup_raises; assumption.
Qed.

End CustomTime.

Lemma custom_time_fatal_witness :
  is_empty text_year_1 = false
  /\ uncaught_error rt_two_texts text_year_1 OverflowError
  /\ startup rt_two_texts (Some text_year_1) None t_2024 (Float.of_int 0)
     = Raise OverflowError.
Proof.
  assert (Hne : is_empty text_year_1 = false) by reflexivity.
  destruct (custom_time_fatal rt_two_texts text_year_1 OverflowError
              (Some text_year_1) None t_2024 (Float.of_int 0) Hne)
    as (Hr & _ & Hs).
  assert (Hp : parse_custom_time rt_two_texts text_year_1 = Raise OverflowError)
    by (vm_compute; reflexivity).
  split; [exact Hne|]. split.
  - destruct (proj1 Hr Hp) as [(Hv & _) | Hu]; [discriminate Hv | exact Hu].
  - apply Hs; [reflexivity | exact Hp].
Defined.

(** * The serving loop *)

Lemma serve_datagram_accepted st data now tr origin :
  parse_ntp_request data = Ok (Some origin) ->
  serve_datagram st data now tr
  = transmit_time <- transmit_time_of st now tr ;;
    response <- build_ntp_response origin now transmit_time ;;
    Ok (Some response).
Proof. intros H. unfold serve_datagram. rewrite H. reflexivity. Qed.

(** C6, as stated, fails: with the receive instant read 5 s after the
    start and [time.time()] read 7 s after the start, the transmit instant
    is base + 7 s, not base + 5 s: line 258 reads the clock again. *)
Lemma orchestrator_sampling_counterexample :
  parse_ntp_request sample_request = Ok (Some 0x0102030405060708)
  /\ transmit_time_of st_custom t_2024_5s reading_7s = Ok t_2024_7s
  /\ (real_now <- timestamp t_2024_5s ;;
      transmit_time_of st_custom t_2024_5s real_now) = Ok t_2024_5s
  /\ serve_datagram st_custom sample_request t_2024_5s reading_7s
     <> serve_datagram_spec st_custom sample_request t_2024_5s.
Proof.
  split; [vm_compute; reflexivity|].
  split; [vm_compute; reflexivity|].
  split; [vm_compute; reflexivity|].
  vm_compute. intros H. discriminate H.
Qed.

(** C6, amended. For every accepted datagram the receive instant is the
    reading of [datetime.now] and the response is built from it and from
    the transmit instant.  With a custom base the transmit instant is
    base + timedelta(seconds = t - server_start_time), where [t] is a
    second reading of the clock, taken by [time.time()] after the receive
    instant was captured: it does not depend on the receive instant.
    Without a custom base the transmit instant is the receive instant. *)
Theorem orchestrator_sampling
    (st : server_state) (data : list byte) (now : datetime)
    (tr : spec_float) (origin : Z) :
  parse_ntp_request data = Ok (Some origin) ->
  serve_datagram st data now tr
  = (transmit_time <- transmit_time_of st now tr ;;
     response <- build_ntp_response origin now transmit_time ;;
     Ok (Some response))
  /\ (use_custom_time st = true ->
      transmit_time_of st now tr
      = (td <- timedelta_of_seconds (Float.sub tr (server_start_time st)) ;;
         match base_time st with
         | Some base => datetime_add base td
         | None => Raise TypeError
         end)
      /\ forall now', transmit_time_of st now' tr = transmit_time_of st now tr)
  /\ (use_custom_time st = false -> transmit_time_of st now tr = Ok now)
  /\ (forall pkt,
        serve_datagram st data now tr = Ok (Some pkt) ->
        exists transmit_time rn tn,
          transmit_time_of st now tr = Ok transmit_time
          /\ datetime_to_ntp_timestamp now = Ok rn
          /\ datetime_to_ntp_timestamp transmit_time = Ok tn
          /\ slice 32 40 pkt = be_bytes 8 rn
          /\ slice 40 48 pkt = be_bytes 8 tn).
Proof.
  intros Hp. split; [apply serve_datagram_accepted; exact Hp|].
  split; [|split].
  - intros Hc. unfold transmit_time_of. rewrite Hc. auto.
  - intros Hc. unfold transmit_time_of. rewrite Hc. reflexivity.
  - intros pkt. rewrite (serve_datagram_accepted _ _ _ _ _ Hp).
    destruct (transmit_time_of st now tr) as [tt|e]; [|discriminate].
    cbn [bind].
    destruct (build_ntp_response origin now tt) as [resp|e] eqn:Hb; [|discriminate].
    cbn [bind]. intros H. injection H as <-.
    destruct (build_ntp_response_ok _ _ _ _ Hb) as (rn & tn & Hrn & Htn & ->).
    destruct (response_layout tn origin rn) as (_ & _ & _ & _ & _ & Hr & Ht).
    exists tt, rn, tn. auto.
Qed.

Lemma orchestrator_sampling_witness :
  parse_ntp_request sample_request = Ok (Some 0x0102030405060708)
  /\ serve_datagram st_custom sample_request t_2024_5s reading_7s
     = (transmit_time <- transmit_time_of st_custom t_2024_5s reading_7s ;;
        response <- build_ntp_response 0x0102030405060708 t_2024_5s transmit_time ;;
        Ok (Some response)).
Proof.
  assert (H : parse_ntp_request sample_request = Ok (Some 0x0102030405060708))
    by (vm_compute; reflexivity).
  split; [exact H|].
  exact (proj1 (orchestrator_sampling st_custom sample_request t_2024_5s reading_7s _ H)).
Defined.

(** * The virtual clock *)

Lemma timedelta_of_seconds_ok x td :
  timedelta_of_seconds x = Ok td ->
  exists us, microseconds_of_seconds x = Ok us /\ delta_to_microseconds td = us.
Proof.
  unfold timedelta_of_seconds.
  destruct (microseconds_of_seconds x) as [us|e]; [|discriminate].
  cbn [bind].
  destruct ((- MAX_DELTA_DAYS <=? days (microseconds_to_delta us))
            && (days (microseconds_to_delta us) <=? MAX_DELTA_DAYS)); [|discriminate].
  intros H. injection H as <-. exists us. split; [reflexivity|].
  apply delta_to_microseconds_to_delta.
Qed.

Lemma datetime_add_ok dt d t :
  datetime_add dt d = Ok t ->
  wall t = wall dt + delta_to_microseconds d /\ tzinfo t = tzinfo dt.
Proof.
  unfold datetime_add.
  destruct (wall_in_range (wall dt + delta_to_microseconds d)); [|discriminate].
  intros H. injection H as <-. split; reflexivity.
Qed.

(** With a custom base, the transmit instant is the base moved by the
    rounded elapsed time. *)
Lemma transmit_time_of_custom st base now r t :
  use_custom_time st = true -> base_time st = Some base ->
  transmit_time_of st now r = Ok t ->
  exists us,
    microseconds_of_seconds (Float.sub r (server_start_time st)) = Ok us
    /\ utc_wall t = utc_wall base + us.
Proof.
  intros Hc Hb. unfold transmit_time_of. rewrite Hc, Hb.
  destruct (timedelta_of_seconds (Float.sub r (server_start_time st))) as [td|e] eqn:Ht;
    [|discriminate].
  cbn [bind]. intros Ha.
  destruct (timedelta_of_seconds_ok _ _ Ht) as (us & Hus & Hd).
  destruct (datetime_add_ok _ _ _ Ha) as (Hw & Htz).
  exists us. split; [exact Hus|].
  unfold utc_wall. rewrite Hw, Htz, Hd. lia.
Qed.

(** C5, as stated, fails: two readings [2^-22] s apart (0.238 microsecond,
    one unit in the last place of a present-day [time.time()]) give the
    same transmit instant, the elapsed time being rounded to a whole
    number of microseconds. *)
Lemma virtual_clock_counterexample :
  use_custom_time st_custom = true
  /\ SFltb (server_start_time st_custom) reading_next = true
  /\ transmit_time_of st_custom t_2024 (server_start_time st_custom) = Ok t_2024
  /\ transmit_time_of st_custom t_2024 reading_next = Ok t_2024
  /\ ~ lockstep st_custom (server_start_time st_custom) reading_next.
Proof.
  assert (H1 : transmit_time_of st_custom t_2024 (server_start_time st_custom) = Ok t_2024)
    by (vm_compute; reflexivity).
  assert (H2 : transmit_time_of st_custom t_2024 reading_next = Ok t_2024)
    by (vm_compute; reflexivity).
  split; [reflexivity|]. split; [vm_compute; reflexivity|].
  split; [exact H1|]. split; [exact H2|].
  intros H. specialize (H t_2024 t_2024 t_2024 H1 H2).
  vm_compute in H. discriminate H.
Qed.

Local Open Scope Q_scope.

Lemma to_Q_scaled s (mz d : positive) ez e :
  (ez <= e)%Z -> (Z.pos mz = Z.pos d * 2 ^ (e - ez))%Z ->
  to_Q (S754_finite s mz ez) == inject_Z (cond_Zopp s (Z.pos d)) * Qpower (2 # 1) e.
Proof.
  intros Hle Hm. unfold to_Q.
  assert (Hs : cond_Zopp s (Z.pos mz) = (cond_Zopp s (Z.pos d) * 2 ^ (e - ez))%Z)
    by (rewrite Hm; destruct s; cbn [cond_Zopp]; lia).
  rewrite Hs, inject_Z_mult, (Zpower_Qpower 2 (e - ez)) by lia.
  change (inject_Z 2) with (2 # 1).
  rewrite <- Qmult_assoc, <- Qpower_plus by discriminate.
  replace (e - ez + ez)%Z with e by lia. reflexivity.
Qed.

(** The difference of two doubles of the same exponent is exact. *)
Lemma sub_same_exponent (m1 m2 : positive) e :
  (Z.pos m1 < 2 ^ Float.prec)%Z -> (Z.pos m2 < 2 ^ Float.prec)%Z ->
  (emin Float.prec Float.emax <= e <= Float.emax - Float.prec - 1)%Z ->
  to_Q (Float.sub (S754_finite false m1 e) (S754_finite false m2 e))
  == to_Q (S754_finite false m1 e) - to_Q (S754_finite false m2 e).
Proof.
  intros H1 H2 He. unfold Float.sub, SFsub.
  rewrite Z.min_id. unfold shl_align. rewrite Z.sub_diag. cbn [fst cond_Zopp].
  assert (Hrhs : to_Q (S754_finite false m1 e) - to_Q (S754_finite false m2 e)
                 == inject_Z (Z.pos m1 - Z.pos m2) * Qpower (2 # 1) e).
  { unfold to_Q, Z.sub. cbn [cond_Zopp]. rewrite inject_Z_plus, inject_Z_opp. ring. }
  rewrite Hrhs.
  destruct (Z.pos m1 - Z.pos m2)%Z as [|d|d] eqn:Ed; cbn [binary_normalize].
  - cbn [to_Q]. ring.
  - destruct (binary_round_exact false d e ltac:(lia) He) as (mz & ez & -> & Hle & Hm).
    rewrite (to_Q_scaled false mz d ez e Hle Hm). reflexivity.
  - destruct (binary_round_exact true d e ltac:(lia) He) as (mz & ez & -> & Hle & Hm).
    rewrite (to_Q_scaled true mz d ez e Hle Hm). reflexivity.
Qed.

Lemma sub_same_binade x y :
  same_binade x y -> to_Q (Float.sub x y) == to_Q x - to_Q y.
Proof.
  intros (mx & my & e & -> & -> & Hx & Hy & He).
  apply sub_same_exponent; assumption.
Qed.

(** C5, amended. With a custom base, the transmit instant for a reading
    [r] of [time.time()] is the base moved by the elapsed time
    [r - server_start_time], computed in double precision and rounded to a
    whole number of microseconds (nearest, ties to even) by [timedelta].
    So for two readings the transmit instants differ by the difference of
    the two rounded elapsed times; that difference is within
    [2 * (1/2 + 2^-34)] microsecond of the difference of the elapsed
    times, and need not be equal to it.  When the readings lie in the
    binade of the start reading the elapsed times are exact, and the
    transmit instants differ from [r2 - r1] by at most that much. *)
Theorem virtual_clock_lockstep
    (st : server_state) (base : datetime) (now : datetime)
    (r1 r2 : spec_float) (t1 t2 : datetime) :
  use_custom_time st = true -> base_time st = Some base ->
  transmit_time_of st now r1 = Ok t1 ->
  transmit_time_of st now r2 = Ok t2 ->
  exists us1 us2,
    microseconds_of_seconds (Float.sub r1 (server_start_time st)) = Ok us1
    /\ microseconds_of_seconds (Float.sub r2 (server_start_time st)) = Ok us2
    /\ utc_wall t1 = (utc_wall base + us1)%Z
    /\ utc_wall t2 = (utc_wall base + us2)%Z
    /\ (utc_wall t2 - utc_wall t1 = us2 - us1)%Z
    /\ Qabs (inject_Z (utc_wall t2 - utc_wall t1)
             - inject_Z US_PER_SECOND
               * (to_Q (Float.sub r2 (server_start_time st))
                  - to_Q (Float.sub r1 (server_start_time st))))
       <= 2 * us_error_bound
    /\ (same_binade r1 (server_start_time st) ->
        same_binade r2 (server_start_time st) ->
        Qabs (inject_Z (utc_wall t2 - utc_wall t1)
              - inject_Z US_PER_SECOND * (to_Q r2 - to_Q r1))
        <= 2 * us_error_bound).
Proof.
  intros Hc Hb H1 H2.
  destruct (transmit_time_of_custom st base now r1 t1 Hc Hb H1) as (us1 & Hu1 & Hw1).
  destruct (transmit_time_of_custom st base now r2 t2 Hc Hb H2) as (us2 & Hu2 & Hw2).
  exists us1, us2.
  split; [exact Hu1|]. split; [exact Hu2|]. split; [exact Hw1|]. split; [exact Hw2|].
  assert (Hd : (utc_wall t2 - utc_wall t1 = us2 - us1)%Z) by lia.
  split; [exact Hd|]. rewrite Hd.
  pose proof (microseconds_of_seconds_bound _ _ Hu1) as B1.
  pose proof (microseconds_of_seconds_bound _ _ Hu2) as B2.
  set (e1 := to_Q (Float.sub r1 (server_start_time st))) in *.
  set (e2 := to_Q (Float.sub r2 (server_start_time st))) in *.
  set (c := inject_Z US_PER_SECOND) in *.
  assert (E : inject_Z (us2 - us1) - c * (e2 - e1)
              == (inject_Z us2 - c * e2) + - (inject_Z us1 - c * e1)).
  { unfold Z.sub. rewrite inject_Z_plus, inject_Z_opp. ring. }
  assert (Hbound : Qabs (inject_Z (us2 - us1) - c * (e2 - e1)) <= 2 * us_error_bound).
  { rewrite E.
    eapply Qle_trans; [apply Qabs_triangle|].
    rewrite Qabs_opp.
    setoid_replace (2 * us_error_bound) with (us_error_bound + us_error_bound) by ring.
    apply Qplus_le_compat; assumption. }
  split; [exact Hbound|].
  intros S1 S2.
  assert (Ee : to_Q r2 - to_Q r1 == e2 - e1).
  { unfold e1, e2. rewrite (sub_same_binade _ _ S1), (sub_same_binade _ _ S2). ring. }
  rewrite Ee. exact Hbound.
Qed.

Example readings_same_binade :
  same_binade reading_next (server_start_time st_custom)
  /\ same_binade reading_7s (server_start_time st_custom).
Proof.
  split.
  - exists 7152607848038401%positive, 7152607848038400%positive, (-22)%Z.
    repeat split; reflexivity || (vm_compute; congruence).
  - exists 7152607877398528%positive, 7152607848038400%positive, (-22)%Z.
    repeat split; reflexivity || (vm_compute; congruence).
Qed.

Lemma virtual_clock_lockstep_witness :
  use_custom_time st_custom = true /\ base_time st_custom = Some t_2024
  /\ transmit_time_of st_custom t_2024_5s reading_next = Ok t_2024
  /\ transmit_time_of st_custom t_2024_5s reading_7s = Ok t_2024_7s
  /\ exists us1 us2,
      microseconds_of_seconds (Float.sub reading_next (server_start_time st_custom)) = Ok us1
      /\ microseconds_of_seconds (Float.sub reading_7s (server_start_time st_custom)) = Ok us2
      /\ (utc_wall t_2024_7s - utc_wall t_2024 = us2 - us1)%Z.
Proof.
  assert (Hc : use_custom_time st_custom = true) by reflexivity.
  assert (Hb : base_time st_custom = Some t_2024) by reflexivity.
  assert (H1 : transmit_time_of st_custom t_2024_5s reading_next = Ok t_2024)
    by (vm_compute; reflexivity).
  assert (H2 : transmit_time_of st_custom t_2024_5s reading_7s = Ok t_2024_7s)
    by (vm_compute; reflexivity).
  split; [exact Hc|]. split; [exact Hb|]. split; [exact H1|]. split; [exact H2|].
  destruct (virtual_clock_lockstep st_custom t_2024 t_2024_5s reading_next reading_7s
              t_2024 t_2024_7s Hc Hb H1 H2)
    as (us1 & us2 & Hu1 & Hu2 & _ & _ & Hd & _).
  exists us1, us2. auto.
Defined.

Local Close Scope Q_scope.

(** * The codec in closed form, and outside the first era *)

Lemma digits_1000000 (a : positive) :
  Z.pos a < 2 ^ 62 ->
  Z.pos (digits2_pos a) <= Z.pos (digits2_pos 1000000) + Float.prec - 1.
Proof.
  intros Ha. change (Z.pos (digits2_pos 1000000)) with 20.
  apply digits_le; [unfold Float.prec; lia|].
  apply Z.lt_le_trans with (2 ^ 62); [exact Ha|].
  apply Z.pow_le_mono_r; unfold Float.prec; lia.
Qed.

(** [int(x / 1000000)] truncates toward zero, on both sides of zero. *)
Lemma seconds_of_total_signed sg (a : positive) :
  Z.pos a < 2 ^ 32 * 1000000 ->
  (ts <- Float.truediv_int (signed sg a) 1000000 ;; Float.to_int ts)
  = Ok (cond_Zopp sg (Z.pos a / 1000000)).
Proof.
  intros Ha.
  destruct (truediv_int_signed sg a 1000000) as (k & m & j & Hk & Hj & Hq & Hm & Hmr & ->).
  { apply digits_1000000. change (2 ^ 62) with (2 ^ 32 * 1073741824). lia. }
  { vm_compute. congruence. }
  cbn [bind]. rewrite to_int_finite. do 2 f_equal.
  assert (HP : 0 < 2 ^ k) by (apply Z.pow_pos_nonneg; lia).
  assert (Hk20 : 20 < k).
  { destruct Hq as [Hq _].
    assert (2 ^ (Float.prec - 1) * 1000000 <= Z.pos a * 2 ^ k).
    { pose proof (Z.mul_div_le (Z.pos a * 2 ^ k) 1000000 ltac:(lia)). nia. }
    assert (2 ^ 20 < 2 ^ k).
    { change (2 ^ (Float.prec - 1)) with (2 ^ 32 * 2 ^ 20) in H. nia. }
    apply pow2_lt_inv in H0; lia. }
  assert (Hb : 1000000 < 2 * 2 ^ k).
  { assert (2 ^ 20 <= 2 ^ k) by (apply Z.pow_le_mono_r; lia).
    change (2 ^ 20) with 1048576 in H. lia. }
  rewrite <- (rne_div_floor (Z.pos a) 1000000 (2 ^ k)) by lia.
  rewrite <- Hmr.
  rewrite <- Z.shiftl_mul_pow2 by lia.
  rewrite <- Z.shiftr_div_pow2 by lia.
  rewrite <- Z.shiftl_opp_r.
  rewrite Z.shiftl_shiftl by lia. f_equal. lia.
Qed.

(** The whole seconds of a quotient of at least [K] are at least [K]. *)
Lemma seconds_lower_bound sg (a : positive) K :
  0 <= K -> K * 1000000 <= Z.pos a < 2 ^ 62 ->
  exists s,
    (ts <- Float.truediv_int (signed sg a) 1000000 ;; Float.to_int ts)
    = Ok (cond_Zopp sg s)
    /\ K <= s.
Proof.
  intros HK [Hlo Hhi].
  destruct (truediv_int_signed sg a 1000000) as (k & m & j & Hk & Hj & Hq & Hm & Hmr & ->).
  { apply digits_1000000. exact Hhi. }
  { vm_compute. congruence. }
  cbn [bind]. rewrite to_int_finite. eexists. split; [reflexivity|].
  assert (HP : 0 < 2 ^ k) by (apply Z.pow_pos_nonneg; lia).
  replace (- k + j) with (j + - k) by lia.
  rewrite (shiftl_mantissa _ j _ _ ltac:(lia) Hmr).
  rewrite shiftl_neg by lia.
  apply Z.div_le_lower_bound; [lia|].
  pose proof (rne_range (Z.pos a * 2 ^ k) 1000000 ltac:(lia)) as [HR _].
  apply Z.le_trans with (Z.pos a * 2 ^ k / 1000000); [|exact HR].
  apply Z.div_le_lower_bound; [lia|]. nia.
Qed.

Lemma mod_scaled_range x : 0 <= x mod 1000000 * 2 ^ 32 / 1000000 < 2 ^ 32.
Proof. apply fraction_range. apply Z.mod_pos_bound. lia. Qed.

Lemma representable_wall dt :
  representable dt <-> - wall NTP_EPOCH <= ntp_us dt < MAX_ORDINAL * US_PER_DAY - wall NTP_EPOCH.
Proof.
  unfold representable, wall_in_range, ntp_us.
  rewrite andb_true_iff, Z.leb_le, Z.ltb_lt. lia.
Qed.

Lemma in_era_representable dt : in_era dt -> representable dt.
Proof.
  intros H. apply representable_wall. unfold in_era in H.
  rewrite NTP_EPOCH_wall. unfold MAX_ORDINAL, US_PER_DAY, US_PER_SECOND in *. lia.
Qed.

(** The encoder on every instant less than [2^32] seconds away from the
    epoch, on either side. *)
Lemma datetime_to_ntp_timestamp_near dt :
  - (2 ^ 32 * 1000000) < ntp_us dt < 2 ^ 32 * 1000000 ->
  datetime_to_ntp_timestamp dt
  = Ok (Z.quot (ntp_us dt) 1000000 * 2 ^ 32
        + ntp_us dt mod 1000000 * 2 ^ 32 / 1000000).
Proof.
  intros Hx. rewrite datetime_to_ntp_timestamp_eq.
  assert (Hr : wall_in_range (utc_wall dt) = true).
  { apply representable_wall. rewrite NTP_EPOCH_wall.
    unfold MAX_ORDINAL, US_PER_DAY, US_PER_SECOND. lia. }
  rewrite Hr.
  assert (Hs : (ts <- Float.truediv_int (ntp_us dt) 1000000 ;; Float.to_int ts)
               = Ok (Z.quot (ntp_us dt) 1000000)).
  { destruct (ntp_us dt) as [|a|a] eqn:E.
    - reflexivity.
    - pose proof (seconds_of_total_signed false a ltac:(lia)) as H.
      cbn [signed cond_Zopp] in H. rewrite H.
      rewrite Z.quot_div_nonneg by lia. reflexivity.
    - pose proof (seconds_of_total_signed true a ltac:(lia)) as H.
      cbn [signed cond_Zopp Z.opp] in H. rewrite H.
      change (Z.neg a) with (- Z.pos a).
      rewrite Z.quot_opp_l by lia. rewrite Z.quot_div_nonneg by lia. reflexivity. }
  rewrite Hs. cbn [bind]. f_equal.
  apply lor_shiftl_add; [lia | apply mod_scaled_range].
Qed.

Lemma scaled_split x :
  x * 2 ^ 32 / 1000000 = x / 1000000 * 2 ^ 32 + x mod 1000000 * 2 ^ 32 / 1000000.
Proof.
  pose proof (Z.div_mod x 1000000 ltac:(lia)) as E.
  rewrite E at 1.
  replace ((1000000 * (x / 1000000) + x mod 1000000) * 2 ^ 32)
    with (x / 1000000 * 2 ^ 32 * 1000000 + x mod 1000000 * 2 ^ 32) by ring.
  rewrite Z.div_add_l by lia. reflexivity.
Qed.

Lemma scaled_strictly_increasing x y :
  x < y -> x * 2 ^ 32 / 1000000 < y * 2 ^ 32 / 1000000.
Proof.
  intros H.
  pose proof (Z.div_mod (x * 2 ^ 32) 1000000 ltac:(lia)) as E.
  pose proof (Z.mod_pos_bound (x * 2 ^ 32) 1000000 ltac:(lia)) as B.
  apply Z.lt_le_trans with (x * 2 ^ 32 / 1000000 + 1); [lia|].
  apply Z.div_le_lower_bound; [lia|].
  change (2 ^ 32) with 4294967296 in *. lia.
Qed.

(** The encoder within the first era, in closed form. *)
Lemma datetime_to_ntp_timestamp_scaled dt :
  in_era dt -> datetime_to_ntp_timestamp dt = Ok (ntp_us dt * 2 ^ 32 / 1000000).
Proof.
  intros H. rewrite datetime_to_ntp_timestamp_in_era by exact H.
  rewrite lor_shiftl_add by (try apply mod_scaled_range; lia).
  rewrite <- scaled_split. reflexivity.
Qed.

Lemma masks_of_timestamp ts :
  Z.land (Z.shiftr ts 32) 0xFFFFFFFF = ts mod 2 ^ 64 / 2 ^ 32
  /\ Z.land ts 0xFFFFFFFF = ts mod 2 ^ 64 mod 2 ^ 32.
Proof.
  change 0xFFFFFFFF with (Z.ones 32). rewrite !Z.land_ones by lia.
  rewrite Z.shiftr_div_pow2 by lia.
  pose proof (Z.div_mod ts (2 ^ 64) ltac:(lia)) as E.
  pose proof (Z.mod_pos_bound ts (2 ^ 64) ltac:(lia)) as B.
  set (t := ts mod 2 ^ 64) in *. set (q := ts / 2 ^ 64) in *.
  assert (BS : 0 <= t / 2 ^ 32 < 2 ^ 32).
  { split; [apply Z.div_pos; lia | apply Z.div_lt_upper_bound; lia]. }
  assert (E' : ts = q * 2 ^ 32 * 2 ^ 32 + t).
  { rewrite E. change (2 ^ 64) with (2 ^ 32 * 2 ^ 32). ring. }
  rewrite E'. split.
  - rewrite Z.div_add_l by lia.
    rewrite Z.add_comm, Z.mod_add by lia. apply Z.mod_small. exact BS.
  - rewrite Z.add_comm, Z.mod_add by lia. reflexivity.
Qed.

(** The decoder on every integer, in closed form. *)
Lemma ntp_timestamp_to_datetime_eq ts :
  ntp_timestamp_to_datetime ts
  = Ok {| wall := wall NTP_EPOCH + ts mod 2 ^ 64 * 1000000 / 2 ^ 32;
          tzinfo := utc |}.
Proof.
  pose proof (Z.mod_pos_bound ts (2 ^ 64) ltac:(lia)) as Bt.
  set (t := ts mod 2 ^ 64) in *.
  pose proof (Z.div_mod t (2 ^ 32) ltac:(lia)) as E.
  pose proof (Z.mod_pos_bound t (2 ^ 32) ltac:(lia)) as BF.
  assert (BS : 0 <= t / 2 ^ 32 < 2 ^ 32).
  { split; [apply Z.div_pos; lia | apply Z.div_lt_upper_bound; lia]. }
  destruct (masks_of_timestamp ts) as [HS HF]. fold t in HS, HF.
  transitivity (ntp_timestamp_to_datetime (Z.lor (Z.shiftl (t / 2 ^ 32) 32) (t mod 2 ^ 32))).
  - unfold ntp_timestamp_to_datetime.
    rewrite timestamp_high_bits, timestamp_low_bits by assumption.
    rewrite HS, HF. reflexivity.
  - rewrite ntp_timestamp_to_datetime_fields by assumption.
    do 2 f_equal. f_equal.
    rewrite E at 3.
    replace ((2 ^ 32 * (t / 2 ^ 32) + t mod 2 ^ 32) * 1000000)
      with (t / 2 ^ 32 * 1000000 * 2 ^ 32 + t mod 2 ^ 32 * 1000000) by ring.
    rewrite Z.div_add_l by lia. reflexivity.
Qed.

Lemma unscaled_range t : 0 <= t < 2 ^ 64 -> 0 <= t * 1000000 / 2 ^ 32 < 2 ^ 32 * 1000000.
Proof.
  intros H. split; [apply Z.div_pos; lia|].
  apply Z.div_lt_upper_bound; [lia|]. change (2 ^ 64) with (2 ^ 32 * 2 ^ 32) in H. nia.
Qed.

Lemma ntp_us_decoded v :
  ntp_us {| wall := wall NTP_EPOCH + v; tzinfo := utc |} = v.
Proof. unfold ntp_us, utc_wall. cbn [wall tzinfo utc]. lia. Qed.

(** X1. Within the first era the encoder is the scaling by [2^32 / 10^6]
    rounded down: the high 32 bits of its result are the whole seconds
    since 1900, and the result fits 64 bits. *)
Theorem encoder_closed_form (dt : datetime) :
  in_era dt ->
  exists ts,
    datetime_to_ntp_timestamp dt = Ok ts
    /\ ts = ntp_us dt * 2 ^ 32 / 1000000
    /\ Z.shiftr ts 32 = ntp_us dt / 1000000
    /\ u64 ts = true.
Proof.
  intros H. exists (ntp_us dt * 2 ^ 32 / 1000000).
  split; [apply datetime_to_ntp_timestamp_scaled; exact H|].
  split; [reflexivity|].
  pose proof (mod_scaled_range (ntp_us dt)) as BF.
  unfold in_era, US_PER_SECOND in H.
  assert (BS : 0 <= ntp_us dt / 1000000 < 2 ^ 32).
  { split; [apply Z.div_pos; lia | apply Z.div_lt_upper_bound; lia]. }
  rewrite scaled_split. split.
  - rewrite Z.shiftr_div_pow2 by lia. rewrite Z.div_add_l by lia.
    rewrite (Z.div_small _ _ BF). lia.
  - unfold u64. apply andb_true_iff. split; [apply Z.leb_le | apply Z.ltb_lt].
    + nia.
    + change (2 ^ 64) with (2 ^ 32 * 2 ^ 32). nia.
Qed.

Lemma encoder_closed_form_witness :
  in_era t_2024_1us
  /\ exists ts,
      datetime_to_ntp_timestamp t_2024_1us = Ok ts
      /\ ts = ntp_us t_2024_1us * 2 ^ 32 / 1000000
      /\ Z.shiftr ts 32 = ntp_us t_2024_1us / 1000000
      /\ u64 ts = true.
Proof.
  assert (H : in_era t_2024_1us) by (vm_compute; split; congruence).
  split; [exact H | apply (encoder_closed_form t_2024_1us H)].
Defined.

(** X2. The codec keeps the order of time: within the first era a later
    instant is encoded as a strictly larger timestamp (so that two distinct
    instants never share a timestamp), and among the timestamps that fit 64
    bits a larger one is never decoded as an earlier instant. *)
Theorem codec_monotone (a b : datetime) (t1 t2 : Z) :
  (in_era a -> in_era b -> ntp_us a < ntp_us b ->
   exists ta tb,
     datetime_to_ntp_timestamp a = Ok ta
     /\ datetime_to_ntp_timestamp b = Ok tb /\ ta < tb)
  /\ (0 <= t1 -> t1 <= t2 -> t2 < 2 ^ 64 ->
      exists d1 d2,
        ntp_timestamp_to_datetime t1 = Ok d1
        /\ ntp_timestamp_to_datetime t2 = Ok d2 /\ ntp_us d1 <= ntp_us d2).
Proof.
  split.
  - intros Ha Hb Hlt. eexists. eexists.
    split; [apply datetime_to_ntp_timestamp_scaled; exact Ha|].
    split; [apply datetime_to_ntp_timestamp_scaled; exact Hb|].
    apply scaled_strictly_increasing. exact Hlt.
  - intros H0 H12 H2. eexists. eexists.
    split; [apply ntp_timestamp_to_datetime_eq|].
    split; [apply ntp_timestamp_to_datetime_eq|].
    rewrite !ntp_us_decoded. rewrite !Z.mod_small by lia.
    apply Z.div_le_mono; lia.
Qed.

Lemma codec_monotone_witness :
  in_era t_2024 /\ in_era t_2024_1us /\ ntp_us t_2024 < ntp_us t_2024_1us
  /\ (exists ta tb,
        datetime_to_ntp_timestamp t_2024 = Ok ta
        /\ datetime_to_ntp_timestamp t_2024_1us = Ok tb /\ ta < tb)
  /\ (exists d1 d2,
        ntp_timestamp_to_datetime 4294 = Ok d1
        /\ ntp_timestamp_to_datetime 4295 = Ok d2 /\ ntp_us d1 <= ntp_us d2).
Proof.
  assert (Ha : in_era t_2024) by (vm_compute; split; congruence).
  assert (Hb : in_era t_2024_1us) by (vm_compute; split; congruence).
  assert (Hlt : ntp_us t_2024 < ntp_us t_2024_1us) by reflexivity.
  destruct (codec_monotone t_2024 t_2024_1us 4294 4295) as [He Hd].
  split; [exact Ha|]. split; [exact Hb|]. split; [exact Hlt|].
  split; [exact (He Ha Hb Hlt) | apply Hd; lia].
Defined.

(** X3. The decoder returns on every integer: it reads the low 64 bits
    only, and the instant returned is a UTC instant of the first era, the
    timestamp scaled by [10^6 / 2^32] and rounded down. *)
Theorem ntp_timestamp_to_datetime_total (ntp_timestamp : Z) :
  exists dt,
    ntp_timestamp_to_datetime ntp_timestamp = Ok dt
    /\ tzinfo dt = utc
    /\ in_era dt
    /\ ntp_us dt = ntp_timestamp mod 2 ^ 64 * 1000000 / 2 ^ 32
    /\ forall k, ntp_timestamp_to_datetime (ntp_timestamp + k * 2 ^ 64) = Ok dt.
Proof.
  eexists. split; [apply ntp_timestamp_to_datetime_eq|].
  split; [reflexivity|].
  rewrite ntp_us_decoded. unfold in_era. rewrite ntp_us_decoded.
  split; [apply unscaled_range; apply Z.mod_pos_bound; lia|].
  split; [reflexivity|].
  intros k. rewrite ntp_timestamp_to_datetime_eq. rewrite Z.mod_add by lia. reflexivity.
Qed.

(** X4. The encoder returns exactly on the datetimes whose UTC reading
    lies in the years 1 to 9999; on the others [astimezone] raises
    [OverflowError], and nothing else is ever raised. *)
Theorem encoder_defined (dt : datetime) :
  (representable dt -> exists ts, datetime_to_ntp_timestamp dt = Ok ts)
  /\ (~ representable dt -> datetime_to_ntp_timestamp dt = Raise OverflowError).
Proof.
  split.
  - intros Hr. destruct (datetime_to_ntp_timestamp_representable dt Hr) as (s & Hs).
    eexists. exact Hs.
  - intros Hn. rewrite datetime_to_ntp_timestamp_eq. unfold representable in Hn.
    destruct (wall_in_range (utc_wall dt)); [contradiction Hn; reflexivity | reflexivity].
Qed.

Lemma encoder_defined_witness :
  representable t_2024 /\ ~ representable t_year_1_plus1
  /\ (exists ts, datetime_to_ntp_timestamp t_2024 = Ok ts)
  /\ datetime_to_ntp_timestamp t_year_1_plus1 = Raise OverflowError.
Proof.
  assert (H1 : representable t_2024) by (vm_compute; reflexivity).
  assert (H2 : ~ representable t_year_1_plus1) by (vm_compute; discriminate).
  split; [exact H1|]. split; [exact H2|].
  split; [exact (proj1 (encoder_defined t_2024) H1)
         | exact (proj2 (encoder_defined t_year_1_plus1) H2)].
Defined.

Lemma quot_floor x :
  x < 0 ->
  Z.quot x 1000000 = x / 1000000 + (if x mod 1000000 =? 0 then 0 else 1).
Proof.
  intros Hx.
  pose proof (Z.div_mod x 1000000 ltac:(lia)) as E.
  pose proof (Z.mod_pos_bound x 1000000 ltac:(lia)) as B.
  replace x with (- (- x)) at 1 by lia.
  rewrite Z.quot_opp_l by lia. rewrite Z.quot_div_nonneg by lia.
  pose proof (Z.div_mod (- x) 1000000 ltac:(lia)) as E'.
  pose proof (Z.mod_pos_bound (- x) 1000000 ltac:(lia)) as B'.
  destruct (x mod 1000000 =? 0) eqn:C; [apply Z.eqb_eq in C | apply Z.eqb_neq in C]; lia.
Qed.

(** X5. Before the epoch the whole seconds are truncated toward zero while
    the microseconds are counted from the second below: an instant with a
    non-zero sub-second part is encoded one second ([2^32] units) above the
    scaled value, and an instant of the last second before 1900 is encoded
    as the instant one second later, a positive timestamp. *)
Theorem pre_epoch_encoding (dt : datetime) :
  - (2 ^ 32 * US_PER_SECOND) < ntp_us dt < 0 ->
  datetime_to_ntp_timestamp dt
  = Ok (ntp_us dt * 2 ^ 32 / 1000000
        + (if ntp_us dt mod 1000000 =? 0 then 0 else 2 ^ 32))
  /\ (- US_PER_SECOND < ntp_us dt ->
      forall dt', ntp_us dt' = ntp_us dt + US_PER_SECOND ->
        datetime_to_ntp_timestamp dt = datetime_to_ntp_timestamp dt'
        /\ exists ts, datetime_to_ntp_timestamp dt' = Ok ts /\ 0 < ts < 2 ^ 32).
Proof.
  unfold US_PER_SECOND. intros Hx.
  assert (Hv : datetime_to_ntp_timestamp dt
               = Ok (ntp_us dt * 2 ^ 32 / 1000000
                     + (if ntp_us dt mod 1000000 =? 0 then 0 else 2 ^ 32))).
  { rewrite datetime_to_ntp_timestamp_near by lia. f_equal.
    rewrite quot_floor by lia. rewrite (scaled_split (ntp_us dt)).
    destruct (ntp_us dt mod 1000000 =? 0); ring. }
  split; [exact Hv|].
  intros Hlast dt' Hdt'.
  assert (Hera : in_era dt') by (unfold in_era, US_PER_SECOND; lia).
  rewrite (datetime_to_ntp_timestamp_scaled dt' Hera), Hv, Hdt'.
  assert (Hm : ntp_us dt mod 1000000 = ntp_us dt + 1000000).
  { symmetry. apply Z.mod_unique with (q := -1); lia. }
  assert (Hne : (ntp_us dt mod 1000000 =? 0) = false) by (apply Z.eqb_neq; lia).
  rewrite Hne.
  assert (Heq : ntp_us dt * 2 ^ 32 / 1000000 + 2 ^ 32
                = (ntp_us dt + 1000000) * 2 ^ 32 / 1000000).
  { replace ((ntp_us dt + 1000000) * 2 ^ 32)
      with (ntp_us dt * 2 ^ 32 + 2 ^ 32 * 1000000) by ring.
    rewrite Z.div_add by lia. reflexivity. }
  split; [rewrite Heq; reflexivity|].
  eexists. split; [reflexivity|]. split.
  - apply Z.lt_le_trans with (1 * 2 ^ 32 / 1000000); [reflexivity|].
    apply Z.div_le_mono; lia.
  - apply Z.div_lt_upper_bound; lia.
Qed.

Lemma pre_epoch_encoding_witness :
  - (2 ^ 32 * US_PER_SECOND) < ntp_us t_1899_half < 0
  /\ datetime_to_ntp_timestamp t_1899_half = Ok (2 ^ 31)
  /\ datetime_to_ntp_timestamp t_1899_half = datetime_to_ntp_timestamp t_1900_half.
Proof.
  assert (H : - (2 ^ 32 * US_PER_SECOND) < ntp_us t_1899_half < 0)
    by (vm_compute; split; reflexivity).
  destruct (pre_epoch_encoding t_1899_half H) as (Hv & Hl).
  split; [exact H|]. split; [exact Hv|].
  apply (Hl ltac:(reflexivity) t_1900_half ltac:(reflexivity)).
Defined.

Lemma multiple_of_15625 u :
  (u * 2 ^ 32) mod 1000000 = 0 <-> u mod 15625 = 0.
Proof.
  split; intros H.
  - apply Z.mod_divide in H; [|lia]. apply Z.mod_divide; [lia|].
    apply Z.gauss with (m := 2 ^ 32); [|reflexivity].
    rewrite Z.mul_comm.
    apply Z.divide_trans with 1000000; [exists 64; reflexivity | exact H].
  - apply Z.mod_divide in H; [|lia]. destruct H as [v ->].
    replace (v * 15625 * 2 ^ 32) with (v * 2 ^ 26 * 1000000).
    + apply Z.mod_mul. lia.
    + change (2 ^ 32) with (2 ^ 26 * 64). ring.
Qed.

Lemma unscaled_scaled u :
  0 <= u ->
  u * 2 ^ 32 / 1000000 * 1000000 / 2 ^ 32
  = u - (if u mod 15625 =? 0 then 0 else 1).
Proof.
  intros Hu.
  pose proof (Z.div_mod (u * 2 ^ 32) 1000000 ltac:(lia)) as E.
  pose proof (Z.mod_pos_bound (u * 2 ^ 32) 1000000 ltac:(lia)) as B.
  pose proof (multiple_of_15625 u) as M.
  set (F := u * 2 ^ 32 / 1000000) in *. set (r := (u * 2 ^ 32) mod 1000000) in *.
  destruct (u mod 15625 =? 0) eqn:C; [apply Z.eqb_eq in C | apply Z.eqb_neq in C].
  - assert (r = 0) by (apply M; exact C).
    rewrite Z.sub_0_r. replace (F * 1000000) with (u * 2 ^ 32) by lia.
    apply Z.div_mul. lia.
  - assert (r <> 0) by (intros Hr; apply C, M; exact Hr).
    symmetry. apply Z.div_unique with (r := 2 ^ 32 - r); [|lia].
    left. change (2 ^ 32) with 4294967296 in *. lia.
Qed.

(** X6. The round trip of an instant of the first era is exact when its
    microseconds are a multiple of 15625 (a whole number of 1/64 s), and
    otherwise returns the instant exactly one microsecond earlier. *)
Theorem round_trip_exact_iff (dt : datetime) :
  in_era dt ->
  exists ts dt',
    datetime_to_ntp_timestamp dt = Ok ts
    /\ ntp_timestamp_to_datetime ts = Ok dt'
    /\ ntp_us dt' = ntp_us dt - (if ntp_us dt mod 15625 =? 0 then 0 else 1).
Proof.
  intros H. eexists. eexists.
  split; [apply datetime_to_ntp_timestamp_scaled; exact H|].
  split; [apply ntp_timestamp_to_datetime_eq|].
  rewrite ntp_us_decoded.
  unfold in_era, US_PER_SECOND in H.
  rewrite Z.mod_small.
  - apply unscaled_scaled. lia.
  - split; [apply Z.div_pos; lia|].
    apply Z.div_lt_upper_bound; [lia|]. change (2 ^ 64) with (2 ^ 32 * 2 ^ 32). nia.
Qed.

Lemma round_trip_exact_iff_witness :
  in_era t_2024_1us
  /\ exists ts dt',
      datetime_to_ntp_timestamp t_2024_1us = Ok ts
      /\ ntp_timestamp_to_datetime ts = Ok dt'
      /\ ntp_us dt' = ntp_us t_2024_1us - 1.
Proof.
  assert (H : in_era t_2024_1us) by (vm_compute; split; congruence).
  split; [exact H | apply (round_trip_exact_iff t_2024_1us H)].
Defined.

(** X7. Decoding a timestamp that fits 64 bits and encoding the result
    never moves it forward, lowers it by at most 4295 units of [2^-32] s
    (one microsecond), and leaves its whole seconds unchanged. *)
Theorem decode_encode_round_trip (ts : Z) :
  u64 ts = true ->
  exists dt ts',
    ntp_timestamp_to_datetime ts = Ok dt
    /\ datetime_to_ntp_timestamp dt = Ok ts'
    /\ ts - 4295 <= ts' <= ts
    /\ Z.shiftr ts' 32 = Z.shiftr ts 32.
Proof.
  intros Hu. unfold u64 in Hu. apply andb_true_iff in Hu.
  destruct Hu as [H0 H1]. apply Z.leb_le in H0. apply Z.ltb_lt in H1.
  eexists. eexists.
  split; [apply ntp_timestamp_to_datetime_eq|].
  rewrite Z.mod_small by lia.
  pose proof (unscaled_range ts ltac:(lia)) as Hr.
  split.
  { apply datetime_to_ntp_timestamp_scaled. unfold in_era.
    rewrite ntp_us_decoded. exact Hr. }
  rewrite ntp_us_decoded.
  pose proof (Z.div_mod (ts * 1000000) (2 ^ 32) ltac:(lia)) as E1.
  pose proof (Z.mod_pos_bound (ts * 1000000) (2 ^ 32) ltac:(lia)) as B1.
  set (x := ts * 1000000 / 2 ^ 32) in *.
  pose proof (Z.div_mod (x * 2 ^ 32) 1000000 ltac:(lia)) as E2.
  pose proof (Z.mod_pos_bound (x * 2 ^ 32) 1000000 ltac:(lia)) as B2.
  set (t' := x * 2 ^ 32 / 1000000) in *.
  assert (Hb : ts - 4295 <= t' <= ts).
  { change (2 ^ 32) with 4294967296 in *. lia. }
  split; [exact Hb|].
  rewrite !Z.shiftr_div_pow2 by lia.
  (* the whole seconds *)
  pose proof (Z.div_mod ts (2 ^ 32) ltac:(lia)) as E3.
  pose proof (Z.mod_pos_bound ts (2 ^ 32) ltac:(lia)) as B3.
  symmetry. apply Z.div_unique with (r := t' - ts / 2 ^ 32 * 2 ^ 32); [|lia].
  left. split; [|lia].
  (* t' is at least the whole seconds scaled *)
  assert (Hx : ts / 2 ^ 32 * 1000000 <= x).
  { unfold x. apply Z.div_le_lower_bound; [lia|]. nia. }
  assert (ts / 2 ^ 32 * 2 ^ 32 <= t'); [|lia].
  unfold t'. apply Z.div_le_lower_bound; [lia|]. nia.
Qed.

Lemma decode_encode_round_trip_witness :
  u64 0x0102030405060708 = true
  /\ exists dt ts',
      ntp_timestamp_to_datetime 0x0102030405060708 = Ok dt
      /\ datetime_to_ntp_timestamp dt = Ok ts'
      /\ 0x0102030405060708 - 4295 <= ts' <= 0x0102030405060708
      /\ Z.shiftr ts' 32 = Z.shiftr 0x0102030405060708 32.
Proof.
  assert (H : u64 0x0102030405060708 = true) by reflexivity.
  split; [exact H | apply (decode_encode_round_trip _ H)].
Defined.

(** * The response encoder: every packet, and the failures *)

Lemma Z_of_byte_of_Z v : Z_of_byte (byte_of_Z v) = v mod 256.
Proof.
  unfold byte_of_Z, Z_of_byte.
  pose proof (Z.mod_pos_bound v 256 ltac:(lia)) as B.
  destruct (Byte.of_N (Z.to_N (v mod 256))) as [b|] eqn:E.
  - apply Byte.to_of_N in E. rewrite E. apply Z2N.id. lia.
  - apply Byte.of_N_None_iff in E. lia.
Qed.

(** Reading the bytes packed from an integer gives its low bits back. *)
Lemma be_value_be_bytes n v :
  be_value (be_bytes n v) = v mod 2 ^ (8 * Z.of_nat n).
Proof.
  revert v. induction n as [|n IH]; intros v.
  - cbn. rewrite Z.mod_1_r. reflexivity.
  - rewrite be_bytes_snoc, be_value_snoc, IH, Z_of_byte_of_Z.
    rewrite Z.shiftr_div_pow2 by lia. change (2 ^ 8) with 256.
    replace (8 * Z.of_nat (S n)) with (8 * Z.of_nat n + 8) by lia.
    rewrite Z.pow_add_r by lia. change (2 ^ 8) with 256.
    set (A := 2 ^ (8 * Z.of_nat n)).
    assert (HA : 0 < A) by (apply Z.pow_pos_nonneg; lia).
    pose proof (Z.div_mod v 256 ltac:(lia)) as E1.
    pose proof (Z.mod_pos_bound v 256 ltac:(lia)) as B1.
    pose proof (Z.div_mod (v / 256) A ltac:(lia)) as E2.
    pose proof (Z.mod_pos_bound (v / 256) A ltac:(lia)) as B2.
    apply Z.mod_unique with (q := v / 256 / A); nia.
Qed.

Lemma be_value_be_bytes_u64 v : u64 v = true -> be_value (be_bytes 8 v) = v.
Proof.
  intros H. unfold u64 in H. apply andb_true_iff in H. destruct H as [H0 H1].
  apply Z.leb_le in H0. apply Z.ltb_lt in H1.
  rewrite be_value_be_bytes. apply Z.mod_small.
  change (2 ^ (8 * Z.of_nat 8)) with (2 ^ 64). lia.
Qed.

Lemma u64_spec v : u64 v = true <-> 0 <= v < 2 ^ 64.
Proof. unfold u64. rewrite andb_true_iff, Z.leb_le, Z.ltb_lt. reflexivity. Qed.

Lemma timestamp_u64_iff dt :
  representable dt ->
  exists v, datetime_to_ntp_timestamp dt = Ok v /\ (u64 v = true <-> packable dt).
Proof.
  intros Hr. pose proof (representable_range dt Hr) as Hx.
  unfold packable, US_PER_SECOND.
  destruct (Z_lt_dec (- 1000000) (ntp_us dt)) as [Hlo | Hlo];
    [destruct (Z_lt_dec (ntp_us dt) (2 ^ 32 * 1000000)) as [Hhi | Hhi]|].
  - (* packable *)
    rewrite datetime_to_ntp_timestamp_near by lia.
    eexists. split; [reflexivity|]. rewrite u64_spec.
    pose proof (mod_scaled_range (ntp_us dt)) as BF.
    split; [lia|]. intros _.
    destruct (Z_lt_dec (ntp_us dt) 0) as [Hneg | Hpos].
    + assert (Hq : Z.quot (ntp_us dt) 1000000 = 0) by (apply Z.quot_small_iff; lia).
      rewrite Hq. change (2 ^ 64) with (2 ^ 32 * 2 ^ 32). lia.
    + rewrite Z.quot_div_nonneg by lia.
      assert (BS : 0 <= ntp_us dt / 1000000 < 2 ^ 32).
      { split; [apply Z.div_pos; lia | apply Z.div_lt_upper_bound; lia]. }
      change (2 ^ 64) with (2 ^ 32 * 2 ^ 32). nia.
  - (* the seconds need more than 32 bits *)
    rewrite datetime_to_ntp_timestamp_eq. unfold representable in Hr. rewrite Hr.
    destruct (ntp_us dt) as [|a|a] eqn:E; try lia.
    destruct (seconds_lower_bound false a (2 ^ 32) ltac:(lia) ltac:(lia)) as (s & Hs & Hb).
    cbn [signed cond_Zopp] in Hs. rewrite Hs. cbn [bind].
    eexists. split; [reflexivity|]. rewrite u64_spec.
    rewrite lor_shiftl_add by (try apply mod_scaled_range; lia).
    pose proof (mod_scaled_range (Z.pos a)) as BF.
    change (2 ^ 64) with (2 ^ 32 * 2 ^ 32). split; [nia | lia].
  - (* a second or more before the epoch *)
    rewrite datetime_to_ntp_timestamp_eq. unfold representable in Hr. rewrite Hr.
    destruct (ntp_us dt) as [|a|a] eqn:E; try lia.
    destruct (seconds_lower_bound true a 1 ltac:(lia) ltac:(lia)) as (s & Hs & Hb).
    cbn [signed cond_Zopp Z.opp] in Hs. rewrite Hs. cbn [bind].
    eexists. split; [reflexivity|]. rewrite u64_spec.
    rewrite lor_shiftl_add by (try apply mod_scaled_range; lia).
    pose proof (mod_scaled_range (Z.neg a)) as BF.
    split; [nia | lia].
Qed.

Lemma timestamp_scaled_u64 d :
  in_era d -> u64 (ntp_us d * 2 ^ 32 / 1000000) = true.
Proof.
  intros Hd. destruct (in_era_timestamp d Hd) as (v & Ev & Uv).
  rewrite (datetime_to_ntp_timestamp_scaled d Hd) in Ev.
  apply Ok_inj in Ev. rewrite Ev. exact Uv.
Qed.

(** The packet built for two instants of the first era. *)
Lemma build_ntp_response_scaled origin_time receive_time transmit_time :
  u64 origin_time = true -> in_era receive_time -> in_era transmit_time ->
  build_ntp_response origin_time receive_time transmit_time
  = Ok (header ++ be_bytes 8 (ntp_us transmit_time * 2 ^ 32 / 1000000)
          ++ be_bytes 8 origin_time
          ++ be_bytes 8 (ntp_us receive_time * 2 ^ 32 / 1000000)
          ++ be_bytes 8 (ntp_us transmit_time * 2 ^ 32 / 1000000)).
Proof.
  intros Ho Hr Ht. rewrite build_ntp_response_eq.
  rewrite (datetime_to_ntp_timestamp_scaled _ Hr).
  rewrite (datetime_to_ntp_timestamp_scaled _ Ht).
  cbn [bind].
  rewrite (timestamp_scaled_u64 _ Hr), (timestamp_scaled_u64 _ Ht), Ho. reflexivity.
Qed.

(** The fixed bytes and the reference timestamp of a response. *)
Lemma response_layout_reference tn o rn :
  let pkt := header ++ be_bytes 8 tn ++ be_bytes 8 o ++ be_bytes 8 rn ++ be_bytes 8 tn in
  firstn 16 pkt = header /\ slice 16 24 pkt = be_bytes 8 tn.
Proof. cbv zeta. split; reflexivity. Qed.

(** C3, as stated, fails: with a transmit instant in 2040 the seconds no
    longer fit 32 bits, [struct.pack('!Q', ...)] raises and no packet is
    returned. *)
Lemma response_shape_counterexample :
  build_ntp_response 0 t_2024 t_2040 = Raise StructError
  /\ ~ (exists pkt, build_ntp_response 0 t_2024 t_2040 = Ok pkt
                    /\ List.length pkt = 48%nat).
Proof.
  assert (H : build_ntp_response 0 t_2024 t_2040 = Raise StructError)
    by (vm_compute; reflexivity).
  split; [exact H|]. intros (pkt & Hp & _). rewrite H in Hp. discriminate.
Qed.

(** C3, amended. For every origin timestamp that fits 64 bits and every
    receive and transmit instant of the first NTP era, [build_ntp_response]
    returns exactly 48 bytes, with byte 0 equal to 0x24 (LI=0, VN=4,
    Mode=4), byte 1 equal to 2 and bytes 12 to 15 equal to "LOCL"; and
    every packet that it returns, on any arguments, has that shape.  It
    does not return on every triple.  When the UTC reading of one of the
    two instants leaves the years 1 to 9999, [astimezone] raises
    [OverflowError].  Otherwise a packet is returned exactly when the
    origin fits 64 bits and both instants lie later than one second before
    1900 and before the end of the first era (an instant of the last
    second before 1900 has the whole seconds 0 and is packed), and in
    every other case [struct.pack] raises [struct.error]. *)
Theorem response_shape (origin_time : Z) (receive_time transmit_time : datetime) :
  (u64 origin_time = true -> in_era receive_time -> in_era transmit_time ->
   exists pkt,
     build_ntp_response origin_time receive_time transmit_time = Ok pkt
     /\ List.length pkt = 48%nat
     /\ nth_error pkt 0 = Some (byte_of_Z 0x24)
     /\ nth_error pkt 1 = Some (byte_of_Z 2)
     /\ slice 12 16 pkt = list_byte_of_string "LOCL")
  /\ (forall pkt,
        build_ntp_response origin_time receive_time transmit_time = Ok pkt ->
        List.length pkt = 48%nat
        /\ nth_error pkt 0 = Some (byte_of_Z 0x24)
        /\ nth_error pkt 1 = Some (byte_of_Z 2)
        /\ slice 12 16 pkt = list_byte_of_string "LOCL")
  /\ (~ representable receive_time \/ ~ representable transmit_time ->
      build_ntp_response origin_time receive_time transmit_time
      = Raise OverflowError)
  /\ (representable receive_time -> representable transmit_time ->
      (u64 origin_time = true /\ packable receive_time /\ packable transmit_time ->
       exists pkt,
         build_ntp_response origin_time receive_time transmit_time = Ok pkt)
      /\ (~ (u64 origin_time = true /\ packable receive_time
             /\ packable transmit_time) ->
          build_ntp_response origin_time receive_time transmit_time
          = Raise StructError)).
Proof.
  split; [|split; [|split]].
  - intros Ho Hr Ht.
    destruct (build_ntp_response_in_era _ _ _ Ho Hr Ht) as (rn & tn & Hb).
    destruct (response_layout tn origin_time rn) as (Hl & H0 & H1 & Hid & _).
    eexists. split; [exact Hb|]. auto.
  - intros pkt Hb.
    destruct (build_ntp_response_ok _ _ _ _ Hb) as (rn & tn & _ & _ & ->).
    destruct (response_layout tn origin_time rn) as (Hl & H0 & H1 & Hid & _).
    auto.
  - intros Hn. rewrite build_ntp_response_eq, !datetime_to_ntp_timestamp_eq.
    unfold representable in Hn.
    destruct (wall_in_range (utc_wall receive_time)) eqn:Cr; [|reflexivity].
    destruct (wall_in_range (utc_wall transmit_time)) eqn:Ct.
    + exfalso. destruct Hn as [Hn | Hn]; apply Hn; reflexivity.
    + destruct (seconds_defined (ntp_us receive_time)
                  (representable_range receive_time Cr)) as (sr & ->).
      reflexivity.
  - intros Hr Ht.
    destruct (timestamp_u64_iff receive_time Hr) as (rn & Ern & Urn).
    destruct (timestamp_u64_iff transmit_time Ht) as (tn & Etn & Utn).
    rewrite build_ntp_response_eq, Ern, Etn. cbn [bind]. split.
    + intros (Ho & Pr & Pt). apply Urn in Pr. apply Utn in Pt.
      rewrite Ho, Pr, Pt. eexists. reflexivity.
    + intros Hn.
      destruct (u64 tn) eqn:Ct; [|reflexivity].
      destruct (u64 origin_time) eqn:Co; [|reflexivity].
      destruct (u64 rn) eqn:Cr; [|reflexivity].
      exfalso. apply Hn.
      split; [reflexivity|]. split; [apply Urn | apply Utn]; reflexivity.
Qed.

Lemma response_shape_witness :
  u64 0 = true /\ in_era t_2024 /\ in_era t_2024
  /\ (exists pkt,
        build_ntp_response 0 t_2024 t_2024 = Ok pkt
        /\ List.length pkt = 48%nat
        /\ nth_error pkt 0 = Some (byte_of_Z 0x24)
        /\ nth_error pkt 1 = Some (byte_of_Z 2)
        /\ slice 12 16 pkt = list_byte_of_string "LOCL")
  /\ (representable t_2024 /\ representable t_1899_half
      /\ packable t_2024 /\ packable t_1899_half
      /\ exists pkt, build_ntp_response 0 t_2024 t_1899_half = Ok pkt)
  /\ (representable t_2040 /\ ~ packable t_2040
      /\ build_ntp_response 0 t_2024 t_2040 = Raise StructError)
  /\ (~ representable t_year_1_plus1
      /\ build_ntp_response 0 t_2024 t_year_1_plus1 = Raise OverflowError).
Proof.
  assert (Ho : u64 0 = true) by reflexivity.
  assert (Ht : in_era t_2024) by (vm_compute; split; congruence).
  assert (R1 : representable t_2024) by (vm_compute; reflexivity).
  assert (R2 : representable t_1899_half) by (vm_compute; reflexivity).
  assert (R3 : representable t_2040) by (vm_compute; reflexivity).
  assert (R4 : ~ representable t_year_1_plus1) by (vm_compute; discriminate).
  assert (P1 : packable t_2024) by (vm_compute; split; congruence).
  assert (P2 : packable t_1899_half) by (vm_compute; split; congruence).
  assert (P3 : ~ packable t_2040) by (intros [_ P]; vm_compute in P; discriminate P).
  split; [exact Ho|]. split; [exact Ht|]. split; [exact Ht|].
  split; [exact (proj1 (response_shape 0 t_2024 t_2024) Ho Ht Ht)|].
  split; [|split].
  - repeat (split; [assumption|]).
    destruct (response_shape 0 t_2024 t_1899_half) as (_ & _ & _ & H).
    apply (proj1 (H R1 R2)). repeat split; assumption.
  - split; [exact R3|]. split; [exact P3|].
    destruct (response_shape 0 t_2024 t_2040) as (_ & _ & _ & H).
    apply (proj2 (H R1 R3)). intros (_ & _ & P). exact (P3 P).
  - split; [exact R4|].
    destruct (response_shape 0 t_2024 t_year_1_plus1) as (_ & _ & H & _).
    apply H. right. exact R4.
Defined.

(** X8. The encoder of responses has no range check of its own: on two
    instants that a datetime can hold it returns a packet exactly when the
    origin fits 64 bits and both instants lie less than a second before
    1900 at the earliest and before the end of the first era (2036-02-07
    06:28:16 UTC); otherwise [struct.pack] raises [struct.error]. *)
Theorem response_failure
    (origin_time : Z) (receive_time transmit_time : datetime) :
  representable receive_time -> representable transmit_time ->
  (u64 origin_time = true /\ packable receive_time /\ packable transmit_time ->
   exists pkt, build_ntp_response origin_time receive_time transmit_time = Ok pkt)
  /\ (~ (u64 origin_time = true /\ packable receive_time /\ packable transmit_time) ->
      build_ntp_response origin_time receive_time transmit_time = Raise StructError).
Proof.
  intros Hr Ht.
  destruct (timestamp_u64_iff receive_time Hr) as (rn & Ern & Urn).
  destruct (timestamp_u64_iff transmit_time Ht) as (tn & Etn & Utn).
  rewrite build_ntp_response_eq, Ern, Etn. cbn [bind]. split.
  - intros (Ho & Pr & Pt). apply Urn in Pr. apply Utn in Pt.
    rewrite Ho, Pr, Pt. eexists. reflexivity.
  - intros Hn.
    destruct (u64 tn) eqn:Ct; [|reflexivity].
    destruct (u64 origin_time) eqn:Co; [|reflexivity].
    destruct (u64 rn) eqn:Cr; [|reflexivity].
    exfalso. apply Hn. split; [reflexivity|]. split; [apply Urn | apply Utn]; reflexivity.
Qed.

Lemma response_failure_witness :
  representable t_2024 /\ representable t_2040 /\ ~ packable t_2040
  /\ (exists pkt, build_ntp_response 0 t_2024 t_2024 = Ok pkt)
  /\ build_ntp_response 0 t_2024 t_2040 = Raise StructError.
Proof.
  assert (H1 : representable t_2024) by (vm_compute; reflexivity).
  assert (H2 : representable t_2040) by (vm_compute; reflexivity).
  assert (P1 : packable t_2024) by (vm_compute; split; congruence).
  assert (P2 : ~ packable t_2040) by (intros [_ P]; vm_compute in P; discriminate P).
  split; [exact H1|]. split; [exact H2|]. split; [exact P2|]. split.
  - apply (proj1 (response_failure 0 t_2024 t_2024 H1 H1)). repeat split; assumption.
  - apply (proj2 (response_failure 0 t_2024 t_2040 H1 H2)).
    intros (_ & _ & P). exact (P2 P).
Defined.

(** X9. Every packet returned has 48 bytes: the sixteen fixed bytes (flags
    0x24, stratum 2, poll 1, precision -20, root delay and root dispersion
    65, "LOCL"), then the reference timestamp, which is the transmit
    timestamp again, the origin as given, and the receive and transmit
    timestamps of the two instants, each as 8 big-endian bytes. *)
Theorem response_fields
    (origin_time : Z) (receive_time transmit_time : datetime) (pkt : list byte) :
  build_ntp_response origin_time receive_time transmit_time = Ok pkt ->
  List.length pkt = 48%nat
  /\ firstn 16 pkt = header
  /\ slice 16 24 pkt = slice 40 48 pkt
  /\ be_value (slice 24 32 pkt) = origin_time
  /\ datetime_to_ntp_timestamp receive_time = Ok (be_value (slice 32 40 pkt))
  /\ datetime_to_ntp_timestamp transmit_time = Ok (be_value (slice 40 48 pkt)).
Proof.
  rewrite build_ntp_response_eq.
  destruct (datetime_to_ntp_timestamp receive_time) as [rn|e]; [|discriminate].
  destruct (datetime_to_ntp_timestamp transmit_time) as [tn|e]; [|discriminate].
  cbn [bind].
  destruct (u64 tn) eqn:Ct; [|discriminate].
  destruct (u64 origin_time) eqn:Co; [|discriminate].
  destruct (u64 rn) eqn:Cr; [|discriminate].
  cbn [andb]. intros H. apply Ok_inj in H. subst pkt.
  destruct (response_layout tn origin_time rn) as (Hl & _ & _ & _ & Ho & Hrn & Htn).
  destruct (response_layout_reference tn origin_time rn) as (Hh & Href).
  rewrite Hh, Href, Ho, Hrn, Htn, !be_value_be_bytes_u64 by assumption.
  split; [exact Hl|]. repeat split; reflexivity.
Qed.

Lemma response_fields_witness :
  build_ntp_response 0x0102030405060708 t_2024 t_2024_7s = Ok sample_response
  /\ List.length sample_response = 48%nat
  /\ firstn 16 sample_response = header
  /\ slice 16 24 sample_response = slice 40 48 sample_response
  /\ be_value (slice 24 32 sample_response) = 0x0102030405060708
  /\ datetime_to_ntp_timestamp t_2024
     = Ok (be_value (slice 32 40 sample_response))
  /\ datetime_to_ntp_timestamp t_2024_7s
     = Ok (be_value (slice 40 48 sample_response)).
Proof.
  assert (H : build_ntp_response 0x0102030405060708 t_2024 t_2024_7s = Ok sample_response)
    by (vm_compute; reflexivity).
  split; [exact H | apply (response_fields _ _ _ _ H)].
Defined.

(** X10. A client reads the server's clock back from a response: for two
    instants of the first era, the transmit field decodes to the transmit
    instant, or to the microsecond before it when its microseconds are not
    a multiple of 15625, and the receive field does so for the receive
    instant. *)
Theorem response_read_back
    (origin_time : Z) (receive_time transmit_time : datetime) :
  u64 origin_time = true -> in_era receive_time -> in_era transmit_time ->
  exists pkt dr dt,
    build_ntp_response origin_time receive_time transmit_time = Ok pkt
    /\ ntp_timestamp_to_datetime (be_value (slice 32 40 pkt)) = Ok dr
    /\ ntp_timestamp_to_datetime (be_value (slice 40 48 pkt)) = Ok dt
    /\ ntp_us dr
       = ntp_us receive_time - (if ntp_us receive_time mod 15625 =? 0 then 0 else 1)
    /\ ntp_us dt
       = ntp_us transmit_time - (if ntp_us transmit_time mod 15625 =? 0 then 0 else 1).
Proof.
  intros Ho Hr Ht.
  eexists. eexists. eexists.
  split; [apply build_ntp_response_scaled; assumption|].
  destruct (response_layout (ntp_us transmit_time * 2 ^ 32 / 1000000) origin_time
              (ntp_us receive_time * 2 ^ 32 / 1000000))
    as (_ & _ & _ & _ & _ & Hrn & Htn).
  rewrite Hrn, Htn.
  rewrite !be_value_be_bytes_u64 by (apply timestamp_scaled_u64; assumption).
  split; [apply ntp_timestamp_to_datetime_eq|].
  split; [apply ntp_timestamp_to_datetime_eq|].
  rewrite !ntp_us_decoded.
  assert (Hv : forall d, in_era d ->
            (ntp_us d * 2 ^ 32 / 1000000) mod 2 ^ 64 * 1000000 / 2 ^ 32
            = ntp_us d - (if ntp_us d mod 15625 =? 0 then 0 else 1)).
  { intros d Hd. rewrite Z.mod_small by (apply u64_spec, timestamp_scaled_u64; exact Hd).
    apply unscaled_scaled. unfold in_era in Hd. lia. }
  split; apply Hv; assumption.
Qed.

Lemma response_read_back_witness :
  u64 0 = true /\ in_era t_2024 /\ in_era t_2024_1us
  /\ exists pkt dr dt,
      build_ntp_response 0 t_2024 t_2024_1us = Ok pkt
      /\ ntp_timestamp_to_datetime (be_value (slice 32 40 pkt)) = Ok dr
      /\ ntp_timestamp_to_datetime (be_value (slice 40 48 pkt)) = Ok dt
      /\ ntp_us dr = ntp_us t_2024 - 0
      /\ ntp_us dt = ntp_us t_2024_1us - 1.
Proof.
  assert (Ho : u64 0 = true) by reflexivity.
  assert (Hr : in_era t_2024) by (vm_compute; split; congruence).
  assert (Ht : in_era t_2024_1us) by (vm_compute; split; congruence).
  split; [exact Ho|]. split; [exact Hr|]. split; [exact Ht|].
  apply (response_read_back 0 t_2024 t_2024_1us Ho Hr Ht).
Defined.

(** * The server: startup and the loop *)

Lemma parse_ntp_request_short data :
  (List.length data < 48)%nat -> parse_ntp_request data = Ok None.
Proof.
  intros H. unfold parse_ntp_request.
  rewrite parse_ntp_request_traced_short by exact H. reflexivity.
Qed.

Lemma parse_ntp_request_long data :
  (48 <= List.length data)%nat ->
  parse_ntp_request data = Ok (Some (be_value (slice 24 32 data))).
Proof.
  intros H. unfold parse_ntp_request.
  rewrite parse_ntp_request_traced_long by exact H. reflexivity.
Qed.

Section Startup.

Variable rt : runtime.

(** X11. After a startup that returns, the base time is a datetime, never
    [None]; the custom mode is on exactly when a non-empty text was given
    by the argument or by the environment; the argument is used before the
    environment, an empty argument counting as none; and with no text at
    all the base time is the current time. *)
Theorem startup_invariant
    (cli env : option string) (now : datetime) (tr : spec_float)
    (st : server_state) :
  startup rt cli env now tr = Ok st ->
  (exists base, base_time st = Some base)
  /\ use_custom_time st = truthy cli || truthy env
  /\ server_start_time st = tr
  /\ (truthy cli = true ->
      parse_custom_time rt (text_of cli) = Ok (base_time st))
  /\ (truthy cli = false -> truthy env = true ->
      parse_custom_time rt (text_of env) = Ok (base_time st))
  /\ (use_custom_time st = false -> base_time st = Some now).
Proof.
  unfold startup, get_custom_time. intros H.
  assert (Hne : forall s, truthy s = true -> is_empty (text_of s) = false).
  { intros [s|]; cbn; [|discriminate]. destruct (is_empty s); [discriminate | reflexivity]. }
  destruct (truthy cli) eqn:Ccli; [|destruct (truthy env) eqn:Cenv].
  - destruct (parse_custom_time rt (text_of cli)) as [r|e] eqn:Hp; [|discriminate].
    cbn [bind] in H. apply Ok_inj in H. subst st. cbn.
    destruct (parse_custom_time_returns rt _ _ (Hne cli Ccli) Hp) as (dt & ->).
    repeat split; try discriminate. exists dt. reflexivity.
  - destruct (parse_custom_time rt (text_of env)) as [r|e] eqn:Hp; [|discriminate].
    cbn [bind] in H. apply Ok_inj in H. subst st. cbn.
    destruct (parse_custom_time_returns rt _ _ (Hne env Cenv) Hp) as (dt & ->).
    repeat split; try discriminate. exists dt. reflexivity.
  - cbn [bind] in H. apply Ok_inj in H. subst st. cbn.
    repeat split; try discriminate. exists now. reflexivity.
Qed.

End Startup.

Lemma startup_invariant_witness :
  startup rt_two_texts (Some text_2024) None t_2024_5s (Float.of_int 1705314600)
  = Ok st_custom
  /\ (exists base, base_time st_custom = Some base)
  /\ use_custom_time st_custom = true
  /\ parse_custom_time rt_two_texts text_2024 = Ok (base_time st_custom).
Proof.
  assert (H : startup rt_two_texts (Some text_2024) None t_2024_5s
                (Float.of_int 1705314600) = Ok st_custom) by (vm_compute; reflexivity).
  destruct (startup_invariant rt_two_texts _ _ _ _ _ H) as (Hb & Hu & _ & Hp & _).
  split; [exact H|]. split; [exact Hb|]. split; [exact Hu|].
  apply Hp. reflexivity.
Defined.

(** X12. Without a custom time, a datagram of 48 bytes or more received at
    an instant of the first era is always answered, whatever [time.time()]
    reads: the packet has 48 bytes, echoes the bytes 24 to 31 of the
    request, and its reference, receive and transmit timestamps are all the
    timestamp of the instant of reception. *)
Theorem system_time_response
    (st : server_state) (data : list byte) (now : datetime) (tr : spec_float) :
  use_custom_time st = false -> (48 <= List.length data)%nat -> in_era now ->
  exists pkt,
    serve_datagram st data now tr = Ok (Some pkt)
    /\ List.length pkt = 48%nat
    /\ slice 24 32 pkt = slice 24 32 data
    /\ slice 16 24 pkt = slice 40 48 pkt
    /\ slice 32 40 pkt = slice 40 48 pkt
    /\ datetime_to_ntp_timestamp now = Ok (be_value (slice 40 48 pkt)).
Proof.
  intros Hc Hlen Hera.
  set (B := slice 24 32 data).
  assert (HB : List.length B = 8%nat) by (apply slice_length; lia).
  set (T := ntp_us now * 2 ^ 32 / 1000000).
  exists (header ++ be_bytes 8 T ++ be_bytes 8 (be_value B) ++ be_bytes 8 T ++ be_bytes 8 T).
  destruct (response_layout T (be_value B) T) as (Hl & _ & _ & _ & Ho & Hr & Ht).
  destruct (response_layout_reference T (be_value B) T) as (_ & Href).
  split.
  { unfold serve_datagram. rewrite parse_ntp_request_long by exact Hlen.
    cbn [bind]. unfold transmit_time_of. rewrite Hc. cbn [bind].
    fold B. rewrite (build_ntp_response_scaled _ _ _ (be_value_u64 B HB) Hera Hera).
    reflexivity. }
  split; [exact Hl|].
  split; [rewrite Ho, <- HB; apply be_bytes_be_value|].
  split; [rewrite Href, Ht; reflexivity|].
  split; [rewrite Hr, Ht; reflexivity|].
  rewrite Ht, be_value_be_bytes_u64 by (apply timestamp_scaled_u64; exact Hera).
  apply datetime_to_ntp_timestamp_scaled. exact Hera.
Qed.

Lemma system_time_response_witness :
  use_custom_time st_system = false
  /\ (48 <= List.length sample_request)%nat
  /\ in_era t_2024
  /\ exists pkt,
      serve_datagram st_system sample_request t_2024 reading_7s = Ok (Some pkt)
      /\ List.length pkt = 48%nat
      /\ slice 24 32 pkt = slice 24 32 sample_request
      /\ slice 16 24 pkt = slice 40 48 pkt
      /\ slice 32 40 pkt = slice 40 48 pkt
      /\ datetime_to_ntp_timestamp t_2024 = Ok (be_value (slice 40 48 pkt)).
Proof.
  assert (Hc : use_custom_time st_system = false) by reflexivity.
  assert (Hl : (48 <= List.length sample_request)%nat) by (vm_compute; lia).
  assert (He : in_era t_2024) by (vm_compute; split; congruence).
  split; [exact Hc|]. split; [exact Hl|]. split; [exact He|].
  apply (system_time_response st_system sample_request t_2024 reading_7s Hc Hl He).
Defined.

Lemma serve_datagram_packet st data now tr pkt :
  serve_datagram st data now tr = Ok (Some pkt) ->
  (48 <= List.length data)%nat /\ List.length pkt = 48%nat /\ firstn 16 pkt = header.
Proof.
  intros H.
  destruct (Nat.lt_ge_cases (List.length data) 48) as [Hs | Hl].
  - unfold serve_datagram in H. rewrite parse_ntp_request_short in H by exact Hs.
    discriminate H.
  - split; [exact Hl|].
    rewrite (serve_datagram_accepted _ _ _ _ _ (parse_ntp_request_long data Hl)) in H.
    destruct (transmit_time_of st now tr) as [tt|e]; [|discriminate].
    cbn [bind] in H.
    destruct (build_ntp_response (be_value (slice 24 32 data)) now tt) as [resp|e] eqn:Hb;
      [|discriminate].
    cbn [bind] in H. apply Ok_inj in H. apply (f_equal (fun o => match o with Some x => x | None => [] end)) in H.
    cbn beta iota in H. subst resp.
    destruct (build_ntp_response_ok _ _ _ _ Hb) as (rn & tn & _ & _ & ->).
    split.
    + apply (response_layout tn (be_value (slice 24 32 data)) rn).
    + apply (response_layout_reference tn (be_value (slice 24 32 data)) rn).
Qed.

(** X13. Whatever it receives, the server sends only packets of 48 bytes
    that begin with the sixteen fixed bytes of a response, and at most one
    for each datagram of 48 bytes or more. *)
Theorem loop_sends_responses (st : server_state) (events : list event) :
  Forall (fun pkt => List.length pkt = 48%nat /\ firstn 16 pkt = header)
    (fst (serve_loop st events))
  /\ (List.length (fst (serve_loop st events))
      <= List.length
           (filter (fun ev => match ev with
                              | Datagram data _ _ => (48 <=? List.length data)%nat
                              | KeyboardInterrupt => false
                              end) events))%nat.
Proof.
  induction events as [|ev rest IH]; [split; [constructor | cbn; lia]|].
  destruct ev as [data now tr|]; [|split; [constructor | cbn; lia]].
  cbn [serve_loop filter].
  destruct (serve_datagram st data now tr) as [[pkt|]|e] eqn:Hs.
  - destruct (serve_datagram_packet _ _ _ _ _ Hs) as (Hl & Hp).
    apply Nat.leb_le in Hl. rewrite Hl. cbn [fst List.length]. split.
    + constructor; [exact Hp | apply IH].
    + destruct IH as [_ IH]. lia.
  - destruct IH as [IH1 IH2]. split; [exact IH1|].
    destruct (48 <=? List.length data)%nat; cbn [List.length]; lia.
  - split; [constructor | cbn; lia].
Qed.

(** X14. Datagrams shorter than 48 bytes leave no trace: the packets sent
    and the way the loop ends are those of the run without them. *)
Theorem short_datagrams_ignored (st : server_state) (events : list event) :
  serve_loop st (filter well_formed events) = serve_loop st events.
Proof.
  induction events as [|ev rest IH]; [reflexivity|].
  destruct ev as [data now tr|]; [|reflexivity].
  cbn [filter well_formed].
  destruct (48 <=? List.length data)%nat eqn:C.
  - cbn [serve_loop]. rewrite IH. reflexivity.
  - apply Nat.leb_gt in C. cbn [serve_loop]. unfold serve_datagram.
    rewrite parse_ntp_request_short by exact C. cbn [bind]. exact IH.
Qed.

(** X15. The loop has no handler of its own: when the instant of reception
    or the transmit instant of a datagram of 48 bytes or more has a
    timestamp that does not fit 64 bits (from 2036-02-07 06:28:16 UTC on,
    or a second or more before 1900), the turn raises, no packet is sent
    for it or for any later datagram, and [main] returns 1. *)
Theorem unpackable_instant_stops_server
    (st : server_state) (data : list byte) (now : datetime) (tr : spec_float)
    (rest : list event) :
  (48 <= List.length data)%nat -> representable now ->
  (~ packable now
   \/ exists tt, transmit_time_of st now tr = Ok tt
                 /\ representable tt /\ ~ packable tt) ->
  (exists e, serve_datagram st data now tr = Raise e)
  /\ serve_loop st (Datagram data now tr :: rest) = ([], Some 1).
Proof.
  intros Hlen Hr Hbad.
  assert (He : exists e, serve_datagram st data now tr = Raise e).
  { rewrite (serve_datagram_accepted _ _ _ _ _ (parse_ntp_request_long data Hlen)).
    destruct (transmit_time_of st now tr) as [tt|e] eqn:Ht;
      [|exists e; reflexivity].
    cbn [bind].
    destruct (build_ntp_response (be_value (slice 24 32 data)) now tt) as [pkt|e] eqn:Hb;
      [|exists e; reflexivity].
    exfalso.
    destruct (build_ntp_response_ok _ _ _ _ Hb) as (rn & tn & Ern & Etn & _).
    rewrite build_ntp_response_eq, Ern, Etn in Hb. cbn [bind] in Hb.
    destruct (u64 tn) eqn:Ct; [|discriminate].
    destruct (u64 (be_value (slice 24 32 data))); [|discriminate].
    destruct (u64 rn) eqn:Cr; [|discriminate].
    destruct Hbad as [Hn | (tt' & Htt & Hrt & Hn)].
    - destruct (timestamp_u64_iff now Hr) as (v & Ev & Uv).
      rewrite Ern in Ev. apply Ok_inj in Ev. subst v. apply Hn, Uv, Cr.
    - apply Ok_inj in Htt. subst tt'.
      destruct (timestamp_u64_iff tt Hrt) as (v & Ev & Uv).
      rewrite Etn in Ev. apply Ok_inj in Ev. subst v. apply Hn, Uv, Ct. }
  split; [exact He|]. destruct He as (e & He).
  cbn [serve_loop]. rewrite He. reflexivity.
Qed.

Lemma unpackable_instant_stops_server_witness :
  (48 <= List.length sample_request)%nat /\ representable t_2040 /\ ~ packable t_2040
  /\ (exists e, serve_datagram st_system sample_request t_2040 reading_7s = Raise e)
  /\ serve_loop st_system
       [Datagram sample_request t_2040 reading_7s;
        Datagram sample_request t_2024 reading_7s]
     = ([], Some 1).
Proof.
  assert (Hl : (48 <= List.length sample_request)%nat) by (vm_compute; lia).
  assert (Hr : representable t_2040) by (vm_compute; reflexivity).
  assert (Hp : ~ packable t_2040) by (intros [_ P]; vm_compute in P; discriminate P).
  split; [exact Hl|]. split; [exact Hr|]. split; [exact Hp|].
  apply (unpackable_instant_stops_server st_system sample_request t_2040 reading_7s
           [Datagram sample_request t_2024 reading_7s] Hl Hr (or_introl Hp)).
Defined.

(** * The custom-time parser: what it returns *)

Lemma astimezone_utc_ok dt r :
  astimezone_utc dt = Ok r -> tzinfo r = utc /\ wall r = utc_wall dt.
Proof.
  unfold astimezone_utc, utc_wall. destruct (tzinfo dt) as [off|]; [|discriminate].
  destruct (wall_in_range (wall dt - off)); [|discriminate].
  intros H. apply Ok_inj in H. subst r. split; reflexivity.
Qed.

Section ParsedTime.

Variable rt : runtime.

Lemma try_iso_eq s d :
  fromisoformat rt (replace_Z s) = Ok d ->
  try_iso rt s
  = if wall_in_range (utc_wall d)
    then Ok {| wall := utc_wall d; tzinfo := utc |}
    else Raise OverflowError.
Proof.
  intros H. unfold try_iso. rewrite H. cbn [bind].
  unfold astimezone_utc, utc_wall, replace_tzinfo.
  destruct (tzinfo d) as [off|] eqn:E; cbn [tzinfo wall utc]; rewrite ?E.
  - reflexivity.
  - reflexivity.
Qed.

Lemma try_formats_utc s fmts dt :
  try_formats rt s fmts = Ok dt -> tzinfo dt = utc.
Proof.
  induction fmts as [|fmt rest IH]; cbn [try_formats]; [discriminate|].
  destruct (strptime rt s fmt) as [d|e].
  - intros H. apply Ok_inj in H. subst dt. reflexivity.
  - destruct e; try discriminate. exact IH.
Qed.

Lemma try_iso_utc s dt : try_iso rt s = Ok dt -> tzinfo dt = utc.
Proof.
  unfold try_iso. destruct (fromisoformat rt (replace_Z s)) as [d|e]; [|discriminate].
  cbn [bind]. intros H. apply astimezone_utc_ok in H. apply H.
Qed.

(** X16. Every datetime that [parse_custom_time] returns is aware and in
    UTC, provided that [fromtimestamp] with [tz=utc] returns such values,
    as it is documented to. *)
Theorem parse_custom_time_utc (s : string) (dt : datetime) :
  (forall x d, fromtimestamp_utc rt x = Ok d -> tzinfo d = utc) ->
  parse_custom_time rt s = Ok (Some dt) -> tzinfo dt = utc.
Proof.
  intros Hts. unfold parse_custom_time.
  destruct (is_empty s); [discriminate|].
  destruct (try_unix_timestamp rt s) as [d1|e1] eqn:E1.
  - intros H. apply Ok_inj in H.
    assert (d1 = dt) by congruence. subst d1.
    unfold try_unix_timestamp in E1.
    destruct (float_of_string rt s) as [x|e]; [|discriminate].
    cbn [bind] in E1. exact (Hts _ _ E1).
  - assert (Hrest : match try_iso rt s with
                    | Ok d => Ok (Some d)
                    | Raise ValueError => d <- try_formats rt s formats ;; Ok (Some d)
                    | Raise e => Raise e
                    end = Ok (Some dt) -> tzinfo dt = utc).
    { destruct (try_iso rt s) as [d2|e2] eqn:E2.
      - intros H. apply Ok_inj in H.
        assert (d2 = dt) by congruence. subst d2. exact (try_iso_utc _ _ E2).
      - destruct e2; try discriminate.
        destruct (try_formats rt s formats) as [d3|e3] eqn:E3; [|discriminate].
        cbn [bind]. intros H. apply Ok_inj in H.
        assert (d3 = dt) by congruence. subst d3. exact (try_formats_utc _ _ _ E3). }
    destruct e1; try discriminate; exact Hrest.
Qed.

(** X17. A text that is not taken as a Unix timestamp and that
    [fromisoformat] reads (after the replacement of 'Z') is returned as
    the same instant expressed in UTC, a text with no offset being read
    as UTC; when that instant leaves the years 1 to 9999, [OverflowError]
    is raised and the four formats are not tried. *)
Theorem iso_text_is_read_as_utc (s : string) (d : datetime) :
  is_empty s = false -> unix_attempt_caught rt s ->
  fromisoformat rt (replace_Z s) = Ok d ->
  (representable d ->
   parse_custom_time rt s = Ok (Some {| wall := utc_wall d; tzinfo := utc |}))
  /\ (~ representable d -> parse_custom_time rt s = Raise OverflowError).
Proof.
  intros Hne Hu Hd. unfold parse_custom_time, representable.
  rewrite Hne, (try_iso_eq s d Hd).
  destruct Hu as [-> | ->];
    (destruct (wall_in_range (utc_wall d));
     split; intros H; try reflexivity; try discriminate H; contradiction H; reflexivity).
Qed.

End ParsedTime.

Lemma parse_custom_time_utc_witness :
  (forall x d, fromtimestamp_utc rt_text_zero x = Ok d -> tzinfo d = utc)
  /\ parse_custom_time rt_text_zero text_zero = Ok (Some UNIX_EPOCH)
  /\ tzinfo UNIX_EPOCH = utc.
Proof.
  assert (Hts : forall x d, fromtimestamp_utc rt_text_zero x = Ok d -> tzinfo d = utc).
  { intros x d. destruct x; cbn; intros H; try discriminate H.
    apply Ok_inj in H. subst d. reflexivity. }
  assert (Hp : parse_custom_time rt_text_zero text_zero = Ok (Some UNIX_EPOCH))
    by (vm_compute; reflexivity).
  split; [exact Hts|]. split; [exact Hp|].
  apply (parse_custom_time_utc rt_text_zero text_zero UNIX_EPOCH Hts Hp).
Defined.

Lemma iso_text_is_read_as_utc_witness :
  is_empty text_2024 = false
  /\ unix_attempt_caught rt_two_texts text_2024
  /\ fromisoformat rt_two_texts (replace_Z text_2024) = Ok t_2024_naive
  /\ representable t_2024_naive
  /\ parse_custom_time rt_two_texts text_2024 = Ok (Some t_2024).
Proof.
  assert (Hne : is_empty text_2024 = false) by reflexivity.
  assert (Hu : unix_attempt_caught rt_two_texts text_2024) by (left; reflexivity).
  assert (Hd : fromisoformat rt_two_texts (replace_Z text_2024) = Ok t_2024_naive)
    by (vm_compute; reflexivity).
  assert (Hr : representable t_2024_naive) by (vm_compute; reflexivity).
  split; [exact Hne|]. split; [exact Hu|]. split; [exact Hd|]. split; [exact Hr|].
  apply (proj1 (iso_text_is_read_as_utc rt_two_texts text_2024 t_2024_naive Hne Hu Hd) Hr).
Defined.

(** * The virtual clock: the order of time *)

Lemma sub_self x : is_finite x = true -> Float.sub x x = S754_zero false.
Proof.
  destruct x as [s| | |s m e]; try discriminate; intros _.
  - destruct s; reflexivity.
  - unfold Float.sub, SFsub. rewrite Z.min_id, Z.sub_diag. reflexivity.
Qed.

(** X18. A request served at the very reading of [time.time()] taken at
    startup is answered with the custom base time itself. *)
Theorem virtual_clock_start
    (st : server_state) (base now : datetime) :
  use_custom_time st = true -> base_time st = Some base ->
  wall_in_range (wall base) = true -> is_finite (server_start_time st) = true ->
  transmit_time_of st now (server_start_time st) = Ok base.
Proof.
  intros Hc Hb Hw Hf. unfold transmit_time_of. rewrite Hc, Hb, sub_self by exact Hf.
  cbn [timedelta_of_seconds microseconds_of_seconds modf bind fst snd].
  change (0 * US_PER_SECOND) with 0.
  change (microseconds_to_delta 0) with {| days := 0; seconds := 0; microseconds := 0 |}.
  cbn [days]. change ((- MAX_DELTA_DAYS <=? 0) && (0 <=? MAX_DELTA_DAYS)) with true.
  cbn [bind]. unfold datetime_add.
  change (delta_to_microseconds {| days := 0; seconds := 0; microseconds := 0 |}) with 0.
  rewrite Z.add_0_r, Hw. destruct base. reflexivity.
Qed.

Lemma virtual_clock_start_witness :
  use_custom_time st_custom = true /\ base_time st_custom = Some t_2024
  /\ wall_in_range (wall t_2024) = true
  /\ is_finite (server_start_time st_custom) = true
  /\ transmit_time_of st_custom t_2024_5s (server_start_time st_custom) = Ok t_2024.
Proof.
  assert (Hc : use_custom_time st_custom = true) by reflexivity.
  assert (Hb : base_time st_custom = Some t_2024) by reflexivity.
  assert (Hw : wall_in_range (wall t_2024) = true) by reflexivity.
  assert (Hf : is_finite (server_start_time st_custom) = true) by reflexivity.
  split; [exact Hc|]. split; [exact Hb|]. split; [exact Hw|]. split; [exact Hf|].
  apply (virtual_clock_start st_custom t_2024 t_2024_5s Hc Hb Hw Hf).
Defined.

Local Open Scope Q_scope.

(** Two doubles of one exponent, at least [-52], with distinct mantissas
    are at least [2^-52] apart. *)
Lemma to_Q_gap (m1 m2 : positive) e :
  (Z.pos m1 < Z.pos m2)%Z -> (-52 <= e)%Z ->
  (1 # 4503599627370496)
  <= to_Q (S754_finite false m2 e) - to_Q (S754_finite false m1 e).
Proof.
  intros Hm He. destruct e as [|p|p].
  - rewrite !to_Q_nonneg_exp by lia. cbn [cond_Zopp].
    unfold Qminus. rewrite <- inject_Z_opp, <- inject_Z_plus.
    unfold Qle, inject_Z. cbn [Qnum Qden]. lia.
  - rewrite !to_Q_nonneg_exp by lia. cbn [cond_Zopp].
    unfold Qminus. rewrite <- inject_Z_opp, <- inject_Z_plus.
    unfold Qle, inject_Z. cbn [Qnum Qden].
    assert (0 < 2 ^ Z.pos p)%Z by (apply Z.pow_pos_nonneg; lia). nia.
  - rewrite !to_Q_neg_exp. cbn [cond_Zopp].
    assert (Hp : (2 ^ Z.pos p <= 2 ^ 52)%Z) by (apply Z.pow_le_mono_r; lia).
    unfold Qle, Qminus, Qplus, Qmult, Qopp, inject_Z. cbn [Qnum Qden].
    rewrite !Pos.mul_1_l. rewrite !Pos2Z.inj_mul, !Pos2Z.inj_pow.
    change (Z.pos 2) with 2%Z.
    set (P := (2 ^ Z.pos p)%Z) in *.
    assert (0 < P)%Z by (apply Z.pow_pos_nonneg; lia).
    change (2 ^ 52)%Z with 4503599627370496%Z in Hp. nia.
Qed.

Lemma SFleb_finite (m1 m2 : positive) (e1 e2 : Z) :
  SFleb (S754_finite false m1 e1) (S754_finite false m2 e2)
  = match (e1 ?= e2)%Z with
    | Lt => true
    | Gt => false
    | Eq => negb (Pos.ltb m2 m1)
    end.
Proof.
  unfold SFleb, SFcompare.
  change (IntDef.Z.compare e1 e2) with (e1 ?= e2)%Z.
  change (PosDef.Pos.compare_cont Eq m1 m2) with (Pos.compare m1 m2).
  destruct (e1 ?= e2)%Z; try reflexivity.
  unfold Pos.ltb. rewrite (Pos.compare_antisym m1 m2).
  destruct (Pos.compare m1 m2); reflexivity.
Qed.

(** X19. The virtual clock does not run backwards: for two readings of
    [time.time()] in the binade of the start reading (itself at least one
    second), the later reading never gets the earlier transmit instant. *)
Theorem virtual_clock_monotone
    (st : server_state) (base now : datetime)
    (r1 r2 : spec_float) (t1 t2 : datetime) :
  use_custom_time st = true -> base_time st = Some base ->
  same_binade r1 (server_start_time st) ->
  same_binade r2 (server_start_time st) ->
  SFleb (Float.of_int 1) (server_start_time st) = true ->
  SFleb r1 r2 = true ->
  transmit_time_of st now r1 = Ok t1 ->
  transmit_time_of st now r2 = Ok t2 ->
  (utc_wall t1 <= utc_wall t2)%Z.
Proof.
  intros Hc Hb S1 S2 Hone Hle H1 H2.
  destruct (transmit_time_of_custom st base now r1 t1 Hc Hb H1) as (us1 & Hu1 & Hw1).
  destruct (transmit_time_of_custom st base now r2 t2 Hc Hb H2) as (us2 & Hu2 & Hw2).
  rewrite Hw1, Hw2. apply Zplus_le_compat_l.
  pose proof (microseconds_of_seconds_bound _ _ Hu1) as B1.
  pose proof (microseconds_of_seconds_bound _ _ Hu2) as B2.
  rewrite (sub_same_binade _ _ S1) in B1. rewrite (sub_same_binade _ _ S2) in B2.
  destruct S1 as (m1 & ms & e & E1 & Es & Hm1 & Hms & He).
  destruct S2 as (m2 & ms' & e' & E2 & Es' & Hm2 & _ & _).
  rewrite Es in Es'. injection Es' as <- <-.
  subst r1 r2. rewrite Es in *.
  (* the exponent *)
  assert (He52 : (-52 <= e)%Z).
  { change (Float.of_int 1) with (S754_finite false 4503599627370496 (-52)) in Hone.
    rewrite SFleb_finite in Hone.
    destruct (-52 ?= e)%Z eqn:C; [| |discriminate Hone].
    - apply Z.compare_eq_iff in C. lia.
    - change (-52 < e)%Z in C. lia. }
  (* the mantissas *)
  assert (Hm : (Z.pos m1 <= Z.pos m2)%Z).
  { rewrite SFleb_finite, Z.compare_refl in Hle.
    apply negb_true_iff, Pos.ltb_ge in Hle. lia. }
  destruct (Z.eq_dec (Z.pos m1) (Z.pos m2)) as [Heq | Hne].
  - injection Heq as ->. rewrite Hu1 in Hu2. apply Ok_inj in Hu2. lia.
  - pose proof (to_Q_gap m1 m2 e ltac:(lia) He52) as G.
    apply Qabs_Qle_condition in B1. apply Qabs_Qle_condition in B2.
    destruct (Z_le_gt_dec us1 us2) as [Hok | Hbad]; [exact Hok | exfalso].
    assert (Hz : inject_Z us2 + 1 <= inject_Z us1).
    { change 1 with (inject_Z 1). rewrite <- inject_Z_plus.
      rewrite <- Zle_Qle. lia. }
    unfold us_error_bound in B1, B2.
    change (inject_Z US_PER_SECOND) with (1000000 # 1) in B1, B2.
    set (q1 := to_Q (S754_finite false m1 e)) in *.
    set (q2 := to_Q (S754_finite false m2 e)) in *.
    set (qs := to_Q (S754_finite false ms e)) in *.
    lra.
Qed.

Lemma virtual_clock_monotone_witness :
  same_binade reading_next (server_start_time st_custom)
  /\ same_binade reading_7s (server_start_time st_custom)
  /\ SFleb (Float.of_int 1) (server_start_time st_custom) = true
  /\ SFleb reading_next reading_7s = true
  /\ transmit_time_of st_custom t_2024_5s reading_next = Ok t_2024
  /\ transmit_time_of st_custom t_2024_5s reading_7s = Ok t_2024_7s
  /\ (utc_wall t_2024 <= utc_wall t_2024_7s)%Z.
Proof.
  destruct readings_same_binade as [S1 S2].
  assert (Hone : SFleb (Float.of_int 1) (server_start_time st_custom) = true) by reflexivity.
  assert (Hle : SFleb reading_next reading_7s = true) by reflexivity.
  assert (H1 : transmit_time_of st_custom t_2024_5s reading_next = Ok t_2024)
    by (vm_compute; reflexivity).
  assert (H2 : transmit_time_of st_custom t_2024_5s reading_7s = Ok t_2024_7s)
    by (vm_compute; reflexivity).
  repeat (split; [assumption|]).
  apply (virtual_clock_monotone st_custom t_2024 t_2024_5s reading_next reading_7s
           t_2024 t_2024_7s eq_refl eq_refl S1 S2 Hone Hle H1 H2).
Defined.

Local Close Scope Q_scope.
